(** * Client-side API layer of the creative dashboard: a shallow embedding

    The TypeScript sources embedded here are
      - [lib/types.ts]  (value sets, runtime validators, request builders),
      - [lib/api.ts]    (typed service error, authenticated fetch, the image
                         generation client, the thin feature wrappers, the
                         helpers on abort signals),
      - [middleware.ts] (the route guard),
      - [components/image-generation-page.tsx]  (the form: its state, its
                         setters, input validation and request formatting).

    Pure functions are Rocq functions.  Code that throws, touches the cookie
    jar, navigates or talks to the network runs in a small state-and-exception
    monad over an explicit [World]. *)

From Stdlib Require Import List String Ascii Bool Arith NArith ZArith QArith Lia.
From Stdlib Require Import DecimalString.
Import ListNotations.
Local Open Scope list_scope.
Local Open Scope string_scope.

Set Implicit Arguments.
Set Warnings "-register-all".

(* ================================================================== *)
(** ** JavaScript values *)
(* ================================================================== *)

Module Js.

(** A JavaScript number.  Every finite double is a rational, and the only
    operations the embedded code performs on numbers are comparisons with the
    integer literals 1..4, which are exact; so finite numbers are carried as
    rationals and the three special values are kept apart. *)
Inductive Number : Type :=
| NaN
| Infinity (negative : bool)
| Finite (q : Q).

Definition of_Z (z : Z) : Number := Finite (inject_Z z).

(** [a < b] of JavaScript: false as soon as one side is NaN. *)
Definition lt (a b : Number) : bool :=
  match a, b with
  | NaN, _ | _, NaN => false
  | Infinity true, Infinity true => false
  | Infinity true, _ => true
  | _, Infinity true => false
  | Infinity false, _ => false
  | Finite _, Infinity false => true
  | Finite p, Finite q => negb (Qle_bool q p)
  end.

Definition gt (a b : Number) : bool := lt b a.

(** SameValueZero, the comparison used by [Array.prototype.includes]. *)
Definition same_value_zero (a b : Number) : bool :=
  match a, b with
  | NaN, NaN => true
  | Infinity s, Infinity t => Bool.eqb s t
  | Finite p, Finite q => Qeq_bool p q
  | _, _ => false
  end.

(** Values as [JSON.parse] or a caller can produce them.  Objects keep their
    properties in insertion order. *)
Inductive Value : Type :=
| Undefined
| Null
| Bool (b : bool)
| Num (n : Number)
| Str (s : string)
| Arr (items : list Value)
| Obj (props : list (string * Value)).

Definition typeof (v : Value) : string :=
  match v with
  | Undefined => "undefined"
  | Null => "object"
  | Bool _ => "boolean"
  | Num _ => "number"
  | Str _ => "string"
  | Arr _ => "object"
  | Obj _ => "object"
  end.

(** ToBoolean. *)
Definition truthy (v : Value) : bool :=
  match v with
  | Undefined | Null => false
  | Bool b => b
  | Num NaN => false
  | Num (Infinity _) => true
  | Num (Finite q) => negb (Qeq_bool q 0)
  | Str s => negb (s =? "")
  | Arr _ | Obj _ => true
  end.

(** [a || b] *)
Definition or (a b : Value) : Value := if truthy a then a else b.

Definition is_undefined (v : Value) : bool :=
  match v with Undefined => true | _ => false end.

(** Association lists with unique keys, as own properties of an object. *)
Fixpoint lookup {A : Type} (k : string) (ps : list (string * A)) : option A :=
  match ps with
  | [] => None
  | (k', v) :: ps' => if k' =? k then Some v else lookup k ps'
  end.

(** [o[k] = v]: overwrite in place, or append a new property. *)
Fixpoint set {A : Type} (k : string) (v : A) (ps : list (string * A))
  : list (string * A) :=
  match ps with
  | [] => [(k, v)]
  | (k', v') :: ps' =>
      if k' =? k then (k, v) :: ps' else (k', v') :: set k v ps'
  end.

(** [{...a, ...b}] *)
Definition spread {A : Type} (a b : list (string * A)) : list (string * A) :=
  fold_left (fun acc kv => set (fst kv) (snd kv) acc) b a.

(** [k in o] for a plain object. *)
Definition has (k : string) (v : Value) : bool :=
  match v with
  | Obj ps => match lookup k ps with Some _ => true | None => false end
  | _ => false
  end.

(** Property read [v.k] on a value already known not to be null or undefined.
    None of the names read by the embedded code is an own property of an
    array or of a primitive, so those reads give [undefined]. *)
Definition get (v : Value) (k : string) : Value :=
  match v with
  | Obj ps => match lookup k ps with Some x => x | None => Undefined end
  | _ => Undefined
  end.

(** The string behind a value that the code has just tested to be a string. *)
Definition as_string (v : Value) : string :=
  match v with Str s => s | _ => "" end.

Definition as_number (v : Value) : Number :=
  match v with Num n => n | _ => NaN end.

(** White space and line terminators of ECMAScript among the code units below
    256 (one [ascii] stands for one UTF-16 code unit). *)
Definition is_whitespace (c : ascii) : bool :=
  let n := nat_of_ascii c in
  (n =? 9)%nat || (n =? 10)%nat || (n =? 11)%nat || (n =? 12)%nat
  || (n =? 13)%nat || (n =? 32)%nat || (n =? 160)%nat.

Fixpoint trimStart (s : string) : string :=
  match s with
  | EmptyString => EmptyString
  | String c s' => if is_whitespace c then trimStart s' else s
  end.

Fixpoint trimEnd (s : string) : string :=
  match s with
  | EmptyString => EmptyString
  | String c s' =>
      match trimEnd s' with
      | EmptyString => if is_whitespace c then EmptyString else String c EmptyString
      | t => String c t
      end
  end.

Definition trim (s : string) : string := trimEnd (trimStart s).

(** [Array.prototype.includes] on an array of strings. *)
Definition includes (xs : list string) (s : string) : bool :=
  existsb (fun x => x =? s) xs.

(** [Array.prototype.includes] on an array of integer literals. *)
Definition includes_num (xs : list Z) (n : Number) : bool :=
  existsb (fun x => same_value_zero (of_Z x) n) xs.

(** [Array.prototype.join] *)
Definition join (sep : string) (xs : list string) : string := String.concat sep xs.

(** Decimal rendering of an array index, a status code or a small literal. *)
Definition nat_toString (n : nat) : string :=
  NilZero.string_of_uint (Nat.to_uint n).

Definition Z_toString (z : Z) : string :=
  NilZero.string_of_int (Z.to_int z).

(** Built-in error objects: [Error] and the subclasses the code tells apart
    with [instanceof] or by [name]. *)
Inductive ErrorClass : Type := PlainError | TypeError | SyntaxError | DOMException.

Record Error : Type := mkError {
  error_class : ErrorClass;
  error_name : string;
  error_message : string
}.

(** [new Error(message)] *)
Definition new_Error (message : string) : Error := mkError PlainError "Error" message.

(** How a call completes: with a value, or by throwing. *)
Inductive Completion (E A : Type) : Type :=
| Return (a : A)
| Throw (e : E).
Arguments Return {E A} a.
Arguments Throw {E A} e.

(** The text a value converts to.  [ToString] spells it out wherever the
    result does not depend on how a double is printed; the text of a number
    that is not a whole number of magnitude at most 2^53 (and of an array
    holding such a number) is kept as [StringOf], the conversion of that
    value. *)
Inductive Text : Type :=
| Chars (s : string)
| StringOf (v : Value).

(** The whole number of magnitude at most 2^53 that a finite number is, if it
    is one: its digits are exact. *)
Definition safe_integer (q : Q) : option Z :=
  let r := Qred q in
  if Pos.eqb (Qden r) 1 && (Z.abs (Qnum r) <=? 2 ^ 53)%Z then Some (Qnum r) else None.

Definition all_chars (texts : list Text) : option (list string) :=
  fold_right (fun text acc =>
                match text, acc with
                | Chars s, Some ss => Some (s :: ss)
                | _, _ => None
                end) (Some []) texts.

(** The conversions of the elements of an array, as [join] makes them:
    [null] and [undefined] give the empty string, and the first conversion
    that throws ends the whole. *)
Fixpoint elements (convert : Value -> Completion Error Text) (items : list Value)
  : Completion Error (list Text) :=
  match items with
  | [] => Return []
  | item :: rest =>
      match match item with
            | Undefined | Null => Return (Chars "")
            | _ => convert item
            end with
      | Throw e => Throw e
      | Return text =>
          match elements convert rest with
          | Throw e => Throw e
          | Return texts => Return (text :: texts)
          end
      end
  end.

(** ToString, as [String(v)], a template literal or an argument of type
    string applies it.  A plain object converts through
    [Object.prototype.toString]; an own property [toString], which is not
    callable in a parsed value, makes the conversion throw.  An array
    converts through [join]. *)
Fixpoint ToString (v : Value) : Completion Error Text :=
  match v with
  | Undefined => Return (Chars "undefined")
  | Null => Return (Chars "null")
  | Bool b => Return (Chars (if b then "true" else "false"))
  | Num NaN => Return (Chars "NaN")
  | Num (Infinity negative) =>
      Return (Chars (if negative then "-Infinity" else "Infinity"))
  | Num (Finite q) =>
      match safe_integer q with
      | Some z => Return (Chars (Z_toString z))
      | None => Return (StringOf v)
      end
  | Str s => Return (Chars s)
  | Arr items =>
      match elements ToString items with
      | Throw e => Throw e
      | Return texts =>
          match all_chars texts with
          | Some strings => Return (Chars (join "," strings))
          | None => Return (StringOf v)
          end
      end
  | Obj props =>
      match lookup "toString" props with
      | Some _ =>
          Throw (mkError TypeError "TypeError" "Cannot convert object to primitive value")
      | None => Return (Chars "[object Object]")
      end
  end.

(** [v.toString()]: the conversion again, except that the call on [null] or
    [undefined] throws. *)
Definition toString_method (v : Value) : Completion Error Text :=
  match v with
  | Undefined | Null =>
      Throw (mkError TypeError "TypeError" "Cannot read properties of null or undefined")
  | _ => ToString v
  end.

End Js.

Notation "v .[ k ]" := (Js.get v k) (at level 1, left associativity, format "v .[ k ]").

(* ================================================================== *)
(** ** lib/types.ts: value sets *)
(* ================================================================== *)

Definition ASPECT_RATIOS : list string := ["1:1"; "16:9"; "9:16"; "4:3"].

Definition RESOLUTIONS : list string :=
  ["512x512"; "1024x1024"; "1536x1536"; "2048x2048"].

Definition STYLES : list string := ["realistic"; "artistic"; "cartoon"; "abstract"].

Definition CONTENT_TYPES : list string := ["none"; "photo"; "art"].

Definition COLOR_TONES : list string :=
  ["none"; "black and white"; "cool tone"; "golden"; "monochromatic";
   "muted color"; "pastel color"; "toned image"].

Definition LIGHTING_OPTIONS : list string :=
  ["none"; "backlighting"; "dramatic light"; "long-time exposure";
   "low lighting"; "multiexposure"; "studio light"; "surreal lighting"].

Definition COMPOSITION_OPTIONS : list string :=
  ["none"; "closeup"; "knolling"; "landscape photography";
   "photographed through window"; "shallow depth of field"; "shot from above";
   "shot from below"; "surface details"; "wide angle"].

Definition NUM_IMAGES_OPTIONS : list Z := [1; 2; 3; 4]%Z.

Definition EDIT_MODES : list string :=
  ["EDIT_MODE_INPAINT_INSERTION"; "EDIT_MODE_INPAINT_REMOVAL";
   "EDIT_MODE_BGSWAP"; "EDIT_MODE_OUTPAINT"].

Definition MASK_MODES : list string :=
  ["foreground"; "background"; "semantic"; "prompt"].

(** [interface ValidationError]; [value] is [None] where the literal leaves
    the key out. *)
Record ValidationError : Type := mkValidationError {
  field : string;
  message : string;
  value : option Js.Value
}.

(** [errors.push(e)] *)
Definition push (errors : list ValidationError) (e : ValidationError)
  : list ValidationError := (errors ++ [e])%list.

(** The guard that opens every validator:
    [!request || typeof request !== 'object']. *)
Definition not_an_object (request : Js.Value) : bool :=
  negb (Js.truthy request) || negb (Js.typeof request =? "object").

(** The guard of a required string field:
    [!req.f || typeof req.f !== 'string']. *)
Definition not_a_string (v : Js.Value) : bool :=
  negb (Js.truthy v) || negb (Js.typeof v =? "string").

(* ================================================================== *)
(** ** lib/types.ts: request validators *)
(* ================================================================== *)

Definition validateImageGenerationRequest (request : Js.Value)
  : list ValidationError :=
  let errors : list ValidationError := [] in
  if not_an_object request then
    push errors (mkValidationError "request" "Request must be an object" None)
  else
  let req := request in
  (* Validate prompt *)
  let errors :=
    if not_a_string req.["prompt"] then
      push errors (mkValidationError "prompt" "Prompt must be a string"
                     (Some req.["prompt"]))
    else if (String.length (Js.trim (Js.as_string req.["prompt"])) =? 0)%nat then
      push errors (mkValidationError "prompt" "Prompt cannot be empty"
                     (Some req.["prompt"]))
    else if (2000 <? String.length (Js.as_string req.["prompt"]))%nat then
      push errors (mkValidationError "prompt"
                     "Prompt must be less than 2000 characters"
                     (Some req.["prompt"]))
    else errors in
  (* Validate ratio *)
  let errors :=
    if not_a_string req.["ratio"] then
      push errors (mkValidationError "ratio" "Aspect ratio must be a string"
                     (Some req.["ratio"]))
    else if negb (Js.includes ASPECT_RATIOS (Js.as_string req.["ratio"])) then
      push errors (mkValidationError "ratio"
                     ("Aspect ratio must be one of: " ++ Js.join ", " ASPECT_RATIOS)
                     (Some req.["ratio"]))
    else errors in
  (* Validate resolution *)
  let errors :=
    if not_a_string req.["resolution"] then
      push errors (mkValidationError "resolution" "Resolution must be a string"
                     (Some req.["resolution"]))
    else if negb (Js.includes RESOLUTIONS (Js.as_string req.["resolution"])) then
      push errors (mkValidationError "resolution"
                     ("Resolution must be one of: " ++ Js.join ", " RESOLUTIONS)
                     (Some req.["resolution"]))
    else errors in
  (* Validate style *)
  let errors :=
    if not_a_string req.["style"] then
      push errors (mkValidationError "style" "Style must be a string"
                     (Some req.["style"]))
    else if negb (Js.includes STYLES (Js.as_string req.["style"])) then
      push errors (mkValidationError "style"
                     ("Style must be one of: " ++ Js.join ", " STYLES)
                     (Some req.["style"]))
    else errors in
  (* Validate optional contentType *)
  let errors :=
    if negb (Js.is_undefined req.["contentType"]) then
      if negb (Js.typeof req.["contentType"] =? "string") then
        push errors (mkValidationError "contentType" "Content type must be a string"
                       (Some req.["contentType"]))
      else if negb (Js.includes CONTENT_TYPES (Js.as_string req.["contentType"])) then
        push errors (mkValidationError "contentType"
                       ("Content type must be one of: " ++ Js.join ", " CONTENT_TYPES)
                       (Some req.["contentType"]))
      else errors
    else errors in
  (* Validate optional colorTone *)
  let errors :=
    if negb (Js.is_undefined req.["colorTone"]) then
      if negb (Js.typeof req.["colorTone"] =? "string") then
        push errors (mkValidationError "colorTone" "Color tone must be a string"
                       (Some req.["colorTone"]))
      else if negb (Js.includes COLOR_TONES (Js.as_string req.["colorTone"])) then
        push errors (mkValidationError "colorTone"
                       ("Color tone must be one of: " ++ Js.join ", " COLOR_TONES)
                       (Some req.["colorTone"]))
      else errors
    else errors in
  (* Validate optional lighting *)
  let errors :=
    if negb (Js.is_undefined req.["lighting"]) then
      if negb (Js.typeof req.["lighting"] =? "string") then
        push errors (mkValidationError "lighting" "Lighting must be a string"
                       (Some req.["lighting"]))
      else if negb (Js.includes LIGHTING_OPTIONS (Js.as_string req.["lighting"])) then
        push errors (mkValidationError "lighting"
                       ("Lighting must be one of: " ++ Js.join ", " LIGHTING_OPTIONS)
                       (Some req.["lighting"]))
      else errors
    else errors in
  (* Validate optional composition *)
  let errors :=
    if negb (Js.is_undefined req.["composition"]) then
      if negb (Js.typeof req.["composition"] =? "string") then
        push errors (mkValidationError "composition" "Composition must be a string"
                       (Some req.["composition"]))
      else if negb (Js.includes COMPOSITION_OPTIONS (Js.as_string req.["composition"])) then
        push errors (mkValidationError "composition"
                       ("Composition must be one of: " ++ Js.join ", " COMPOSITION_OPTIONS)
                       (Some req.["composition"]))
      else errors
    else errors in
  (* Validate optional numImages *)
  let errors :=
    if negb (Js.is_undefined req.["numImages"]) then
      if negb (Js.typeof req.["numImages"] =? "number") then
        push errors (mkValidationError "numImages" "Number of images must be a number"
                       (Some req.["numImages"]))
      else if negb (Js.includes_num NUM_IMAGES_OPTIONS (Js.as_number req.["numImages"])) then
        push errors (mkValidationError "numImages"
                       ("Number of images must be one of: "
                        ++ Js.join ", " (map Js.Z_toString NUM_IMAGES_OPTIONS))
                       (Some req.["numImages"]))
      else errors
    else errors in
  errors.

Definition validatePromptRewriteRequest (request : Js.Value)
  : list ValidationError :=
  let errors : list ValidationError := [] in
  if not_an_object request then
    push errors (mkValidationError "request" "Request must be an object" None)
  else
  let req := request in
  (* Validate prompt *)
  let errors :=
    if not_a_string req.["prompt"] then
      push errors (mkValidationError "prompt" "Prompt must be a string"
                     (Some req.["prompt"]))
    else if (String.length (Js.trim (Js.as_string req.["prompt"])) =? 0)%nat then
      push errors (mkValidationError "prompt" "Prompt cannot be empty"
                     (Some req.["prompt"]))
    else if (2000 <? String.length (Js.as_string req.["prompt"]))%nat then
      push errors (mkValidationError "prompt"
                     "Prompt must be less than 2000 characters"
                     (Some req.["prompt"]))
    else errors in
  errors.

Definition validateImageEditRequest (request : Js.Value)
  : list ValidationError :=
  let errors : list ValidationError := [] in
  if not_an_object request then
    push errors (mkValidationError "request" "Request must be an object" None)
  else
  let req := request in
  (* Validate prompt *)
  let errors :=
    if not_a_string req.["prompt"] then
      push errors (mkValidationError "prompt" "Prompt must be a string"
                     (Some req.["prompt"]))
    else if (String.length (Js.trim (Js.as_string req.["prompt"])) =? 0)%nat then
      push errors (mkValidationError "prompt" "Prompt cannot be empty"
                     (Some req.["prompt"]))
    else if (2000 <? String.length (Js.as_string req.["prompt"]))%nat then
      push errors (mkValidationError "prompt"
                     "Prompt must be less than 2000 characters"
                     (Some req.["prompt"]))
    else errors in
  (* Validate editMode *)
  let errors :=
    if not_a_string req.["editMode"] then
      push errors (mkValidationError "editMode" "Edit mode must be a string"
                     (Some req.["editMode"]))
    else if negb (Js.includes EDIT_MODES (Js.as_string req.["editMode"])) then
      push errors (mkValidationError "editMode"
                     ("Edit mode must be one of: " ++ Js.join ", " EDIT_MODES)
                     (Some req.["editMode"]))
    else errors in
  (* Validate maskMode *)
  let errors :=
    if not_a_string req.["maskMode"] then
      push errors (mkValidationError "maskMode" "Mask mode must be a string"
                     (Some req.["maskMode"]))
    else if negb (Js.includes MASK_MODES (Js.as_string req.["maskMode"])) then
      push errors (mkValidationError "maskMode"
                     ("Mask mode must be one of: " ++ Js.join ", " MASK_MODES)
                     (Some req.["maskMode"]))
    else errors in
  (* Validate optional numImages *)
  let errors :=
    if negb (Js.is_undefined req.["numImages"]) then
      if negb (Js.typeof req.["numImages"] =? "number") then
        push errors (mkValidationError "numImages" "Number of images must be a number"
                       (Some req.["numImages"]))
      else if Js.lt (Js.as_number req.["numImages"]) (Js.of_Z 1)
              || Js.gt (Js.as_number req.["numImages"]) (Js.of_Z 4) then
        push errors (mkValidationError "numImages"
                       "Number of images must be between 1 and 4"
                       (Some req.["numImages"]))
      else errors
    else errors in
  errors.

(* ================================================================== *)
(** ** lib/types.ts: response validators *)
(* ================================================================== *)

(** [res.images.forEach((image, index) => ...)] *)
Fixpoint forEach_image (images : list Js.Value) (index : nat)
  (errors : list ValidationError) : list ValidationError :=
  match images with
  | [] => errors
  | image :: rest =>
      let errors :=
        if negb (Js.typeof image =? "string") then
          push errors (mkValidationError ("images[" ++ Js.nat_toString index ++ "]")
                         "Each image must be a string" (Some image))
        else if (String.length (Js.as_string image) =? 0)%nat then
          push errors (mkValidationError ("images[" ++ Js.nat_toString index ++ "]")
                         "Image string cannot be empty" (Some image))
        else errors in
      forEach_image rest (S index) errors
  end.

(** [res.f !== undefined && typeof res.f !== ty] pushes one error. *)
Definition optional_typed (res : Js.Value) (f ty msg : string)
  (errors : list ValidationError) : list ValidationError :=
  if negb (Js.is_undefined res.[f]) && negb (Js.typeof res.[f] =? ty) then
    push errors (mkValidationError f msg (Some res.[f]))
  else errors.

(** [res.success === false] and [res.success === true] *)
Definition is_false (v : Js.Value) : bool :=
  match v with Js.Bool false => true | _ => false end.

Definition is_true (v : Js.Value) : bool :=
  match v with Js.Bool true => true | _ => false end.

Definition validateImageGenerationResponse (response : Js.Value)
  : list ValidationError :=
  let errors : list ValidationError := [] in
  if not_an_object response then
    push errors (mkValidationError "response" "Response must be an object" None)
  else
  let res := response in
  (* Validate success field *)
  let errors :=
    if negb (Js.typeof res.["success"] =? "boolean") then
      push errors (mkValidationError "success" "Success field must be a boolean"
                     (Some res.["success"]))
    else errors in
  (* If it's an error response, validate error fields *)
  if is_false res.["success"] then
    if not_a_string res.["error"] then
      push errors (mkValidationError "error" "Error message must be a string"
                     (Some res.["error"]))
    else errors
  else
  (* If it's a success response, validate success fields *)
  if is_true res.["success"] then
    let errors :=
      match res.["images"] with
      | Js.Arr images => forEach_image images 0 errors
      | _ => push errors (mkValidationError "images" "Images must be an array"
                            (Some res.["images"]))
      end in
    let errors := optional_typed res "message" "string" "Message must be a string" errors in
    let errors := optional_typed res "requestId" "string" "Request ID must be a string" errors in
    let errors := optional_typed res "model_used" "string" "Model used must be a string" errors in
    let errors := optional_typed res "enhanced_prompt" "string"
                    "Enhanced prompt must be a string" errors in
    let errors := optional_typed res "expires_in_hours" "number"
                    "Expires in hours must be a number" errors in
    let errors := optional_typed res "brand_guidelines_applied" "boolean"
                    "Brand guidelines applied must be a boolean" errors in
    errors
  else errors.

(** [!res.f || typeof res.f !== 'string'] pushes one error. *)
Definition required_string (res : Js.Value) (f msg : string)
  (errors : list ValidationError) : list ValidationError :=
  if not_a_string res.[f] then push errors (mkValidationError f msg (Some res.[f]))
  else errors.

Definition validatePromptRewriteResponse (response : Js.Value)
  : list ValidationError :=
  let errors : list ValidationError := [] in
  if not_an_object response then
    push errors (mkValidationError "response" "Response must be an object" None)
  else
  let res := response in
  let errors :=
    if negb (Js.typeof res.["success"] =? "boolean") then
      push errors (mkValidationError "success" "Success field must be a boolean"
                     (Some res.["success"]))
    else errors in
  if is_false res.["success"] then
    if not_a_string res.["error"] then
      push errors (mkValidationError "error" "Error message must be a string"
                     (Some res.["error"]))
    else errors
  else
  if is_true res.["success"] then
    let errors := required_string res "original_prompt"
                    "Original prompt must be a string" errors in
    let errors := required_string res "enhanced_prompt"
                    "Enhanced prompt must be a string" errors in
    let errors := required_string res "message" "Message must be a string" errors in
    let errors := optional_typed res "warning" "string" "Warning must be a string" errors in
    errors
  else errors.

(* ================================================================== *)
(** ** lib/types.ts: request builders *)
(* ================================================================== *)

(** [`${e.field}: ${e.message}`] *)
Definition format_error (e : ValidationError) : string :=
  field e ++ ": " ++ message e.

(** [errors.map(e => `${e.field}: ${e.message}`).join(', ')] *)
Definition format_errors (errors : list ValidationError) : string :=
  Js.join ", " (map format_error errors).

(** [if (x && x !== "none") request.k = x] for an optional string parameter. *)
Definition set_filter (k : string) (x : option string)
  (request : list (string * Js.Value)) : list (string * Js.Value) :=
  match x with
  | Some s => if negb (s =? "") && negb (s =? "none")
              then Js.set k (Js.Str s) request else request
  | None => request
  end.

Definition createImageGenerationRequest
  (prompt ratio resolution style : string)
  (contentType colorTone lighting composition : option string)
  (numImages : option Js.Number) : Js.Completion Js.Error Js.Value :=
  let request := [("prompt", Js.Str prompt); ("ratio", Js.Str ratio);
                  ("resolution", Js.Str resolution); ("style", Js.Str style)] in
  (* Only include optional filters if they are provided and not "none" *)
  let request := set_filter "contentType" contentType request in
  let request := set_filter "colorTone" colorTone request in
  let request := set_filter "lighting" lighting request in
  let request := set_filter "composition" composition request in
  let request :=
    match numImages with
    | Some n => Js.set "numImages" (Js.Num n) request
    | None => request
    end in
  let errors := validateImageGenerationRequest (Js.Obj request) in
  if (0 <? List.length errors)%nat then
    Js.Throw (Js.new_Error ("Invalid request: " ++ format_errors errors))
  else Js.Return (Js.Obj request).

Definition createPromptRewriteRequest (prompt : string)
  : Js.Completion Js.Error Js.Value :=
  let request := Js.Obj [("prompt", Js.Str prompt)] in
  let errors := validatePromptRewriteRequest request in
  if (0 <? List.length errors)%nat then
    Js.Throw (Js.new_Error ("Invalid rewrite request: " ++ format_errors errors))
  else Js.Return request.

Definition createImageEditRequest (prompt editMode maskMode : string)
  (numImages : option Js.Number) : Js.Completion Js.Error Js.Value :=
  let request := [("prompt", Js.Str prompt); ("editMode", Js.Str editMode);
                  ("maskMode", Js.Str maskMode)] in
  let request :=
    match numImages with
    | Some n => Js.set "numImages" (Js.Num n) request
    | None => request
    end in
  let errors := validateImageEditRequest (Js.Obj request) in
  if (0 <? List.length errors)%nat then
    Js.Throw (Js.new_Error ("Invalid edit request: " ++ format_errors errors))
  else Js.Return (Js.Obj request).

(* ================================================================== *)
(** ** lib/api.ts: the typed service error *)
(* ================================================================== *)

(** What the code can find in a [catch] that is not an [ApiServiceError]. *)
Inductive Foreign : Type :=
| ForeignError (e : Js.Error)
| ForeignValue (v : Js.Value).

(** What is passed as [details]: a value, one of the object literals
    [{ request }], [{ response }], [{ originalError }],
    [{ parseError, originalResponse }], or a caught error itself. *)
Inductive Details : Type :=
| DetailsValue (v : Js.Value)
| DetailsRequest (request : Js.Value)
| DetailsResponse (response : Js.Value)
| DetailsOriginalError (originalError : Foreign)
| DetailsParseError (parseError : Foreign) (originalResponse : string)
| DetailsCaught (error : Foreign).

Module ApiServiceError.

(** [message] is what [super(message)] stores: the string conversion of the
    constructor's first argument, the empty string when that is [undefined].
    [code] is whatever value the caller passed, [undefined] when the argument
    is left out. *)
Record t : Type := mk {
  message : Js.Text;
  code : Js.Value;
  details : Details;
  validationErrors : option (list ValidationError)
}.

Definition name : string := "ApiServiceError".

Definition stored_message (message : Js.Value) : Js.Text :=
  match message with
  | Js.Undefined => Js.Chars ""
  | _ => match Js.ToString message with
         | Js.Return text => text
         | Js.Throw _ => Js.Chars ""
         end
  end.

(** The object [new ApiServiceError(message, code?, details?,
    validationErrors?)] builds when the call returns.  The call itself is
    [construct] below; where the message is a string, as at every call with
    a literal or a template, the call always returns and this is the whole
    of it. *)
Definition new (message : Js.Value) (code : option Js.Value)
  (details : option Details) (validationErrors : option (list ValidationError)) : t :=
  {| message := stored_message message;
     code := match code with Some c => c | None => Js.Undefined end;
     details := match details with Some d => d | None => DetailsValue Js.Undefined end;
     validationErrors := validationErrors |}.

(** The call itself for a message of type [any]: when the conversion of the
    message throws, so does the constructor, and no error object is built. *)
Definition construct (message : Js.Value) (code : option Js.Value)
  (details : option Details) (validationErrors : option (list ValidationError))
  : Js.Completion Js.Error t :=
  match message with
  | Js.Undefined => Js.Return (new message code details validationErrors)
  | _ => match Js.ToString message with
         | Js.Return _ => Js.Return (new message code details validationErrors)
         | Js.Throw e => Js.Throw e
         end
  end.

Definition isValidationError (this : t) : bool :=
  match code this, validationErrors this with
  | Js.Str c, Some _ => c =? "VALIDATION_ERROR"
  | _, _ => false
  end.

Definition getValidationMessages (this : t) : list string :=
  match validationErrors this with
  | None => []
  | Some errors => map format_error errors
  end.

End ApiServiceError.

(* ================================================================== *)
(** ** The browser around lib/api.ts *)
(* ================================================================== *)

Inductive Thrown : Type :=
| Service (e : ApiServiceError.t)
| Other (e : Foreign).

Record AbortSignal : Type := mkAbortSignal { aborted : bool }.

(** An entry of a [FormData]: a file, or the text its value converted to. *)
Inductive FormEntry : Type :=
| FormFile (file : Js.Value)
| FormText (text : Js.Text).

Definition FormData : Type := list (string * FormEntry).

(** The body of a request: the value given to [JSON.stringify], or a form. *)
Inductive Body : Type :=
| JsonBody (value : Js.Value)
| FormBody (formData : FormData).

Record Request : Type := mkRequest {
  request_url : string;
  request_method : option string;
  request_headers : list (string * string);
  request_body : option Body
}.

Record RequestInit : Type := mkRequestInit {
  method : option string;
  headers : list (string * string);
  body : option Body;
  signal : option AbortSignal
}.

Record Response : Type := mkResponse {
  status : nat;
  statusText : string;
  json_body : option Js.Value         (* [None]: the body is not JSON *)
}.

(** [response.ok] *)
Definition ok (response : Response) : bool :=
  (200 <=? status response)%nat && (status response <=? 299)%nat.

(** What the network does with a request that was really sent.  A timeout or
    a cancellation that fires while the request is in flight reaches the
    caller as the rejection [AbortedInFlight]. *)
Inductive FetchOutcome : Type :=
| Responds (response : Response)
| NetworkFailure
| AbortedInFlight.

Definition Network : Type := Request -> FetchOutcome.

(** The process-wide state the client reads and writes. *)
Record World : Type := mkWorld {
  cookies : list (string * string);       (* js-cookie jar *)
  navigations : list string;              (* assignments to window.location.href *)
  requests : list Request;                (* requests put on the wire, in order *)
  timers : list nat;                      (* pending setTimeout ids *)
  next_timer : nat
}.

(** State and exceptions. *)
Definition M (A : Type) : Type := World -> Js.Completion Thrown A * World.

Definition ret {A : Type} (a : A) : M A := fun w => (Js.Return a, w).

Definition throw {A : Type} (e : Thrown) : M A := fun w => (Js.Throw e, w).

Definition bind {A B : Type} (m : M A) (k : A -> M B) : M B :=
  fun w =>
    match m w with
    | (Js.Return a, w') => k a w'
    | (Js.Throw e, w') => (Js.Throw e, w')
    end.

(** [try { body } catch (error) { handler }] *)
Definition try_catch {A : Type} (body : M A) (handler : Thrown -> M A) : M A :=
  fun w =>
    match body w with
    | (Js.Return a, w') => (Js.Return a, w')
    | (Js.Throw e, w') => handler e w'
    end.

Notation "x <~ m ;; k" := (bind m (fun x => k))
  (at level 61, m at next level, right associativity).
Notation "m ;; k" := (bind m (fun _ => k))
  (at level 61, right associativity).

(** [throw new ApiServiceError(message, code, ...)] with a message of type
    [any]: an error thrown by the conversion of the message takes the place
    of the service error. *)
Definition throw_new {A : Type} (message : Js.Value) (code : option Js.Value)
  (details : option Details) (validationErrors : option (list ValidationError)) : M A :=
  match ApiServiceError.construct message code details validationErrors with
  | Js.Return e => throw (Service e)
  | Js.Throw e => throw (Other (ForeignError e))
  end.

Module Cookies.

Definition get (name : string) : M (option string) :=
  fun w => (Js.Return (Js.lookup name (cookies w)), w).

Definition remove (name : string) : M unit :=
  fun w => (Js.Return tt,
            {| cookies := filter (fun kv => negb (fst kv =? name)) (cookies w);
               navigations := navigations w;
               requests := requests w;
               timers := timers w;
               next_timer := next_timer w |}).

End Cookies.

(** [window.location.href = url] *)
Definition set_location_href (url : string) : M unit :=
  fun w => (Js.Return tt,
            {| cookies := cookies w;
               navigations := navigations w ++ [url];
               requests := requests w;
               timers := timers w;
               next_timer := next_timer w |}).

(** [setTimeout(callback, ms)]; the callback of every timer in this file
    aborts the request, which the network reports as [AbortedInFlight]. *)
Definition setTimeout (ms : N) : M nat :=
  fun w => (Js.Return (next_timer w),
            {| cookies := cookies w;
               navigations := navigations w;
               requests := requests w;
               timers := timers w ++ [next_timer w];
               next_timer := S (next_timer w) |}).

Definition clearTimeout (id : nat) : M unit :=
  fun w => (Js.Return tt,
            {| cookies := cookies w;
               navigations := navigations w;
               requests := requests w;
               timers := filter (fun t => negb (t =? id)%nat) (timers w);
               next_timer := next_timer w |}).

Definition AbortError : Js.Error :=
  Js.mkError Js.DOMException "AbortError" "The operation was aborted.".

Definition FetchFailed : Js.Error :=
  Js.mkError Js.TypeError "TypeError" "Failed to fetch".

Definition JsonSyntaxError : Js.Error :=
  Js.mkError Js.SyntaxError "SyntaxError" "Unexpected token in JSON".

Module API_CONFIG.
Definition BASE_URL : string := "http://ceatapi.demodevelopment.com".
Module ENDPOINTS.
Definition IMAGE_GENERATION : string := "/api/image/generate".
Definition PROMPT_REWRITE : string := "/api/rewrite".
Definition IMAGE_EDIT : string := "/api/image/edit".
Definition IMAGE_DOWNLOAD : string := "/api/image/download".
End ENDPOINTS.
Definition TIMEOUT : N := 30000.
Definition HEADERS : list (string * string) := [("Content-Type", "application/json")].
End API_CONFIG.

(** [response.json()] *)
Definition json (response : Response) : Js.Completion Js.Error Js.Value :=
  match json_body response with
  | Some v => Js.Return v
  | None => Js.Throw JsonSyntaxError
  end.

(** A completion of a built-in, continued in the monad. *)
Definition await {A : Type} (c : Js.Completion Js.Error A) : M A :=
  match c with
  | Js.Return a => ret a
  | Js.Throw e => throw (Other (ForeignError e))
  end.

Section Client.

Variable network : Network.

(** [fetch(url, init)]: a signal that is already aborted rejects the call
    before anything is sent. *)
Definition fetch (url : string) (init : RequestInit) : M Response :=
  fun w =>
    if match signal init with Some s => aborted s | None => false end then
      (Js.Throw (Other (ForeignError AbortError)), w)
    else
      let rq := mkRequest url (method init) (headers init) (body init) in
      let w' := {| cookies := cookies w;
                   navigations := navigations w;
                   requests := requests w ++ [rq];
                   timers := timers w;
                   next_timer := next_timer w |} in
      match network rq with
      | Responds r => (Js.Return r, w')
      | NetworkFailure => (Js.Throw (Other (ForeignError FetchFailed)), w')
      | AbortedInFlight => (Js.Throw (Other (ForeignError AbortError)), w')
      end.

(* ================================================================== *)
(** ** lib/api.ts *)
(* ================================================================== *)

Definition getAuthHeaders : M (list (string * string)) :=
  token <~ Cookies.get "auth_token" ;;
  let headers := API_CONFIG.HEADERS in
  let headers :=
    match token with
    | Some t => if negb (t =? "") then Js.set "Authorization" ("Bearer " ++ t)%string headers
                else headers
    | None => headers
    end in
  ret headers.

Definition handleAuthError : M unit :=
  Cookies.remove "auth_token" ;;
  set_location_href "/".

Definition authenticatedFetch (url : string) (options : RequestInit) : M Response :=
  authHeaders <~ getAuthHeaders ;;
  response <~ fetch url (mkRequestInit (method options)
                           (Js.spread authHeaders (headers options))
                           (body options) (signal options)) ;;
  (* Handle authentication errors *)
  if (status response =? 401)%nat then
    handleAuthError ;;
    throw (Service (ApiServiceError.new (Js.Str "Authentication required")
                      (Some (Js.Str "HTTP_401")) None None))
  else ret response.

Record ImageGenerationAPI : Type := mkImageGenerationAPI {
  baseUrl : string;
  timeout : N
}.

Definition validateRequest (request : Js.Value) : M unit :=
  let validationErrors := validateImageGenerationRequest request in
  if (0 <? List.length validationErrors)%nat then
    let errorMessage := "Request validation failed: " ++ format_errors validationErrors in
    throw (Service (ApiServiceError.new (Js.Str errorMessage)
                      (Some (Js.Str "VALIDATION_ERROR"))
                      (Some (DetailsRequest request))
                      (Some validationErrors)))
  else ret tt.

Definition validCodes : list string :=
  ["NETWORK_ERROR"; "REQUEST_CANCELLED";
   "HTTP_400"; "HTTP_401"; "HTTP_403"; "HTTP_404"; "HTTP_429";
   "HTTP_500"; "HTTP_502"; "HTTP_503"; "HTTP_504";
   "INVALID_PROMPT"; "INVALID_RATIO"; "INVALID_RESOLUTION"; "INVALID_STYLE";
   "PARSE_ERROR"; "INVALID_RESPONSE"; "API_ERROR"; "UNKNOWN_ERROR"; "VALIDATION_ERROR"].

Definition handleHttpError (response : Response) : M unit :=
  let errorMessage := "HTTP " ++ Js.nat_toString (status response) ++ ": "
                      ++ statusText response in
  let errorCode := "HTTP_" ++ Js.nat_toString (status response) in
  match json response with
  | Js.Return errorData =>
      if Js.truthy errorData && (Js.typeof errorData =? "object") then
        let errorMessage :=
          if Js.has "error" errorData && (Js.typeof errorData.["error"] =? "string")
          then Js.as_string errorData.["error"] else errorMessage in
        let errorCode :=
          if Js.has "code" errorData && (Js.typeof errorData.["code"] =? "string") then
            if Js.includes validCodes (Js.as_string errorData.["code"])
            then Js.as_string errorData.["code"] else errorCode
          else errorCode in
        throw (Service (ApiServiceError.new (Js.Str errorMessage) (Some (Js.Str errorCode))
                          (Some (DetailsValue errorData)) None))
      else
        throw (Service (ApiServiceError.new (Js.Str errorMessage) (Some (Js.Str errorCode))
                          None None))
  | Js.Throw parseError =>
      (* If parsing fails, include parse error in details *)
      throw (Service (ApiServiceError.new (Js.Str errorMessage) (Some (Js.Str errorCode))
                        (Some (DetailsParseError (ForeignError parseError)
                                 (statusText response)))
                        None))
  end.

Definition parseResponse (response : Response) : M Js.Value :=
  match json response with
  | Js.Return data => ret data
  | Js.Throw error =>
      throw (Service (ApiServiceError.new (Js.Str "Failed to parse response as JSON")
                        (Some (Js.Str "PARSE_ERROR"))
                        (Some (DetailsOriginalError (ForeignError error))) None))
  end.

(** [isApiError(response)]: [!response.success] *)
Definition isApiError (response : Js.Value) : bool :=
  negb (Js.truthy response.["success"]).

(** [isSuccessResponse(response)]: [response.success === true] *)
Definition isSuccessResponse (response : Js.Value) : bool :=
  is_true response.["success"].

Definition validateResponse (data : Js.Value) : M unit :=
  let validationErrors := validateImageGenerationResponse data in
  if (0 <? List.length validationErrors)%nat then
    let errorMessage := "Response validation failed: " ++ format_errors validationErrors in
    throw (Service (ApiServiceError.new (Js.Str errorMessage)
                      (Some (Js.Str "INVALID_RESPONSE"))
                      (Some (DetailsResponse data))
                      (Some validationErrors)))
  else
  (* If it's an API error response, throw it as an ApiServiceError *)
  if isApiError data then
    throw_new
      (Js.or data.["error"] (Js.Str "Unknown API error"))
      (Some (Js.or data.["code"] (Js.Str "API_ERROR")))
      (Some (DetailsValue data.["details"])) None
  else ret tt.

Definition validateRewriteRequest (request : Js.Value) : M unit :=
  let validationErrors := validatePromptRewriteRequest request in
  if (0 <? List.length validationErrors)%nat then
    let errorMessage := "Rewrite request validation failed: "
                        ++ format_errors validationErrors in
    throw (Service (ApiServiceError.new (Js.Str errorMessage)
                      (Some (Js.Str "VALIDATION_ERROR"))
                      (Some (DetailsRequest request))
                      (Some validationErrors)))
  else ret tt.

Definition validateRewriteResponse (data : Js.Value) : M unit :=
  let validationErrors := validatePromptRewriteResponse data in
  if (0 <? List.length validationErrors)%nat then
    let errorMessage := "Rewrite response validation failed: "
                        ++ format_errors validationErrors in
    throw (Service (ApiServiceError.new (Js.Str errorMessage)
                      (Some (Js.Str "INVALID_RESPONSE"))
                      (Some (DetailsResponse data))
                      (Some validationErrors)))
  else
  let response := data in
  if Js.truthy response && (Js.typeof response =? "object")
     && is_false response.["success"] then
    throw_new
      (Js.or response.["error"] (Js.Str "Unknown API error"))
      (Some (Js.or response.["code"] (Js.Str "API_ERROR")))
      (Some (DetailsValue response.["details"])) None
  else ret tt.

Definition handleApiError (error : Thrown) : ApiServiceError.t :=
  match error with
  (* If already an ApiServiceError, return as-is *)
  | Service e => e
  | Other (ForeignError e) =>
      (* Handle AbortError (request cancellation/timeout) *)
      if Js.error_name e =? "AbortError" then
        ApiServiceError.new (Js.Str "Request was cancelled or timed out")
          (Some (Js.Str "REQUEST_CANCELLED"))
          (Some (DetailsOriginalError (ForeignError e))) None
      else
      (* Handle TypeError (network errors, CORS, etc.) *)
      match Js.error_class e with
      | Js.TypeError =>
          ApiServiceError.new (Js.Str "Network error: Unable to connect to the server")
            (Some (Js.Str "NETWORK_ERROR"))
            (Some (DetailsOriginalError (ForeignError e))) None
      | _ =>
          (* Handle other Error instances *)
          ApiServiceError.new (Js.Str ("Unexpected error: " ++ Js.error_message e))
            (Some (Js.Str "UNKNOWN_ERROR"))
            (Some (DetailsOriginalError (ForeignError e))) None
      end
  | Other (ForeignValue v) =>
      (* Handle non-Error objects *)
      ApiServiceError.new (Js.Str "An unknown error occurred")
        (Some (Js.Str "UNKNOWN_ERROR"))
        (Some (DetailsOriginalError (ForeignValue v))) None
  end.

(** [ImageGenerationAPI.prototype.generateImages] *)
Definition generateImages_method (this : ImageGenerationAPI)
  (request : Js.Value) (signal : option AbortSignal) : M Js.Value :=
  (* Validate input parameters *)
  validateRequest request ;;
  (* new AbortController(); setTimeout(() => controller.abort(), this.timeout) *)
  let controller_signal := mkAbortSignal false in
  timeoutId <~ setTimeout (timeout this) ;;
  effectiveSignal <~
    match signal with
    | Some signal =>
        if aborted signal then
          clearTimeout timeoutId ;;
          throw (Other (ForeignError (Js.new_Error "Request was already cancelled")))
        else ret signal
    | None => ret controller_signal
    end ;;
  try_catch
    (let url := baseUrl this ++ API_CONFIG.ENDPOINTS.IMAGE_GENERATION in
     response <~ authenticatedFetch url
                   (mkRequestInit (Some "POST") [] (Some (JsonBody request)) (Some effectiveSignal)) ;;
     (* Clear timeout if request completes successfully *)
     clearTimeout timeoutId ;;
     (* Handle HTTP errors *)
     (if negb (ok response) then handleHttpError response else ret tt) ;;
     (* Parse and validate response *)
     data <~ parseResponse response ;;
     (* Validate response structure *)
     validateResponse data ;;
     ret data)
    (fun error =>
       (* Always clear timeout on any error *)
       clearTimeout timeoutId ;;
       throw (Service (handleApiError error))).

(** [ImageGenerationAPI.prototype.rewritePrompt] *)
Definition rewritePrompt_method (this : ImageGenerationAPI)
  (request : Js.Value) (signal : option AbortSignal) : M Js.Value :=
  validateRewriteRequest request ;;
  let controller_signal := mkAbortSignal false in
  timeoutId <~ setTimeout (timeout this) ;;
  effectiveSignal <~
    match signal with
    | Some signal =>
        if aborted signal then
          clearTimeout timeoutId ;;
          throw (Other (ForeignError (Js.new_Error "Request was already cancelled")))
        else ret signal
    | None => ret controller_signal
    end ;;
  try_catch
    (let url := baseUrl this ++ API_CONFIG.ENDPOINTS.PROMPT_REWRITE in
     response <~ authenticatedFetch url
                   (mkRequestInit (Some "POST") [] (Some (JsonBody request)) (Some effectiveSignal)) ;;
     clearTimeout timeoutId ;;
     (if negb (ok response) then handleHttpError response else ret tt) ;;
     data <~ parseResponse response ;;
     validateRewriteResponse data ;;
     ret data)
    (fun error =>
       clearTimeout timeoutId ;;
       throw (Service (handleApiError error))).

(** [new ImageGenerationAPI()] with the default base URL and timeout. *)
Definition imageGenerationAPI : ImageGenerationAPI :=
  mkImageGenerationAPI API_CONFIG.BASE_URL API_CONFIG.TIMEOUT.

Definition generateImages (request : Js.Value) (signal : option AbortSignal)
  : M Js.Value :=
  generateImages_method imageGenerationAPI request signal.

Definition rewritePrompt (request : Js.Value) (signal : option AbortSignal)
  : M Js.Value :=
  rewritePrompt_method imageGenerationAPI request signal.

(** [errorData.k] on an [any]: a read on [null] or [undefined] throws. *)
Definition member (v : Js.Value) (k : string) : M Js.Value :=
  match v with
  | Js.Undefined | Js.Null =>
      throw (Other (ForeignError
                      (Js.mkError Js.TypeError "TypeError"
                         "Cannot read properties of null or undefined")))
  | _ => ret v.[k]
  end.

(** [await response.json().catch(() => ({}))] *)
Definition json_or_empty (response : Response) : Js.Value :=
  match json response with
  | Js.Return errorData => errorData
  | Js.Throw _ => Js.Obj []
  end.

Definition generateVideo (request : Js.Value) (signal : option AbortSignal)
  : M Js.Value :=
  let url := API_CONFIG.BASE_URL ++ "/api/video/generate" in
  try_catch
    (response <~ authenticatedFetch url
                   (mkRequestInit (Some "POST") [] (Some (JsonBody request)) signal) ;;
     (if negb (ok response) then
        let errorData := json_or_empty response in
        error <~ member errorData "error" ;;
        code <~ member errorData "code" ;;
        throw_new
          (Js.or error
             (Js.Str ("Video generation failed: "
                      ++ Js.nat_toString (status response))))
          (Some (Js.or code (Js.Str "GENERATION_ERROR")))
          None None
      else ret tt) ;;
     data <~ await (json response) ;;
     ret data)
    (fun error =>
       match error with
       | Service e => throw (Service e)
       | Other e =>
           throw (Service (ApiServiceError.new (Js.Str "Failed to generate video")
                             (Some (Js.Str "NETWORK_ERROR"))
                             (Some (DetailsOriginalError e)) None))
       end).

(** The clients of the other endpoints: brand guidelines, history items,
    prompts, uploads and buckets.  Each sends one request through
    [authenticatedFetch] and hands back the parsed body. *)

(** [getBrandGuidelines(signal)] *)
Definition getBrandGuidelines (signal : option AbortSignal)
  : M Js.Value :=
  let url := API_CONFIG.BASE_URL ++ "/api/brand-guidelines" in
  try_catch
    (response <~ authenticatedFetch url
                   (mkRequestInit (Some "GET") [] None signal) ;;
     (if negb (ok response) then
        let errorData := json_or_empty response in
        error <~ member errorData "error" ;;
        code <~ member errorData "code" ;;
        throw_new
          (Js.or error
             (Js.Str ("Failed to fetch brand guidelines: "
                      ++ Js.nat_toString (status response))))
          (Some (Js.or code (Js.Str "FETCH_ERROR")))
          None None
      else ret tt) ;;
     data <~ await (json response) ;;
     ret data)
    (fun error =>
       match error with
       | Service e => throw (Service e)
       | Other e =>
           throw (Service (ApiServiceError.new (Js.Str "Failed to fetch brand guidelines")
                             (Some (Js.Str "NETWORK_ERROR"))
                             (Some (DetailsOriginalError e)) None))
       end).

(** [updateBrandGuidelines(request, signal)] *)
Definition updateBrandGuidelines (request : Js.Value) (signal : option AbortSignal)
  : M Js.Value :=
  let url := API_CONFIG.BASE_URL ++ "/api/brand-guidelines" in
  try_catch
    (response <~ authenticatedFetch url
                   (mkRequestInit (Some "POST") [] (Some (JsonBody request)) signal) ;;
     (if negb (ok response) then
        let errorData := json_or_empty response in
        error <~ member errorData "error" ;;
        code <~ member errorData "code" ;;
        throw_new
          (Js.or error
             (Js.Str ("Failed to update brand guidelines: "
                      ++ Js.nat_toString (status response))))
          (Some (Js.or code (Js.Str "UPDATE_ERROR")))
          None None
      else ret tt) ;;
     data <~ await (json response) ;;
     ret data)
    (fun error =>
       match error with
       | Service e => throw (Service e)
       | Other e =>
           throw (Service (ApiServiceError.new (Js.Str "Failed to update brand guidelines")
                             (Some (Js.Str "NETWORK_ERROR"))
                             (Some (DetailsOriginalError e)) None))
       end).

(** [getHistoryItem(itemId, signal)] *)
Definition getHistoryItem (itemId : string) (signal : option AbortSignal)
  : M Js.Value :=
  let url := API_CONFIG.BASE_URL ++ "/api/history/" ++ itemId in
  try_catch
    (response <~ authenticatedFetch url
                   (mkRequestInit (Some "GET") [] None signal) ;;
     (if negb (ok response) then
        let errorData := json_or_empty response in
        error <~ member errorData "error" ;;
        code <~ member errorData "code" ;;
        throw_new
          (Js.or error
             (Js.Str ("Failed to fetch history item: "
                      ++ Js.nat_toString (status response))))
          (Some (Js.or code (Js.Str "FETCH_ERROR")))
          None None
      else ret tt) ;;
     data <~ await (json response) ;;
     ret data)
    (fun error =>
       match error with
       | Service e => throw (Service e)
       | Other e =>
           throw (Service (ApiServiceError.new (Js.Str "Failed to fetch history item")
                             (Some (Js.Str "NETWORK_ERROR"))
                             (Some (DetailsOriginalError e)) None))
       end).

(** [deleteHistoryItem(itemId, signal)] *)
Definition deleteHistoryItem (itemId : string) (signal : option AbortSignal)
  : M Js.Value :=
  let url := API_CONFIG.BASE_URL ++ "/api/history/" ++ itemId in
  try_catch
    (response <~ authenticatedFetch url
                   (mkRequestInit (Some "DELETE") [] None signal) ;;
     (if negb (ok response) then
        let errorData := json_or_empty response in
        error <~ member errorData "error" ;;
        code <~ member errorData "code" ;;
        throw_new
          (Js.or error
             (Js.Str ("Failed to delete history item: "
                      ++ Js.nat_toString (status response))))
          (Some (Js.or code (Js.Str "DELETE_ERROR")))
          None None
      else ret tt) ;;
     data <~ await (json response) ;;
     ret data)
    (fun error =>
       match error with
       | Service e => throw (Service e)
       | Other e =>
           throw (Service (ApiServiceError.new (Js.Str "Failed to delete history item")
                             (Some (Js.Str "NETWORK_ERROR"))
                             (Some (DetailsOriginalError e)) None))
       end).

(** [enhancePrompt(request, signal)] *)
Definition enhancePrompt (request : Js.Value) (signal : option AbortSignal)
  : M Js.Value :=
  let url := API_CONFIG.BASE_URL ++ "/api/prompts/enhance" in
  try_catch
    (response <~ authenticatedFetch url
                   (mkRequestInit (Some "POST") [] (Some (JsonBody request)) signal) ;;
     (if negb (ok response) then
        let errorData := json_or_empty response in
        error <~ member errorData "error" ;;
        code <~ member errorData "code" ;;
        throw_new
          (Js.or error
             (Js.Str ("Prompt enhancement failed: "
                      ++ Js.nat_toString (status response))))
          (Some (Js.or code (Js.Str "ENHANCEMENT_ERROR")))
          None None
      else ret tt) ;;
     data <~ await (json response) ;;
     ret data)
    (fun error =>
       match error with
       | Service e => throw (Service e)
       | Other e =>
           throw (Service (ApiServiceError.new (Js.Str "Failed to enhance prompt")
                             (Some (Js.Str "NETWORK_ERROR"))
                             (Some (DetailsOriginalError e)) None))
       end).

(** [generatePrompt(request, signal)] *)
Definition generatePrompt (request : Js.Value) (signal : option AbortSignal)
  : M Js.Value :=
  let url := API_CONFIG.BASE_URL ++ "/api/prompts/generate" in
  try_catch
    (response <~ authenticatedFetch url
                   (mkRequestInit (Some "POST") [] (Some (JsonBody request)) signal) ;;
     (if negb (ok response) then
        let errorData := json_or_empty response in
        error <~ member errorData "error" ;;
        code <~ member errorData "code" ;;
        throw_new
          (Js.or error
             (Js.Str ("Prompt generation failed: "
                      ++ Js.nat_toString (status response))))
          (Some (Js.or code (Js.Str "GENERATION_ERROR")))
          None None
      else ret tt) ;;
     data <~ await (json response) ;;
     ret data)
    (fun error =>
       match error with
       | Service e => throw (Service e)
       | Other e =>
           throw (Service (ApiServiceError.new (Js.Str "Failed to generate prompt")
                             (Some (Js.Str "NETWORK_ERROR"))
                             (Some (DetailsOriginalError e)) None))
       end).

(** [generateSignedUrl(request, signal)] *)
Definition generateSignedUrl (request : Js.Value) (signal : option AbortSignal)
  : M Js.Value :=
  let url := API_CONFIG.BASE_URL ++ "/api/uploads/generate-signed-url" in
  try_catch
    (response <~ authenticatedFetch url
                   (mkRequestInit (Some "POST") [] (Some (JsonBody request)) signal) ;;
     (if negb (ok response) then
        let errorData := json_or_empty response in
        error <~ member errorData "error" ;;
        code <~ member errorData "code" ;;
        throw_new
          (Js.or error
             (Js.Str ("Failed to generate signed URL: "
                      ++ Js.nat_toString (status response))))
          (Some (Js.or code (Js.Str "UPLOAD_ERROR")))
          None None
      else ret tt) ;;
     data <~ await (json response) ;;
     ret data)
    (fun error =>
       match error with
       | Service e => throw (Service e)
       | Other e =>
           throw (Service (ApiServiceError.new (Js.Str "Failed to generate signed URL")
                             (Some (Js.Str "NETWORK_ERROR"))
                             (Some (DetailsOriginalError e)) None))
       end).

(** [listBuckets(signal)] *)
Definition listBuckets (signal : option AbortSignal)
  : M Js.Value :=
  let url := API_CONFIG.BASE_URL ++ "/api/buckets/list" in
  try_catch
    (response <~ authenticatedFetch url
                   (mkRequestInit (Some "GET") [] None signal) ;;
     (if negb (ok response) then
        let errorData := json_or_empty response in
        error <~ member errorData "error" ;;
        code <~ member errorData "code" ;;
        throw_new
          (Js.or error
             (Js.Str ("Failed to list buckets: "
                      ++ Js.nat_toString (status response))))
          (Some (Js.or code (Js.Str "FETCH_ERROR")))
          None None
      else ret tt) ;;
     data <~ await (json response) ;;
     ret data)
    (fun error =>
       match error with
       | Service e => throw (Service e)
       | Other e =>
           throw (Service (ApiServiceError.new (Js.Str "Failed to list buckets")
                             (Some (Js.Str "NETWORK_ERROR"))
                             (Some (DetailsOriginalError e)) None))
       end).

(** [formData.append(name, file)] *)
Definition append_file (formData : FormData) (name : string) (file : Js.Value)
  : FormData :=
  (formData ++ [(name, FormFile file)])%list.

(** [formData.append(name, text)] *)
Definition append_text (formData : FormData) (name : string) (text : Js.Text)
  : FormData :=
  (formData ++ [(name, FormText text)])%list.

(** [formData.append(name, value)] for a value that is not a file: the value
    is converted to a string, which can throw. *)
Definition append_value (formData : FormData) (name : string) (value : Js.Value)
  : Js.Completion Js.Error FormData :=
  match Js.ToString value with
  | Js.Return text => Js.Return (append_text formData name text)
  | Js.Throw e => Js.Throw e
  end.

(** [editImage(imageFile, request, signal)]; [imageFile] stands for the
    [File].  The request is read as an [any]: a read on [null] or
    [undefined] throws before anything is sent. *)
Definition editImage (imageFile request : Js.Value) (signal : option AbortSignal)
  : M Js.Value :=
  let url := API_CONFIG.BASE_URL ++ API_CONFIG.ENDPOINTS.IMAGE_EDIT in
  (* Create FormData for file upload *)
  let formData := append_file [] "image" imageFile in
  prompt <~ member request "prompt" ;;
  formData <~ await (append_value formData "prompt" prompt) ;;
  editMode <~ member request "editMode" ;;
  formData <~ await (append_value formData "editMode" editMode) ;;
  maskMode <~ member request "maskMode" ;;
  formData <~ await (append_value formData "maskMode" maskMode) ;;
  numImages <~ member request "numImages" ;;
  formData <~ (if negb (Js.is_undefined numImages) then
                 text <~ await (Js.toString_method numImages) ;;
                 ret (append_text formData "numImages" text)
               else ret formData) ;;
  (* For FormData, we need to handle headers differently *)
  token <~ Cookies.get "auth_token" ;;
  let headers :=
    match token with
    | Some t => if negb (t =? "") then Js.set "Authorization" ("Bearer " ++ t)%string []
                else []
    | None => []
    end in
  response <~ fetch url (mkRequestInit (Some "POST") headers
                           (Some (FormBody formData)) signal) ;;
  (* Handle authentication errors *)
  if (status response =? 401)%nat then
    handleAuthError ;;
    throw (Service (ApiServiceError.new (Js.Str "Authentication required")
                      (Some (Js.Str "HTTP_401")) None None))
  else
    (if negb (ok response) then
       let errorData := json_or_empty response in
       error <~ member errorData "error" ;;
       code <~ member errorData "code" ;;
       throw_new
         (Js.or error
            (Js.Str ("Edit failed: "
                     ++ Js.nat_toString (status response))))
         (Some (Js.or code (Js.Str "EDIT_ERROR")))
         None None
     else ret tt) ;;
    data <~ await (json response) ;;
    success <~ member data "success" ;;
    if negb (Js.truthy success) then
      error <~ member data "error" ;;
      code <~ member data "code" ;;
      throw_new
        (Js.or error (Js.Str "Edit failed"))
        (Some (Js.or code (Js.Str "EDIT_ERROR")))
        None None
    else ret data.

(** The video workflow client, which shares [ApiServiceError] but calls
    [fetch] directly. *)
Definition API_BASE_URL : string := "http://ceatapi.demodevelopment.com/api".

(** [uploadFileViaProxy(file)]; [file] stands for the [File]. *)
Definition uploadFileViaProxy (file : Js.Value) : M Js.Value :=
  let formData := append_file [] "file" file in
  try_catch
    (response <~ fetch (API_BASE_URL ++ "/uploads/proxy-upload")
                   (mkRequestInit (Some "POST") [] (Some (FormBody formData)) None) ;;
     responseData <~ await (json response) ;;
     (if negb (ok response) then
        message <~ member responseData "message" ;;
        throw_new
          (Js.or message (Js.Str "Proxy upload failed."))
          None None None
      else ret tt) ;;
     member responseData "data")
    (fun error =>
       match error with
       | Service e => throw (Service e)
       | Other e =>
           throw (Service (ApiServiceError.new
                             (Js.Str "File upload failed due to a network error.")
                             (Some (Js.Str "NETWORK_ERROR"))
                             (Some (DetailsCaught e)) None))
       end).

End Client.

(* ================================================================== *)
(** ** More of the string methods *)
(* ================================================================== *)

Module JsText.

(** [String.prototype.startsWith] *)
Fixpoint startsWith (s p : string) {struct p} : bool :=
  match p, s with
  | EmptyString, _ => true
  | String c p', String d s' => Ascii.eqb c d && startsWith s' p'
  | String _ _, EmptyString => false
  end.

(** [String.prototype.includes] *)
Fixpoint includes (s sub : string) {struct s} : bool :=
  startsWith s sub
  || match s with
     | EmptyString => false
     | String _ s' => includes s' sub
     end.

(** [s.replace(/\s+/g, ' ')]: every maximal run of white space becomes one
    space; [in_run] says that the previous character was white space. *)
Fixpoint replace_runs (in_run : bool) (s : string) : string :=
  match s with
  | EmptyString => EmptyString
  | String c s' =>
      if Js.is_whitespace c
      then (if in_run then replace_runs true s' else String " " (replace_runs true s'))
      else String c (replace_runs false s')
  end.

Definition normalize_whitespace (s : string) : string := replace_runs false s.

Definition is_digit (c : ascii) : bool :=
  let n := nat_of_ascii c in (48 <=? n)%nat && (n <=? 57)%nat.

(** The value of the longest prefix of decimal digits, if there is a digit. *)
Fixpoint digits (acc : option Z) (s : string) : option Z :=
  match s with
  | String c s' =>
      if is_digit c
      then digits (Some (10 * match acc with Some a => a | None => 0 end
                         + (Z.of_nat (nat_of_ascii c) - 48))%Z) s'
      else acc
  | EmptyString => acc
  end.

(** [parseInt(s, 10)]: leading white space, a sign, then the digits; the
    value is kept exact, where JavaScript rounds beyond 2^53. *)
Definition parseInt (s : string) : Js.Number :=
  let s := Js.trimStart s in
  let negative := match s with String "-" _ => true | _ => false end in
  let s := match s with
           | String "-" s' => s'
           | String "+" s' => s'
           | _ => s
           end in
  match digits None s with
  | Some z => Js.of_Z (if negative then - z else z)
  | None => Js.NaN
  end.

End JsText.

(* ================================================================== *)
(** ** middleware.ts: the route guard *)
(* ================================================================== *)

Module Middleware.

(** What the guard reads of a [NextRequest]: the value of the [auth_token]
    cookie, if there is one, and the path of the address. *)
Record NextRequest : Type := mkNextRequest {
  auth_token : option string;
  pathname : string
}.

(** [NextResponse.redirect(new URL(path, request.url))], given by the path
    it is resolved from, and [NextResponse.next()]. *)
Inductive NextResponse : Type :=
| redirect (path : string)
| next.

Definition publicRoutes : list string := ["/login"; "/register"; "/"].

Definition protectedRoutes : list string :=
  ["/image"; "/video"; "/history"; "/dashboard"; "/edit-brand-guidelines";
   "/edit-image"; "/help"; "/try-on"].

(** [!!token] for a string that may be [undefined]. *)
Definition has_token (token : option string) : bool :=
  match token with
  | Some t => negb (t =? "")
  | None => false
  end.

Definition middleware (request : NextRequest) : NextResponse :=
  let token := auth_token request in
  let pathname := pathname request in
  (* Check if the current path is a public route *)
  let isPublicRoute :=
    existsb (fun route => (pathname =? route) || JsText.startsWith pathname (route ++ "/"))
      publicRoutes in
  (* Check if the current path is a protected route *)
  let isProtectedRoute :=
    existsb (fun route => (pathname =? route) || JsText.startsWith pathname (route ++ "/"))
      protectedRoutes in
  (* If user is not authenticated and trying to access a protected route *)
  if negb (has_token token) && isProtectedRoute then redirect "/"
  (* If user is authenticated and trying to access public-only pages *)
  else if has_token token
          && ((pathname =? "/") || (pathname =? "/login") || (pathname =? "/register"))
  then redirect "/image"
  else next.

End Middleware.

(* ================================================================== *)
(** ** components/image-generation-page.tsx: the form *)
(* ================================================================== *)

Module ImageGenerationPage.

(** The part of the component state that the form owns: the prompt, the
    eight selections, and the error banner. *)
Record State : Type := mkState {
  prompt : string;
  aspectRatio : string;
  resolution : string;
  style : string;
  contentType : string;
  colorTone : string;
  lighting : string;
  composition : string;
  numImages : Js.Number;
  error : option string
}.

(** The initial values of the [useState] calls. *)
Definition initial : State :=
  {| prompt := "";
     aspectRatio := "1:1";
     resolution := "1024x1024";
     style := "realistic";
     contentType := "none";
     colorTone := "none";
     lighting := "none";
     composition := "none";
     numImages := Js.of_Z 2;
     error := None |}.

Definition setPrompt (value : string) (s : State) : State :=
  mkState value (aspectRatio s) (resolution s) (style s) (contentType s) (colorTone s)
    (lighting s) (composition s) (numImages s) (error s).

Definition setAspectRatio (value : string) (s : State) : State :=
  mkState (prompt s) value (resolution s) (style s) (contentType s) (colorTone s)
    (lighting s) (composition s) (numImages s) (error s).

Definition setResolution (value : string) (s : State) : State :=
  mkState (prompt s) (aspectRatio s) value (style s) (contentType s) (colorTone s)
    (lighting s) (composition s) (numImages s) (error s).

Definition setStyle (value : string) (s : State) : State :=
  mkState (prompt s) (aspectRatio s) (resolution s) value (contentType s) (colorTone s)
    (lighting s) (composition s) (numImages s) (error s).

Definition setContentType (value : string) (s : State) : State :=
  mkState (prompt s) (aspectRatio s) (resolution s) (style s) value (colorTone s)
    (lighting s) (composition s) (numImages s) (error s).

Definition setColorTone (value : string) (s : State) : State :=
  mkState (prompt s) (aspectRatio s) (resolution s) (style s) (contentType s) value
    (lighting s) (composition s) (numImages s) (error s).

Definition setLighting (value : string) (s : State) : State :=
  mkState (prompt s) (aspectRatio s) (resolution s) (style s) (contentType s)
    (colorTone s) value (composition s) (numImages s) (error s).

Definition setComposition (value : string) (s : State) : State :=
  mkState (prompt s) (aspectRatio s) (resolution s) (style s) (contentType s)
    (colorTone s) (lighting s) value (numImages s) (error s).

Definition setNumImages (value : Js.Number) (s : State) : State :=
  mkState (prompt s) (aspectRatio s) (resolution s) (style s) (contentType s)
    (colorTone s) (lighting s) (composition s) value (error s).

Definition setError (value : option string) (s : State) : State :=
  mkState (prompt s) (aspectRatio s) (resolution s) (style s) (contentType s)
    (colorTone s) (lighting s) (composition s) (numImages s) value.

(** [if (error && error.includes(word)) setError(null)] *)
Definition clear_error_about (word : string) (s : State) : State :=
  match error s with
  | Some e => if negb (e =? "") && JsText.includes e word then setError None s else s
  | None => s
  end.

(** Type-safe setters with validation *)
Definition setValidatedAspectRatio (value : string) (s : State) : State :=
  if Js.includes ASPECT_RATIOS value
  then clear_error_about "aspect ratio" (setAspectRatio value s)
  else s.

Definition setValidatedResolution (value : string) (s : State) : State :=
  if Js.includes RESOLUTIONS value
  then clear_error_about "resolution" (setResolution value s)
  else s.

Definition setValidatedStyle (value : string) (s : State) : State :=
  if Js.includes STYLES value
  then clear_error_about "style" (setStyle value s)
  else s.

Definition setValidatedContentType (value : string) (s : State) : State :=
  if Js.includes CONTENT_TYPES value
  then clear_error_about "content type" (setContentType value s)
  else s.

Definition setValidatedColorTone (value : string) (s : State) : State :=
  if Js.includes COLOR_TONES value
  then clear_error_about "color tone" (setColorTone value s)
  else s.

Definition setValidatedLighting (value : string) (s : State) : State :=
  if Js.includes LIGHTING_OPTIONS value
  then clear_error_about "lighting" (setLighting value s)
  else s.

Definition setValidatedComposition (value : string) (s : State) : State :=
  if Js.includes COMPOSITION_OPTIONS value
  then clear_error_about "composition" (setComposition value s)
  else s.

Definition setValidatedNumImages (value : string) (s : State) : State :=
  let numValue := JsText.parseInt value in
  if Js.includes_num NUM_IMAGES_OPTIONS numValue
  then clear_error_about "number of images" (setNumImages numValue s)
  else s.

(** The [onChange] of the prompt text area. *)
Definition onPromptChange (value : string) (s : State) : State :=
  (* Limit input length and sanitize *)
  if (String.length value <=? 2000)%nat
  then clear_error_about "prompt" (setPrompt value s)
  else s.

(** [handleClear], on this part of the state. *)
Definition handleClear (s : State) : State :=
  let s := setPrompt "" s in
  let s := setError None s in
  (* Reset all filter states to default values *)
  let s := setContentType "none" s in
  let s := setColorTone "none" s in
  let s := setLighting "none" s in
  let s := setComposition "none" s in
  setNumImages (Js.of_Z 2) s.

Definition validateInputs (s : State) : option string :=
  (* Validate prompt *)
  let trimmedPrompt := Js.trim (prompt s) in
  if trimmedPrompt =? "" then Some "Please enter a prompt to generate images."
  else if (String.length trimmedPrompt <? 3)%nat
  then Some "Prompt must be at least 3 characters long."
  else if (2000 <? String.length trimmedPrompt)%nat
  then Some "Prompt must be less than 2000 characters."
  (* Validate aspect ratio - ensure it's one of the allowed values *)
  else if (aspectRatio s =? "") || negb (Js.includes ASPECT_RATIOS (Js.trim (aspectRatio s)))
  then Some "Please select a valid aspect ratio."
  (* Validate resolution - ensure it's one of the allowed values *)
  else if (resolution s =? "") || negb (Js.includes RESOLUTIONS (Js.trim (resolution s)))
  then Some "Please select a valid resolution."
  (* Validate style - ensure it's one of the allowed values *)
  else if (style s =? "") || negb (Js.includes STYLES (Js.trim (style s)))
  then Some "Please select a valid style."
  else None.

Definition formatRequestPayload (s : State) : Js.Completion Js.Error Js.Value :=
  (* Ensure all values are properly formatted and sanitized *)
  let formattedPrompt := JsText.normalize_whitespace (Js.trim (prompt s)) in
  let formattedRatio := Js.trim (aspectRatio s) in
  let formattedResolution := Js.trim (resolution s) in
  let formattedStyle := Js.trim (style s) in
  let formattedContentType := Js.trim (contentType s) in
  let formattedColorTone := Js.trim (colorTone s) in
  let formattedLighting := Js.trim (lighting s) in
  let formattedComposition := Js.trim (composition s) in
  (* Use type-safe request builder with validation *)
  match createImageGenerationRequest formattedPrompt formattedRatio
          formattedResolution formattedStyle (Some formattedContentType)
          (Some formattedColorTone) (Some formattedLighting)
          (Some formattedComposition) (Some (numImages s)) with
  | Js.Return request => Js.Return request
  | Js.Throw validationError =>
      (* If validation fails, throw a more specific error *)
      Js.Throw (Js.new_Error ("Request validation failed: "
                              ++ Js.error_message validationError))
  end.

(** What can happen to the form.  The first nine are the handlers of the
    controls and [Clear] is [handleClear]; [PromptSet] stands for the calls of
    [setPrompt] by [handleRandom] and [handleRewrite], and [ErrorSet] for the
    calls of [setError] by [handleGenerate], [handleRewrite] and
    [dismissError], each with any argument. *)
Inductive Event : Type :=
| PromptChanged (value : string)
| AspectRatioPicked (value : string)
| ResolutionPicked (value : string)
| StylePicked (value : string)
| ContentTypePicked (value : string)
| ColorTonePicked (value : string)
| LightingPicked (value : string)
| CompositionPicked (value : string)
| NumImagesPicked (value : string)
| Clear
| PromptSet (value : string)
| ErrorSet (value : option string).

Definition handle (s : State) (e : Event) : State :=
  match e with
  | PromptChanged value => onPromptChange value s
  | AspectRatioPicked value => setValidatedAspectRatio value s
  | ResolutionPicked value => setValidatedResolution value s
  | StylePicked value => setValidatedStyle value s
  | ContentTypePicked value => setValidatedContentType value s
  | ColorTonePicked value => setValidatedColorTone value s
  | LightingPicked value => setValidatedLighting value s
  | CompositionPicked value => setValidatedComposition value s
  | NumImagesPicked value => setValidatedNumImages value s
  | Clear => handleClear s
  | PromptSet value => setPrompt value s
  | ErrorSet value => setError value s
  end.

(** The state of the form after a history of events. *)
Definition after (events : list Event) : State := fold_left handle events initial.

End ImageGenerationPage.

(* ================================================================== *)
(** ** lib/api.ts: combining and aborting signals *)
(* ================================================================== *)

(** The abort signals of the page and their [abort] listeners.  A controller
    and its signal share one identifier, the position of the signal in the
    heap.  The listeners are the two closures that [combineAbortSignals]
    registers. *)
Module Dom.

Inductive Callback : Type :=
| abortHandler (controller : nat)
| removeHandlers (controller : nat) (validSignals : list nat).

(** Identity of closures: one of each kind per call, hence per controller. *)
Definition same_callback (a b : Callback) : bool :=
  match a, b with
  | abortHandler c, abortHandler c' => (c =? c')%nat
  | removeHandlers c _, removeHandlers c' _ => (c =? c')%nat
  | _, _ => false
  end.

Record Listener : Type := mkListener {
  callback : Callback;
  once : bool
}.

Record Signal : Type := mkSignal {
  aborted : bool;
  listeners : list Listener
}.

Definition Heap : Type := list Signal.

(** [new AbortController()] *)
Definition new_AbortController (h : Heap) : nat * Heap :=
  (List.length h, (h ++ [mkSignal false []])%list).

(** [signal.aborted] *)
Definition is_aborted (h : Heap) (s : nat) : bool :=
  match nth_error h s with
  | Some sg => aborted sg
  | None => false
  end.

Fixpoint update (s : nat) (f : Signal -> Signal) (h : Heap) : Heap :=
  match h, s with
  | [], _ => []
  | sg :: h', O => f sg :: h'
  | sg :: h', S s' => sg :: update s' f h'
  end.

Definition registered (s : nat) (cb : Callback) (h : Heap) : bool :=
  match nth_error h s with
  | Some sg => existsb (fun l => same_callback (callback l) cb) (listeners sg)
  | None => false
  end.

(** [signal.addEventListener('abort', cb, { once })]: a callback that is
    already registered is not added again. *)
Definition addEventListener (s : nat) (cb : Callback) (once : bool) (h : Heap) : Heap :=
  update s (fun sg =>
              if existsb (fun l => same_callback (callback l) cb) (listeners sg)
              then sg
              else mkSignal (aborted sg) (listeners sg ++ [mkListener cb once])%list) h.

(** [signal.removeEventListener('abort', cb)] *)
Definition removeEventListener (s : nat) (cb : Callback) (h : Heap) : Heap :=
  update s (fun sg =>
              mkSignal (aborted sg)
                (filter (fun l => negb (same_callback (callback l) cb)) (listeners sg))) h.

(** The listeners of signal [s] that were registered when its event fired
    are called in order, each one only if it is still registered, a [once]
    listener being removed before it runs.  [abort] is the call a listener
    makes on another controller. *)
Section Dispatch.

Variable abort : nat -> Heap -> option Heap.
Variable s : nat.

Fixpoint dispatch (ls : list Listener) (h : Heap) : option Heap :=
  match ls with
  | [] => Some h
  | l :: ls =>
      if registered s (callback l) h then
        let h := if once l then removeEventListener s (callback l) h else h in
        match match callback l with
              | abortHandler controller => abort controller h
              | removeHandlers controller validSignals =>
                  Some (fold_left
                          (fun h signal =>
                             removeEventListener signal (abortHandler controller) h)
                          validSignals h)
              end with
        | Some h => dispatch ls h
        | None => None
        end
      else dispatch ls h
  end.

End Dispatch.

(** [controller.abort()]: nothing on a signal that is aborted; otherwise the
    flag is set and the event is fired.  [fuel] bounds the nesting of aborts. *)
Fixpoint abort (fuel : nat) (c : nat) (h : Heap) : option Heap :=
  match fuel with
  | O => None
  | S fuel =>
      match nth_error h c with
      | None => Some h
      | Some sg =>
          if aborted sg then Some h
          else dispatch (abort fuel) c (listeners sg)
                 (update c (fun sg => mkSignal true (listeners sg)) h)
      end
  end.

End Dom.

(** [combineAbortSignals(...signals)] *)
Definition combineAbortSignals (fuel : nat) (signals : list (option nat)) (h : Dom.Heap)
  : option (nat * Dom.Heap) :=
  let (controller, h) := Dom.new_AbortController h in
  (* Filter out undefined signals *)
  let validSignals :=
    flat_map (fun signal => match signal with Some s => [s] | None => [] end) signals in
  (* If any signal is already aborted, abort immediately *)
  if existsb (Dom.is_aborted h) validSignals then
    match Dom.abort fuel controller h with
    | Some h => Some (controller, h)
    | None => None
    end
  else
    (* Set up listeners for all signals *)
    let h := fold_left
               (fun h signal =>
                  Dom.addEventListener signal (Dom.abortHandler controller) true h)
               validSignals h in
    (* Clean up listeners when our controller aborts *)
    let h := Dom.addEventListener controller
               (Dom.removeHandlers controller validSignals) true h in
    Some (controller, h).

(** [safeAbort(controller, reason)]; the log lines are left out. *)
Definition safeAbort (fuel : nat) (controller : option nat) (h : Dom.Heap)
  : option Dom.Heap :=
  match controller with
  | Some c => if negb (Dom.is_aborted h c) then Dom.abort fuel c h else Some h
  | None => Some h
  end.

(* ================================================================== *)
(** * Vocabulary of the properties *)
(* ================================================================== *)

(** ** The validators as tables of field checks *)

(** A validator pushes at most one error per field onto the list it has built
    so far; the checks below say which one.  The lemmas [validate*_fields]
    relate each validator of the source to the concatenation of its field
    checks. *)

Definition check_prompt (v : Js.Value) : list ValidationError :=
  if not_a_string v then
    [mkValidationError "prompt" "Prompt must be a string" (Some v)]
  else if (String.length (Js.trim (Js.as_string v)) =? 0)%nat then
    [mkValidationError "prompt" "Prompt cannot be empty" (Some v)]
  else if (2000 <? String.length (Js.as_string v))%nat then
    [mkValidationError "prompt" "Prompt must be less than 2000 characters" (Some v)]
  else [].

Definition check_required (f label : string) (allowed : list string) (v : Js.Value)
  : list ValidationError :=
  if not_a_string v then
    [mkValidationError f (label ++ " must be a string") (Some v)]
  else if negb (Js.includes allowed (Js.as_string v)) then
    [mkValidationError f (label ++ " must be one of: " ++ Js.join ", " allowed) (Some v)]
  else [].

Definition check_optional (f label : string) (allowed : list string) (v : Js.Value)
  : list ValidationError :=
  if negb (Js.is_undefined v) then
    if negb (Js.typeof v =? "string") then
      [mkValidationError f (label ++ " must be a string") (Some v)]
    else if negb (Js.includes allowed (Js.as_string v)) then
      [mkValidationError f (label ++ " must be one of: " ++ Js.join ", " allowed) (Some v)]
    else []
  else [].

Definition check_numImages_member (v : Js.Value) : list ValidationError :=
  if negb (Js.is_undefined v) then
    if negb (Js.typeof v =? "number") then
      [mkValidationError "numImages" "Number of images must be a number" (Some v)]
    else if negb (Js.includes_num NUM_IMAGES_OPTIONS (Js.as_number v)) then
      [mkValidationError "numImages" "Number of images must be one of: 1, 2, 3, 4" (Some v)]
    else []
  else [].

Definition check_numImages_range (v : Js.Value) : list ValidationError :=
  if negb (Js.is_undefined v) then
    if negb (Js.typeof v =? "number") then
      [mkValidationError "numImages" "Number of images must be a number" (Some v)]
    else if Js.lt (Js.as_number v) (Js.of_Z 1) || Js.gt (Js.as_number v) (Js.of_Z 4) then
      [mkValidationError "numImages" "Number of images must be between 1 and 4" (Some v)]
    else []
  else [].

(** ** Field constraints, in the words of the specification *)

(** The number [n] is the integer [z]. *)
Definition denotes (n : Js.Number) (z : Z) : Prop :=
  match n with
  | Js.Finite q => q == inject_Z z
  | _ => False
  end.

(** A prompt-like field: a string of 1 to 2000 characters that is not empty
    once trimmed. *)
Definition valid_prompt (v : Js.Value) : Prop :=
  exists p, v = Js.Str p
            /\ String.length (Js.trim p) <> 0%nat
            /\ (String.length p <= 2000)%nat.

(** An enumerated field: a string that is a member of the permitted set. *)
Definition one_of (allowed : list string) (v : Js.Value) : Prop :=
  exists s, v = Js.Str s /\ In s allowed.

(** The image count: a number that is a member of the permitted set. *)
Definition permitted_count (v : Js.Value) : Prop :=
  exists n z, v = Js.Num n /\ In z NUM_IMAGES_OPTIONS /\ denotes n z.

Definition absent_or (P : Js.Value -> Prop) (v : Js.Value) : Prop :=
  v = Js.Undefined \/ P v.

Definition other_fields_valid (request : Js.Value) : Prop :=
  one_of ASPECT_RATIOS request.["ratio"]
  /\ one_of RESOLUTIONS request.["resolution"]
  /\ one_of STYLES request.["style"]
  /\ absent_or (one_of CONTENT_TYPES) request.["contentType"]
  /\ absent_or (one_of COLOR_TONES) request.["colorTone"]
  /\ absent_or (one_of LIGHTING_OPTIONS) request.["lighting"]
  /\ absent_or (one_of COMPOSITION_OPTIONS) request.["composition"]
  /\ absent_or permitted_count request.["numImages"].

Definition satisfies_constraints (request : Js.Value) : Prop :=
  valid_prompt request.["prompt"] /\ other_fields_valid request.

(** The order in which the generation validator visits the fields. *)
Definition REQUEST_FIELDS : list string :=
  ["request"; "prompt"; "ratio"; "resolution"; "style"; "contentType";
   "colorTone"; "lighting"; "composition"; "numImages"].

(** [rejects errors f]: the error list holds an error for field [f]. *)
Definition rejects (errors : list ValidationError) (f : string) : Prop :=
  exists e, In e errors /\ field e = f.

(** Subsequences. *)
Inductive Subseq {A : Type} : list A -> list A -> Prop :=
| Subseq_nil : Subseq [] []
| Subseq_skip x l1 l2 : Subseq l1 l2 -> Subseq l1 (x :: l2)
| Subseq_take x l1 l2 : Subseq l1 l2 -> Subseq (x :: l1) (x :: l2).

(** Each check yields no error or exactly one. *)
Definition at_most_one (l : list ValidationError) : Prop :=
  l = [] \/ exists e, l = [e].

(** The image count the range check of the edit validator lets through. *)
Definition between_1_and_4 (v : Js.Value) : Prop :=
  match v with
  | Js.Num (Js.Finite q) => 1 <= q /\ q <= 4
  | _ => False
  end.

(** ** Sample requests *)

Definition request_of (prompt : string) : Js.Value :=
  Js.Obj [("prompt", Js.Str prompt); ("ratio", Js.Str "1:1");
          ("resolution", Js.Str "1024x1024"); ("style", Js.Str "realistic")].

Definition full_request : Js.Value :=
  Js.Obj [("prompt", Js.Str "a cat"); ("ratio", Js.Str "16:9");
          ("resolution", Js.Str "512x512"); ("style", Js.Str "cartoon");
          ("contentType", Js.Str "photo"); ("lighting", Js.Str "studio light");
          ("numImages", Js.Num (Js.of_Z 2))].


(** ["a".repeat(n)] *)
Fixpoint repeat_string (s : string) (n : nat) : string :=
  match n with
  | O => ""
  | S n' => s ++ repeat_string s n'
  end.

Definition boundary_prompt : string := repeat_string "a" 2000.

(** ** The HTTP client *)

(** The caller's token, if any, has not been aborted when the call starts. *)
Definition live (signal : option AbortSignal) : bool :=
  match signal with Some s => negb (aborted s) | None => true end.

(** The signal the client hands to [fetch]. *)
Definition effective (signal : option AbortSignal) : AbortSignal :=
  match signal with Some s => s | None => mkAbortSignal false end.

(** The headers [getAuthHeaders] computes in a world. *)
Definition auth_headers (w : World) : list (string * string) :=
  match Js.lookup "auth_token" (cookies w) with
  | Some t => if negb (t =? "")
              then Js.set "Authorization" ("Bearer " ++ t) API_CONFIG.HEADERS
              else API_CONFIG.HEADERS
  | None => API_CONFIG.HEADERS
  end.

(** The request [authenticatedFetch] puts on the wire. *)
Definition outgoing (url : string) (options : RequestInit) (w : World) : Request :=
  mkRequest url (method options) (Js.spread (auth_headers w) (headers options))
    (body options).

Definition sent (rq : Request) (w : World) : World :=
  mkWorld (cookies w) (navigations w) (requests w ++ [rq]) (timers w) (next_timer w).

Definition signed_out (w : World) : World :=
  mkWorld (filter (fun kv => negb (fst kv =? "auth_token")) (cookies w))
    (navigations w ++ ["/"]) (requests w) (timers w) (next_timer w).

Definition authentication_required : ApiServiceError.t :=
  ApiServiceError.new (Js.Str "Authentication required") (Some (Js.Str "HTTP_401"))
    None None.

(** The server answers every request with the same response. *)
Definition answers_with (network : Network) (response : Response) : Prop :=
  forall rq, network rq = Responds response.

(** The server answers every request with a response of status 401. *)
Definition answers_401 (network : Network) : Prop :=
  forall rq, exists r, network rq = Responds r /\ status r = 401%nat.

(** The outcome of a call that met a 401: the typed error HTTP_401, no stored
    credential any more, and one navigation to the entry point added. *)
Definition signed_out_by {A : Type} (before : World)
  (result : Js.Completion Thrown A * World) : Prop :=
  fst result = Js.Throw (Service authentication_required)
  /\ Js.lookup "auth_token" (cookies (snd result)) = None
  /\ navigations (snd result) = (navigations before ++ ["/"])%list.

(** The code carried by a thrown service error. *)
Definition thrown_code {A : Type} (c : Js.Completion Thrown A) : option Js.Value :=
  match c with
  | Js.Throw (Service e) => Some (ApiServiceError.code e)
  | _ => None
  end.

(** [null] or [undefined]: the values a property read throws on. *)
Definition nullish (v : Js.Value) : Prop :=
  v = Js.Undefined \/ v = Js.Null.

(** ** The two halves of [editImage] *)

(** The form [editImage] builds from its arguments before it sends anything,
    or the error that building it throws. *)
Definition edit_form (imageFile request : Js.Value)
  : Js.Completion Js.Error FormData :=
  match request with
  | Js.Undefined | Js.Null =>
      Js.Throw (Js.mkError Js.TypeError "TypeError"
                  "Cannot read properties of null or undefined")
  | _ =>
      match append_value (append_file [] "image" imageFile)
              "prompt" request.["prompt"] with
      | Js.Throw e => Js.Throw e
      | Js.Return formData =>
      match append_value formData "editMode" request.["editMode"] with
      | Js.Throw e => Js.Throw e
      | Js.Return formData =>
      match append_value formData "maskMode" request.["maskMode"] with
      | Js.Throw e => Js.Throw e
      | Js.Return formData =>
          if negb (Js.is_undefined request.["numImages"]) then
            match Js.toString_method request.["numImages"] with
            | Js.Throw e => Js.Throw e
            | Js.Return text => Js.Return (append_text formData "numImages" text)
            end
          else Js.Return formData
      end end end
  end.

(** The headers [editImage] sends in a world. *)
Definition edit_headers (w : World) : list (string * string) :=
  match Js.lookup "auth_token" (cookies w) with
  | Some t => if negb (t =? "") then Js.set "Authorization" ("Bearer " ++ t)%string []
              else []
  | None => []
  end.

(** The request [editImage] puts on the wire once the form is built. *)
Definition edit_request (formData : FormData) (w : World) : Request :=
  mkRequest (API_CONFIG.BASE_URL ++ API_CONFIG.ENDPOINTS.IMAGE_EDIT) (Some "POST")
    (edit_headers w) (Some (FormBody formData)).

(** What [editImage] does with the answer to that request. *)
Definition edit_answer (response : Response) : M Js.Value :=
  if (status response =? 401)%nat then
    handleAuthError ;;
    throw (Service (ApiServiceError.new (Js.Str "Authentication required")
                      (Some (Js.Str "HTTP_401")) None None))
  else
    (if negb (ok response) then
       let errorData := json_or_empty response in
       error <~ member errorData "error" ;;
       code <~ member errorData "code" ;;
       throw_new
         (Js.or error
            (Js.Str ("Edit failed: "
                     ++ Js.nat_toString (status response))))
         (Some (Js.or code (Js.Str "EDIT_ERROR")))
         None None
     else ret tt) ;;
    data <~ await (json response) ;;
    success <~ member data "success" ;;
    if negb (Js.truthy success) then
      error <~ member data "error" ;;
      code <~ member data "code" ;;
      throw_new
        (Js.or error (Js.Str "Edit failed"))
        (Some (Js.or code (Js.Str "EDIT_ERROR")))
        None None
    else ret data.

(** ** Sample worlds and servers *)

Definition signed_in_world : World := mkWorld [("auth_token", "token")] [] [] [] 0.

Definition server (response : Response) : Network := fun _ => Responds response.

Definition quota_body : Js.Value :=
  Js.Obj [("success", Js.Bool false); ("error", Js.Str "quota exceeded");
          ("code", Js.Str "API_ERROR")].

(** ** Validators and builders *)

Definition edit_constraints (request : Js.Value) : Prop :=
  valid_prompt request.["prompt"]
  /\ one_of EDIT_MODES request.["editMode"]
  /\ one_of MASK_MODES request.["maskMode"]
  /\ (request.["numImages"] = Js.Undefined
      \/ request.["numImages"] = Js.Num Js.NaN
      \/ between_1_and_4 request.["numImages"]).

(** The value a filter parameter leaves in the built request. *)
Definition filter_value (x : option string) : Js.Value :=
  match x with
  | Some s => if negb (s =? "") && negb (s =? "none") then Js.Str s else Js.Undefined
  | None => Js.Undefined
  end.

Definition count_value (n : option Js.Number) : Js.Value :=
  match n with Some x => Js.Num x | None => Js.Undefined end.

Definition built_as (request : Js.Value) (prompt ratio resolution style : string)
  (contentType colorTone lighting composition : option string)
  (numImages : option Js.Number) : Prop :=
  request.["prompt"] = Js.Str prompt
  /\ request.["ratio"] = Js.Str ratio
  /\ request.["resolution"] = Js.Str resolution
  /\ request.["style"] = Js.Str style
  /\ request.["contentType"] = filter_value contentType
  /\ request.["colorTone"] = filter_value colorTone
  /\ request.["lighting"] = filter_value lighting
  /\ request.["composition"] = filter_value composition
  /\ request.["numImages"] = count_value numImages.

(** Candidates that are not objects. *)
Definition primitive (v : Js.Value) : Prop :=
  match v with
  | Js.Obj _ | Js.Arr _ => False
  | _ => True
  end.

Definition request_error : ValidationError :=
  mkValidationError "request" "Request must be an object" None.

Definition response_error : ValidationError :=
  mkValidationError "response" "Response must be an object" None.

Definition nonempty_string (v : Js.Value) : Prop :=
  exists s, v = Js.Str s /\ s <> "".

Definition optional_of_type (ty : string) (v : Js.Value) : Prop :=
  v = Js.Undefined \/ Js.typeof v = ty.

Definition failure_shape (data : Js.Value) : Prop :=
  data.["success"] = Js.Bool false /\ nonempty_string data.["error"].

Definition generation_success_shape (data : Js.Value) : Prop :=
  data.["success"] = Js.Bool true
  /\ (exists images, data.["images"] = Js.Arr images /\ Forall nonempty_string images)
  /\ optional_of_type "string" data.["message"]
  /\ optional_of_type "string" data.["requestId"]
  /\ optional_of_type "string" data.["model_used"]
  /\ optional_of_type "string" data.["enhanced_prompt"]
  /\ optional_of_type "number" data.["expires_in_hours"]
  /\ optional_of_type "boolean" data.["brand_guidelines_applied"].

Definition rewrite_success_shape (data : Js.Value) : Prop :=
  data.["success"] = Js.Bool true
  /\ nonempty_string data.["original_prompt"]
  /\ nonempty_string data.["enhanced_prompt"]
  /\ nonempty_string data.["message"]
  /\ optional_of_type "string" data.["warning"].

(** ** The generation client *)

(** The world once the client has armed its timer. *)
Definition armed (w : World) : World :=
  mkWorld (cookies w) (navigations w) (requests w) (timers w ++ [next_timer w])
    (S (next_timer w)).

(** The string found under key [k] of a JSON object body, if any. *)
Definition body_string (response : Response) (k : string) : option string :=
  match json_body response with
  | Some (Js.Obj ps) =>
      match Js.lookup k ps with
      | Some (Js.Str s) => Some s
      | _ => None
      end
  | _ => None
  end.

Definition status_code (response : Response) : string :=
  "HTTP_" ++ Js.nat_toString (status response).

Definition status_line (response : Response) : string :=
  "HTTP " ++ Js.nat_toString (status response) ++ ": " ++ statusText response.

Definition http_error_code (response : Response) : string :=
  match body_string response "code" with
  | Some c => if Js.includes validCodes c then c else status_code response
  | None => status_code response
  end.

Definition http_error_message (response : Response) : string :=
  match body_string response "error" with
  | Some m => m
  | None => status_line response
  end.

(** The pending timers all have identifiers below the next one. *)
Definition timers_fresh (w : World) : Prop :=
  forall t, In t (timers w) -> (t < next_timer w)%nat.

Definition typed_failure {A : Type} (c : Js.Completion Thrown A) : Prop :=
  match c with
  | Js.Throw (Other _) => False
  | _ => True
  end.

(** The credential [getAuthHeaders] finds: the cookie, unless absent or empty. *)
Definition stored_credential (w : World) : option string :=
  match Js.lookup "auth_token" (cookies w) with
  | Some t => if t =? "" then None else Some t
  | None => None
  end.

(** The request of a JSON POST made through [authenticatedFetch]. *)
Definition json_post (rq : Request) (url : string) (payload : Js.Value) (w : World)
  : Prop :=
  request_url rq = url
  /\ request_method rq = Some "POST"
  /\ request_body rq = Some (JsonBody payload)
  /\ Js.lookup "Content-Type" (request_headers rq) = Some "application/json"
  /\ Js.lookup "Authorization" (request_headers rq)
     = option_map (fun t => "Bearer " ++ t) (stored_credential w).

(** No request gets through. *)
Definition unreachable (network : Network) : Prop :=
  forall rq, network rq = NetworkFailure.

(** Every request is aborted while in flight (timeout or cancellation). *)
Definition cut_off (network : Network) : Prop :=
  forall rq, network rq = AbortedInFlight.

(** ** Further samples *)

Definition busy_world : World := mkWorld [("auth_token", "token")] [] [] [3%nat] 5.

Definition throttled_response : Response :=
  mkResponse 429 "Too Many Requests"
    (Some (Js.Obj [("error", Js.Str "slow down"); ("code", Js.Str "HTTP_429")])).

Definition success_body : Js.Value :=
  Js.Obj [("success", Js.Bool true); ("images", Js.Arr [Js.Str "https://cdn/img1.png"])].

(** ** The clients of the other endpoints *)

(** The calls of lib/api.ts that go through [authenticatedFetch] and hand back
    the parsed body unchecked. *)
Inductive Endpoint : Type :=
| GetBrandGuidelines
| UpdateBrandGuidelines (request : Js.Value)
| GetHistoryItem (itemId : string)
| DeleteHistoryItem (itemId : string)
| GenerateVideo (request : Js.Value)
| EnhancePrompt (request : Js.Value)
| GeneratePrompt (request : Js.Value)
| GenerateSignedUrl (request : Js.Value)
| ListBuckets.

Definition call (network : Network) (e : Endpoint) (signal : option AbortSignal)
  : M Js.Value :=
  match e with
  | GetBrandGuidelines => getBrandGuidelines network signal
  | UpdateBrandGuidelines request => updateBrandGuidelines network request signal
  | GetHistoryItem itemId => getHistoryItem network itemId signal
  | DeleteHistoryItem itemId => deleteHistoryItem network itemId signal
  | GenerateVideo request => generateVideo network request signal
  | EnhancePrompt request => enhancePrompt network request signal
  | GeneratePrompt request => generatePrompt network request signal
  | GenerateSignedUrl request => generateSignedUrl network request signal
  | ListBuckets => listBuckets network signal
  end.

(** What each call puts on the wire. *)
Definition endpoint_url (e : Endpoint) : string :=
  API_CONFIG.BASE_URL ++
  match e with
  | GetBrandGuidelines | UpdateBrandGuidelines _ => "/api/brand-guidelines"
  | GetHistoryItem itemId | DeleteHistoryItem itemId => "/api/history/" ++ itemId
  | GenerateVideo _ => "/api/video/generate"
  | EnhancePrompt _ => "/api/prompts/enhance"
  | GeneratePrompt _ => "/api/prompts/generate"
  | GenerateSignedUrl _ => "/api/uploads/generate-signed-url"
  | ListBuckets => "/api/buckets/list"
  end.

Definition endpoint_method (e : Endpoint) : string :=
  match e with
  | GetBrandGuidelines | GetHistoryItem _ | ListBuckets => "GET"
  | DeleteHistoryItem _ => "DELETE"
  | _ => "POST"
  end.

Definition endpoint_body (e : Endpoint) : option Body :=
  match e with
  | UpdateBrandGuidelines request | GenerateVideo request | EnhancePrompt request
  | GeneratePrompt request | GenerateSignedUrl request => Some (JsonBody request)
  | _ => None
  end.

(** The code a failure gets when the server names none. *)
Definition default_code (e : Endpoint) : string :=
  match e with
  | GetBrandGuidelines | GetHistoryItem _ | ListBuckets => "FETCH_ERROR"
  | UpdateBrandGuidelines _ => "UPDATE_ERROR"
  | DeleteHistoryItem _ => "DELETE_ERROR"
  | GenerateVideo _ | GeneratePrompt _ => "GENERATION_ERROR"
  | EnhancePrompt _ => "ENHANCEMENT_ERROR"
  | GenerateSignedUrl _ => "UPLOAD_ERROR"
  end.

(** The message a failure gets when the server gives none. *)
Definition default_message (e : Endpoint) (response : Response) : string :=
  match e with
  | GetBrandGuidelines => "Failed to fetch brand guidelines"
  | UpdateBrandGuidelines _ => "Failed to update brand guidelines"
  | GetHistoryItem _ => "Failed to fetch history item"
  | DeleteHistoryItem _ => "Failed to delete history item"
  | GenerateVideo _ => "Video generation failed"
  | EnhancePrompt _ => "Prompt enhancement failed"
  | GeneratePrompt _ => "Prompt generation failed"
  | GenerateSignedUrl _ => "Failed to generate signed URL"
  | ListBuckets => "Failed to list buckets"
  end ++ ": " ++ Js.nat_toString (status response).

(** The message of the error that wraps whatever was not a service error. *)
Definition wrapped_message (e : Endpoint) : string :=
  match e with
  | GetBrandGuidelines => "Failed to fetch brand guidelines"
  | UpdateBrandGuidelines _ => "Failed to update brand guidelines"
  | GetHistoryItem _ => "Failed to fetch history item"
  | DeleteHistoryItem _ => "Failed to delete history item"
  | GenerateVideo _ => "Failed to generate video"
  | EnhancePrompt _ => "Failed to enhance prompt"
  | GeneratePrompt _ => "Failed to generate prompt"
  | GenerateSignedUrl _ => "Failed to generate signed URL"
  | ListBuckets => "Failed to list buckets"
  end.

Definition endpoint_request (e : Endpoint) (w : World) : Request :=
  mkRequest (endpoint_url e) (Some (endpoint_method e)) (auth_headers w)
    (endpoint_body e).

(** A failure wrapped as NETWORK_ERROR around the error [cause]. *)
Definition wrapped (e : Endpoint) (cause : Foreign) : Thrown :=
  Service (ApiServiceError.new (Js.Str (wrapped_message e))
             (Some (Js.Str "NETWORK_ERROR")) (Some (DetailsOriginalError cause)) None).

(** What a call throws for the body of a response that is not 2xx: the
    service error built from it or, when the conversion of its [error] to a
    string throws, the wrapping of what that threw, the construction being
    inside the [try] block. *)
Definition refused (e : Endpoint) (response : Response) (errorData : Js.Value)
  : Thrown :=
  match ApiServiceError.construct
          (Js.or errorData.["error"] (Js.Str (default_message e response)))
          (Some (Js.or errorData.["code"] (Js.Str (default_code e))))
          None None with
  | Js.Return error => Service error
  | Js.Throw cause => wrapped e (ForeignError cause)
  end.

Definition null_read : Foreign :=
  ForeignError (Js.mkError Js.TypeError "TypeError"
                  "Cannot read properties of null or undefined").

(** The outcome of a call whose request got the answer [outcome]. *)
Definition endpoint_outcome (e : Endpoint) (outcome : FetchOutcome)
  : Js.Completion Thrown Js.Value :=
  match outcome with
  | NetworkFailure => Js.Throw (wrapped e (ForeignError FetchFailed))
  | AbortedInFlight => Js.Throw (wrapped e (ForeignError AbortError))
  | Responds response =>
      if (status response =? 401)%nat then Js.Throw (Service authentication_required)
      else if ok response then
        match json_body response with
        | Some data => Js.Return data
        | None => Js.Throw (wrapped e (ForeignError JsonSyntaxError))
        end
      else
        match json_body response with
        | Some Js.Null | Some Js.Undefined => Js.Throw (wrapped e null_read)
        | Some errorData => Js.Throw (refused e response errorData)
        | None => Js.Throw (refused e response (Js.Obj []))
        end
  end.

(** The world after a call whose request got the answer [outcome]. *)
Definition endpoint_world (e : Endpoint) (outcome : FetchOutcome) (w : World) : World :=
  match outcome with
  | Responds response =>
      if (status response =? 401)%nat
      then signed_out (sent (endpoint_request e w) w)
      else sent (endpoint_request e w) w
  | _ => sent (endpoint_request e w) w
  end.

(** ** The route guard *)

(** A path is under a route when it is the route or continues it after a
    slash. *)
Definition under (route path : string) : Prop :=
  path = route \/ exists rest, path = route ++ "/" ++ rest.

Definition protected (path : string) : Prop :=
  exists route, In route Middleware.protectedRoutes /\ under route path.

Definition entry_page (path : string) : Prop :=
  path = "/" \/ path = "/login" \/ path = "/register".

(** The request that follows an answer: the same cookie, at the address the
    answer redirects to. *)
Definition follow (request : Middleware.NextRequest) (answer : Middleware.NextResponse)
  : Middleware.NextRequest :=
  match answer with
  | Middleware.redirect path => Middleware.mkNextRequest (Middleware.auth_token request) path
  | Middleware.next => request
  end.

(** ** The form of the image generation page *)

(** Every selection holds a member of its set. *)
Definition selections_valid (s : ImageGenerationPage.State) : Prop :=
  In (ImageGenerationPage.aspectRatio s) ASPECT_RATIOS
  /\ In (ImageGenerationPage.resolution s) RESOLUTIONS
  /\ In (ImageGenerationPage.style s) STYLES
  /\ In (ImageGenerationPage.contentType s) CONTENT_TYPES
  /\ In (ImageGenerationPage.colorTone s) COLOR_TONES
  /\ In (ImageGenerationPage.lighting s) LIGHTING_OPTIONS
  /\ In (ImageGenerationPage.composition s) COMPOSITION_OPTIONS
  /\ permitted_count (Js.Num (ImageGenerationPage.numImages s)).

(** The prompt as the form sends it. *)
Definition formatted_prompt (s : ImageGenerationPage.State) : string :=
  JsText.normalize_whitespace (Js.trim (ImageGenerationPage.prompt s)).

Definition prompt_messages : list string :=
  ["Please enter a prompt to generate images.";
   "Prompt must be at least 3 characters long.";
   "Prompt must be less than 2000 characters."].

(** ** Abort signals *)

(** The signals that are not aborted yet. *)
Definition pending (h : Dom.Heap) : nat :=
  List.length (filter (fun sg => negb (Dom.aborted sg)) h).

(** No flag is lowered, no signal appears or disappears. *)
Definition flags_kept (h h' : Dom.Heap) : Prop :=
  List.length h' = List.length h
  /\ forall s, Dom.is_aborted h s = true -> Dom.is_aborted h' s = true.

Definition valid_signals (signals : list (option nat)) : list nat :=
  flat_map (fun signal => match signal with Some s => [s] | None => [] end) signals.

(** A signal as [new AbortController()] makes it. *)
Definition fresh_signal : Dom.Signal := Dom.mkSignal false [].

Definition no_listeners (h : Dom.Heap) (s : nat) : Prop :=
  forall sg, nth_error h s = Some sg -> Dom.listeners sg = [].

(** A signal once [cb] is registered on it, and once it is removed. *)
Definition with_listener (cb : Dom.Callback) (o : bool) (sg : Dom.Signal) : Dom.Signal :=
  if existsb (fun l => Dom.same_callback (Dom.callback l) cb) (Dom.listeners sg)
  then sg
  else Dom.mkSignal (Dom.aborted sg)
         (Dom.listeners sg ++ [Dom.mkListener cb o])%list.

Definition without_listener (cb : Dom.Callback) (sg : Dom.Signal) : Dom.Signal :=
  Dom.mkSignal (Dom.aborted sg)
    (filter (fun l => negb (Dom.same_callback (Dom.callback l) cb)) (Dom.listeners sg)).

(** Two signals nobody listens to yet. *)
Definition two_signals : Dom.Heap := [fresh_signal; fresh_signal].

(* ================================================================== *)
(** * Properties *)
(* ================================================================== *)

(** ** The validators as tables of field checks *)

Section PushChains.

Variables (l : list ValidationError) (e1 e2 e3 : ValidationError).

Lemma push_chain3 (c1 c2 c3 : bool) :
  (if c1 then push l e1 else if c2 then push l e2 else if c3 then push l e3 else l)
  = (l ++ (if c1 then [e1] else if c2 then [e2] else if c3 then [e3] else []))%list.
Proof.
  unfold push; destruct c1, c2, c3; rewrite ?app_nil_r; reflexivity.
Qed.

Lemma push_chain2 (c1 c2 : bool) :
  (if c1 then push l e1 else if c2 then push l e2 else l)
  = (l ++ (if c1 then [e1] else if c2 then [e2] else []))%list.
Proof.
  unfold push; destruct c1, c2; rewrite ?app_nil_r; reflexivity.
Qed.

Lemma push_guarded2 (p c1 c2 : bool) :
  (if p then if c1 then push l e1 else if c2 then push l e2 else l else l)
  = (l ++ (if p then if c1 then [e1] else if c2 then [e2] else [] else []))%list.
Proof.
  unfold push; destruct p, c1, c2; rewrite ?app_nil_r; reflexivity.
Qed.

End PushChains.

(** Name the value of the outermost [let] of the left-hand side, so that the
    chain can be walked without copying the list built so far. *)
Ltac name_let :=
  lazymatch goal with
  | |- (let x := ?a in @?f x) = ?r =>
      let e := fresh "errors" in
      let H := fresh "Herrors" in
      pose (e := a); change (f e = r); cbv beta;
      assert (H : e = a) by reflexivity; clearbody e;
      first [ rewrite push_chain3 in H
            | rewrite push_guarded2 in H
            | rewrite push_chain2 in H
            | idtac ]
  end.

Lemma validateImageGenerationRequest_fields (request : Js.Value) :
  validateImageGenerationRequest request =
  if not_an_object request then
    [mkValidationError "request" "Request must be an object" None]
  else
    (check_prompt request.["prompt"]
     ++ check_required "ratio" "Aspect ratio" ASPECT_RATIOS request.["ratio"]
     ++ check_required "resolution" "Resolution" RESOLUTIONS request.["resolution"]
     ++ check_required "style" "Style" STYLES request.["style"]
     ++ check_optional "contentType" "Content type" CONTENT_TYPES request.["contentType"]
     ++ check_optional "colorTone" "Color tone" COLOR_TONES request.["colorTone"]
     ++ check_optional "lighting" "Lighting" LIGHTING_OPTIONS request.["lighting"]
     ++ check_optional "composition" "Composition" COMPOSITION_OPTIONS request.["composition"]
     ++ check_numImages_member request.["numImages"])%list.
Proof.
  cbv delta [validateImageGenerationRequest]; cbv beta.
  name_let. subst.
  destruct (not_an_object request); [reflexivity|].
  name_let. subst.
  repeat name_let.
  subst. rewrite <- !app_assoc. reflexivity.
Qed.

Lemma validatePromptRewriteRequest_fields (request : Js.Value) :
  validatePromptRewriteRequest request =
  if not_an_object request then
    [mkValidationError "request" "Request must be an object" None]
  else check_prompt request.["prompt"].
Proof.
  cbv delta [validatePromptRewriteRequest]; cbv beta.
  name_let. subst.
  destruct (not_an_object request); [reflexivity|].
  name_let. subst.
  repeat name_let.
  subst. reflexivity.
Qed.

Lemma validateImageEditRequest_fields (request : Js.Value) :
  validateImageEditRequest request =
  if not_an_object request then
    [mkValidationError "request" "Request must be an object" None]
  else
    (check_prompt request.["prompt"]
     ++ check_required "editMode" "Edit mode" EDIT_MODES request.["editMode"]
     ++ check_required "maskMode" "Mask mode" MASK_MODES request.["maskMode"]
     ++ check_numImages_range request.["numImages"])%list.
Proof.
  cbv delta [validateImageEditRequest]; cbv beta.
  name_let. subst.
  destruct (not_an_object request); [reflexivity|].
  name_let. subst.
  repeat name_let.
  subst. rewrite <- !app_assoc. reflexivity.
Qed.

(** ** Lemmas on the JavaScript layer *)

Lemma includes_spec (xs : list string) (s : string) :
  Js.includes xs s = true <-> In s xs.
Proof.
  unfold Js.includes. rewrite existsb_exists. split.
  - intros [x [Hin Heq]]. apply String.eqb_eq in Heq. now subst.
  - intros Hin. exists s. split; [assumption | apply String.eqb_refl].
Qed.

Lemma includes_num_spec (xs : list Z) (n : Js.Number) :
  Js.includes_num xs n = true <-> exists z, In z xs /\ denotes n z.
Proof.
  unfold Js.includes_num. rewrite existsb_exists. split.
  - intros [z [Hin Heq]]. exists z. split; [assumption|].
    destruct n as [| |q]; simpl in *; try discriminate.
    apply Qeq_bool_iff in Heq. now symmetry.
  - intros [z [Hin Hd]]. exists z. split; [assumption|].
    destruct n as [| |q]; simpl in *; try contradiction.
    apply Qeq_bool_iff. now symmetry.
Qed.

Lemma trim_empty : Js.trim "" = "".
Proof. reflexivity. Qed.

Lemma get_string_is_object (request : Js.Value) (k : string) (v : Js.Value) :
  request.[k] = v -> v <> Js.Undefined -> not_an_object request = false.
Proof.
  destruct request; simpl; intros H Hv; try (now subst; contradiction Hv).
  reflexivity.
Qed.

Lemma lookup_set_other {A : Type} (k k' : string) (x : A) (ps : list (string * A)) :
  k <> k' -> Js.lookup k' (Js.set k x ps) = Js.lookup k' ps.
Proof.
  intros Hne. induction ps as [|[k0 v0] ps IH]; simpl.
  - destruct (String.eqb_spec k k'); [contradiction | reflexivity].
  - destruct (String.eqb_spec k0 k) as [->|Hk0]; simpl.
    + destruct (String.eqb_spec k k'); [contradiction | reflexivity].
    + destruct (String.eqb_spec k0 k'); [reflexivity | apply IH].
Qed.

(** ** Lemmas on the field checks *)

Lemma check_prompt_ok (v : Js.Value) : valid_prompt v -> check_prompt v = [].
Proof.
  intros [p [-> [Htrim Hlen]]]. unfold check_prompt, not_a_string. simpl.
  destruct (String.eqb_spec p "") as [->|Hp]; [now rewrite trim_empty in Htrim|].
  simpl.
  destruct (Nat.eqb_spec (String.length (Js.trim p)) 0); [contradiction|].
  destruct (Nat.ltb_spec 2000 (String.length p)); [lia | reflexivity].
Qed.

Lemma check_required_ok (f label : string) (allowed : list string) (v : Js.Value) :
  ~ In "" allowed -> one_of allowed v -> check_required f label allowed v = [].
Proof.
  intros Hne [s [-> Hin]]. unfold check_required, not_a_string. simpl.
  destruct (String.eqb_spec s "") as [->|Hs]; [contradiction|]. simpl.
  apply includes_spec in Hin. now rewrite Hin.
Qed.

Lemma check_optional_ok (f label : string) (allowed : list string) (v : Js.Value) :
  absent_or (one_of allowed) v -> check_optional f label allowed v = [].
Proof.
  intros [-> | [s [-> Hin]]]; [reflexivity|].
  unfold check_optional. simpl.
  apply includes_spec in Hin. now rewrite Hin.
Qed.

Lemma check_numImages_member_ok (v : Js.Value) :
  absent_or permitted_count v -> check_numImages_member v = [].
Proof.
  intros [-> | [n [z [-> [Hin Hd]]]]]; [reflexivity|].
  assert (H : Js.includes_num NUM_IMAGES_OPTIONS n = true)
    by (apply includes_num_spec; eauto).
  unfold check_numImages_member. cbn [Js.as_number]. now rewrite H.
Qed.

Lemma no_empty_choice :
  ~ In "" ASPECT_RATIOS /\ ~ In "" RESOLUTIONS /\ ~ In "" STYLES.
Proof.
  repeat split; intros H; simpl in H;
    repeat (destruct H as [H|H]; [discriminate H|]); exact H.
Qed.

Lemma satisfies_constraints_is_object (request : Js.Value) :
  valid_prompt request.["prompt"] -> not_an_object request = false.
Proof.
  intros [p [Hp _]]. apply (get_string_is_object request "prompt" Hp). discriminate.
Qed.

Lemma other_fields_valid_checks (request : Js.Value) :
  other_fields_valid request ->
  validateImageGenerationRequest request =
  if not_an_object request then
    [mkValidationError "request" "Request must be an object" None]
  else check_prompt request.["prompt"].
Proof.
  intros (Hr & Hres & Hs & Hc & Hcol & Hl & Hcomp & Hn).
  destruct no_empty_choice as (E1 & E2 & E3).
  rewrite validateImageGenerationRequest_fields.
  rewrite (check_required_ok _ _ E1 Hr), (check_required_ok _ _ E2 Hres),
    (check_required_ok _ _ E3 Hs), (check_optional_ok _ _ Hc),
    (check_optional_ok _ _ Hcol), (check_optional_ok _ _ Hl),
    (check_optional_ok _ _ Hcomp), (check_numImages_member_ok Hn).
  now rewrite app_nil_r.
Qed.

Ltac field_of_check :=
  repeat match goal with |- context [if ?c then _ else _] => destruct c end;
  simpl; intros H; repeat destruct H as [H|H];
  try contradiction; subst; reflexivity.

Lemma check_prompt_field (v : Js.Value) (e : ValidationError) :
  In e (check_prompt v) -> field e = "prompt".
Proof.
  unfold check_prompt.
  field_of_check.
Qed.

Lemma check_required_field (f label : string) (allowed : list string)
  (v : Js.Value) (e : ValidationError) :
  In e (check_required f label allowed v) -> field e = f.
Proof.
  unfold check_required.
  field_of_check.
Qed.

Lemma check_optional_field (f label : string) (allowed : list string)
  (v : Js.Value) (e : ValidationError) :
  In e (check_optional f label allowed v) -> field e = f.
Proof.
  unfold check_optional.
  field_of_check.
Qed.

Lemma check_numImages_member_field (v : Js.Value) (e : ValidationError) :
  In e (check_numImages_member v) -> field e = "numImages".
Proof.
  unfold check_numImages_member.
  field_of_check.
Qed.

Lemma check_numImages_range_field (v : Js.Value) (e : ValidationError) :
  In e (check_numImages_range v) -> field e = "numImages".
Proof.
  unfold check_numImages_range.
  field_of_check.
Qed.

Lemma check_prompt_at_most_one v : at_most_one (check_prompt v).
Proof.
  unfold check_prompt, at_most_one.
  repeat match goal with |- context [if ?c then _ else _] => destruct c end; eauto.
Qed.

Lemma check_required_at_most_one f label allowed v :
  at_most_one (check_required f label allowed v).
Proof.
  unfold check_required, at_most_one.
  repeat match goal with |- context [if ?c then _ else _] => destruct c end; eauto.
Qed.

Lemma check_optional_at_most_one f label allowed v :
  at_most_one (check_optional f label allowed v).
Proof.
  unfold check_optional, at_most_one.
  repeat match goal with |- context [if ?c then _ else _] => destruct c end; eauto.
Qed.

Lemma check_numImages_member_at_most_one v : at_most_one (check_numImages_member v).
Proof.
  unfold check_numImages_member, at_most_one.
  repeat match goal with |- context [if ?c then _ else _] => destruct c end; eauto.
Qed.

(** ** Subsequences *)

Lemma Subseq_nil_l {A : Type} (l : list A) : Subseq [] l.
Proof. induction l; constructor; assumption. Qed.

Lemma Subseq_app {A : Type} (a b c d : list A) :
  Subseq a b -> Subseq c d -> Subseq (a ++ c) (b ++ d).
Proof.
  intros Hab Hcd. induction Hab; simpl; try constructor; assumption.
Qed.

Lemma Subseq_In {A : Type} (l1 l2 : list A) (x : A) :
  Subseq l1 l2 -> In x l1 -> In x l2.
Proof.
  induction 1; simpl; intros Hin; auto.
  destruct Hin; auto.
Qed.

Lemma Subseq_NoDup {A : Type} (l1 l2 : list A) :
  Subseq l1 l2 -> NoDup l2 -> NoDup l1.
Proof.
  induction 1; intros Hnd; [constructor | |].
  - inversion Hnd; auto.
  - inversion Hnd; subst. constructor; auto.
    intros Hin. eauto using Subseq_In.
Qed.

Lemma Subseq_app_cons {A : Type} (a c d : list A) (x : A) :
  Subseq a [x] -> Subseq c d -> Subseq (a ++ c) (x :: d).
Proof. intros Ha Hc. exact (Subseq_app Ha Hc). Qed.

Ltac check_facts :=
  eauto using check_prompt_at_most_one, check_required_at_most_one,
    check_optional_at_most_one, check_numImages_member_at_most_one,
    check_prompt_field, check_required_field, check_optional_field,
    check_numImages_member_field.

Lemma fields_of_check (l : list ValidationError) (f : string) :
  at_most_one l -> (forall e, In e l -> field e = f) -> Subseq (map field l) [f].
Proof.
  intros [-> | [e ->]] Hf; simpl.
  - apply Subseq_nil_l.
  - rewrite (Hf e (or_introl eq_refl)). apply Subseq_take, Subseq_nil.
Qed.

Lemma REQUEST_FIELDS_NoDup : NoDup REQUEST_FIELDS.
Proof.
  unfold REQUEST_FIELDS.
  repeat (constructor; [simpl; intros H;
    repeat (destruct H as [H|H]; [discriminate H|]); exact H|]).
  constructor.
Qed.

Lemma generation_fields_in_order (request : Js.Value) :
  Subseq (map field (validateImageGenerationRequest request)) REQUEST_FIELDS.
Proof.
  rewrite validateImageGenerationRequest_fields.
  destruct (not_an_object request).
  - simpl. apply Subseq_take, Subseq_nil_l.
  - apply Subseq_skip. rewrite !map_app.
    repeat (apply Subseq_app_cons; [apply fields_of_check; check_facts|]).
    apply fields_of_check; check_facts.
Qed.

Lemma unknown_field_ignored (ps : list (string * Js.Value)) (k : string) (x : Js.Value) :
  ~ In k REQUEST_FIELDS ->
  validateImageGenerationRequest (Js.Obj (Js.set k x ps))
  = validateImageGenerationRequest (Js.Obj ps).
Proof.
  intros Hk.
  assert (Hget : forall f, In f REQUEST_FIELDS ->
                           (Js.Obj (Js.set k x ps)).[f] = (Js.Obj ps).[f]).
  { intros f Hf. unfold Js.get. rewrite lookup_set_other; [reflexivity|].
    intros ->. contradiction. }
  rewrite !validateImageGenerationRequest_fields.
  change (not_an_object (Js.Obj (Js.set k x ps))) with false.
  change (not_an_object (Js.Obj ps)) with false. cbv iota.
  rewrite !Hget by (simpl; tauto). reflexivity.
Qed.

(** ** Rejection of a single field *)

Lemma rejects_app (l1 l2 : list ValidationError) (f : string) :
  rejects (l1 ++ l2) f <-> rejects l1 f \/ rejects l2 f.
Proof.
  unfold rejects. split.
  - intros [e [Hin Hf]]. apply in_app_or in Hin. destruct Hin; eauto.
  - intros [[e [Hin Hf]] | [e [Hin Hf]]]; exists e; split; auto using in_or_app.
Qed.

Lemma rejects_elsewhere (l : list ValidationError) (f g : string) :
  (forall e, In e l -> field e = g) -> g <> f -> ~ rejects l f.
Proof.
  intros Hall Hne [e [Hin Hf]]. apply Hne. now rewrite <- (Hall e Hin).
Qed.

Lemma rejects_own (l : list ValidationError) (f : string) :
  (forall e, In e l -> field e = f) -> (rejects l f <-> l <> []).
Proof.
  intros Hall. split.
  - intros [e [Hin _]] ->. contradiction.
  - destruct l as [|e l]; [congruence|]. intros _.
    exists e. split; [now left | apply Hall; now left].
Qed.

Lemma check_numImages_member_Num (n : Js.Number) :
  check_numImages_member (Js.Num n) =
  if negb (Js.includes_num NUM_IMAGES_OPTIONS n) then
    [mkValidationError "numImages" "Number of images must be one of: 1, 2, 3, 4"
       (Some (Js.Num n))]
  else [].
Proof. reflexivity. Qed.

Lemma check_numImages_range_Num (n : Js.Number) :
  check_numImages_range (Js.Num n) =
  if Js.lt n (Js.of_Z 1) || Js.gt n (Js.of_Z 4) then
    [mkValidationError "numImages" "Number of images must be between 1 and 4"
       (Some (Js.Num n))]
  else [].
Proof. reflexivity. Qed.

Lemma check_numImages_member_spec (v : Js.Value) :
  v <> Js.Undefined -> (check_numImages_member v = [] <-> permitted_count v).
Proof.
  intros Hv. unfold permitted_count.
  destruct v as [| |b|n|s|items|ps]; try contradiction;
    try (split; [discriminate | intros (n' & z & H & _); discriminate H]).
  rewrite check_numImages_member_Num.
  destruct (Js.includes_num NUM_IMAGES_OPTIONS n) eqn:E; cbn [negb].
  - split; [intros _ | reflexivity].
    apply includes_num_spec in E. destruct E as [z [Hin Hd]]. eauto 6.
  - split; [discriminate|]. intros (n' & z & Heq & Hin & Hd).
    injection Heq as <-.
    assert (Js.includes_num NUM_IMAGES_OPTIONS n = true)
      by (apply includes_num_spec; eauto).
    congruence.
Qed.

Lemma check_numImages_range_spec (v : Js.Value) :
  v <> Js.Undefined -> v <> Js.Num Js.NaN ->
  (check_numImages_range v = [] <-> between_1_and_4 v).
Proof.
  intros Hv Hnan. unfold between_1_and_4.
  destruct v as [| |b|n|s|items|ps]; try contradiction;
    try (split; [discriminate | contradiction]).
  rewrite check_numImages_range_Num.
  destruct n as [|neg|q]; [contradiction | |].
  - destruct neg; split; (discriminate || contradiction).
  - unfold Js.gt, Js.lt, Js.of_Z.
    destruct (Qle_bool (inject_Z 1) q) eqn:E1;
      destruct (Qle_bool q (inject_Z 4)) eqn:E4; cbn [negb orb];
      try apply Qle_bool_iff in E1; try apply Qle_bool_iff in E4.
    + split; [intros _; split; assumption | reflexivity].
    + split; [discriminate|]. intros [_ H4]. apply Qle_bool_iff in H4.
      change (inject_Z 4) with 4 in E4. congruence.
    + split; [discriminate|]. intros [H1 _]. apply Qle_bool_iff in H1.
      change (inject_Z 1) with 1 in E1. congruence.
    + split; [discriminate|]. intros [H1 _]. apply Qle_bool_iff in H1.
      change (inject_Z 1) with 1 in E1. congruence.
Qed.



(* ================================================================== *)
(** * Request validation (lib/types.ts) *)
(* ================================================================== *)

(** C4 (as the code behaves).  For the request
    [{prompt: "", ratio: "1:1", resolution: "1024x1024", style: "realistic"}]
    the generation validator returns one error, for field [prompt], and its
    message is "Prompt must be a string": the empty string is falsy, so the
    first guard takes it and the "Prompt cannot be empty" branch, which a
    blank prompt such as two spaces does reach, is never tried. *)
Theorem empty_prompt_message :
  validateImageGenerationRequest (request_of "")
  = [mkValidationError "prompt" "Prompt must be a string" (Some (Js.Str ""))]
  /\ validateImageGenerationRequest (request_of "  ")
     = [mkValidationError "prompt" "Prompt cannot be empty" (Some (Js.Str "  "))].
Proof. split; reflexivity. Qed.






(** C7.  A request in which every field satisfies its constraint (the prompt
    a string of at most 2000 characters that is not empty once trimmed; ratio,
    resolution and style members of their sets; every optional field absent
    or a member of its set) gets the empty error list from the generation
    validator, which is a total function. *)
Theorem valid_request_has_no_errors (request : Js.Value) :
  satisfies_constraints request -> validateImageGenerationRequest request = [].
Proof.
  intros [Hprompt Hothers].
  rewrite (other_fields_valid_checks Hothers).
  rewrite (satisfies_constraints_is_object _ Hprompt).
  now apply check_prompt_ok.
Qed.

Ltac member_of_set :=
  first [ left; reflexivity
        | right; first [ eexists; split; [reflexivity | simpl; tauto]
                       | exists (Js.of_Z 2), 2%Z;
                         split; [reflexivity | split; [simpl; tauto | reflexivity]] ] ].

Lemma full_request_other_fields : other_fields_valid full_request.
Proof.
  unfold other_fields_valid.
  repeat split;
    first [ eexists; split; [reflexivity | simpl; tauto] | member_of_set ].
Defined.

Lemma valid_request_has_no_errors_witness :
  validateImageGenerationRequest full_request = [].
Proof.
  apply valid_request_has_no_errors. split.
  - exists "a cat". split; [reflexivity|]. simpl. split; [discriminate | lia].
  - exact full_request_other_fields.
Defined.

(** C9.  With the other fields valid and a prompt that is not empty once
    trimmed, a prompt of exactly 2000 characters is accepted (empty error
    list); the validator returns an error exactly when the prompt is strictly
    longer than 2000 characters, and that error is the one for field [prompt]
    whose message reads "Prompt must be less than 2000 characters". *)
Theorem prompt_length_boundary (request : Js.Value) (p : string) :
  request.["prompt"] = Js.Str p ->
  String.length (Js.trim p) <> 0%nat ->
  other_fields_valid request ->
  (String.length p = 2000%nat -> validateImageGenerationRequest request = [])
  /\ (validateImageGenerationRequest request <> []
      <-> (2000 < String.length p)%nat)
  /\ ((2000 < String.length p)%nat ->
      validateImageGenerationRequest request
      = [mkValidationError "prompt" "Prompt must be less than 2000 characters"
           (Some (Js.Str p))]).
Proof.
  intros Hp Htrim Hothers.
  assert (Hobj : not_an_object request = false)
    by (eapply get_string_is_object; [exact Hp | discriminate]).
  rewrite (other_fields_valid_checks Hothers), Hobj, Hp.
  unfold check_prompt, not_a_string. cbn [Js.truthy Js.typeof Js.as_string].
  destruct (String.eqb_spec p "") as [->|Hne]; [now rewrite trim_empty in Htrim|].
  change ("string" =? "string") with true. cbn [negb orb].
  destruct (Nat.eqb_spec (String.length (Js.trim p)) 0); [contradiction|].
  destruct (Nat.ltb_spec 2000 (String.length p)) as [Hlong|Hshort].
  - repeat split; intros; try reflexivity; try lia; discriminate.
  - repeat split; intros; try reflexivity; try lia; congruence.
Qed.

Lemma request_of_other_fields (p : string) : other_fields_valid (request_of p).
Proof.
  unfold other_fields_valid.
  repeat split;
    first [ eexists; split; [reflexivity | simpl; tauto] | left; reflexivity ].
Defined.

Lemma boundary_prompt_length : String.length boundary_prompt = 2000%nat.
Proof. vm_compute. reflexivity. Defined.

Lemma boundary_prompt_not_blank : String.length (Js.trim boundary_prompt) <> 0%nat.
Proof. vm_compute. discriminate. Defined.

Lemma prompt_length_boundary_witness :
  validateImageGenerationRequest (request_of boundary_prompt) = [].
Proof.
  exact (proj1 (@prompt_length_boundary (request_of boundary_prompt) boundary_prompt
                  eq_refl boundary_prompt_not_blank (request_of_other_fields _))
           boundary_prompt_length).
Defined.

(** C10.  Whatever the candidate, the field names of the errors returned by
    the generation validator form a subsequence of
    [request, prompt, ratio, resolution, style, contentType, colorTone,
     lighting, composition, numImages]: every error names a field of that
    set, no field is named twice, and the errors come in that order.
    Setting a property whose name is outside the set never changes the
    result. *)
Theorem generation_errors_follow_field_order :
  (forall request,
      Subseq (map field (validateImageGenerationRequest request)) REQUEST_FIELDS)
  /\ (forall request, NoDup (map field (validateImageGenerationRequest request)))
  /\ (forall request e,
         In e (validateImageGenerationRequest request) -> In (field e) REQUEST_FIELDS)
  /\ (forall ps k x,
         ~ In k REQUEST_FIELDS ->
         validateImageGenerationRequest (Js.Obj (Js.set k x ps))
         = validateImageGenerationRequest (Js.Obj ps)).
Proof.
  repeat split.
  - apply generation_fields_in_order.
  - intros request.
    exact (Subseq_NoDup (generation_fields_in_order request) REQUEST_FIELDS_NoDup).
  - intros request e Hin.
    apply (@Subseq_In _ (map field (validateImageGenerationRequest request))
             REQUEST_FIELDS (field e) (generation_fields_in_order request)).
    apply in_map. exact Hin.
  - apply unknown_field_ignored.
Qed.

(** C8.  Whenever [createImageGenerationRequest] returns (does not throw),
    the object it returns gets the empty error list from
    [validateImageGenerationRequest]; likewise [createPromptRewriteRequest]
    and [validatePromptRewriteRequest]. *)
Theorem built_request_revalidates :
  (forall prompt ratio resolution style contentType colorTone lighting composition
          numImages request,
      createImageGenerationRequest prompt ratio resolution style contentType
        colorTone lighting composition numImages = Js.Return request ->
      validateImageGenerationRequest request = [])
  /\ (forall prompt request,
         createPromptRewriteRequest prompt = Js.Return request ->
         validatePromptRewriteRequest request = []).
Proof.
  split.
  - intros prompt ratio resolution style contentType colorTone lighting composition
      numImages request.
    cbv delta [createImageGenerationRequest]; cbv beta zeta.
    match goal with
    | |- context [validateImageGenerationRequest ?x] =>
        destruct (validateImageGenerationRequest x) eqn:E
    end; cbn [List.length Nat.ltb Nat.leb]; intros H.
    + injection H as <-. exact E.
    + discriminate H.
  - intros prompt request.
    cbv delta [createPromptRewriteRequest]; cbv beta zeta.
    match goal with
    | |- context [validatePromptRewriteRequest ?x] =>
        destruct (validatePromptRewriteRequest x) eqn:E
    end; cbn [List.length Nat.ltb Nat.leb]; intros H.
    + injection H as <-. exact E.
    + discriminate H.
Qed.

Lemma built_request_revalidates_witness :
  validateImageGenerationRequest
    (Js.Obj [("prompt", Js.Str "a cat"); ("ratio", Js.Str "1:1");
             ("resolution", Js.Str "512x512"); ("style", Js.Str "artistic");
             ("colorTone", Js.Str "golden"); ("numImages", Js.Num (Js.of_Z 2))]) = []
  /\ validatePromptRewriteRequest (Js.Obj [("prompt", Js.Str "a cat")]) = [].
Proof.
  split.
  - exact (proj1 built_request_revalidates "a cat" "1:1" "512x512" "artistic"
             (Some "none") (Some "golden") None (Some "") (Some (Js.of_Z 2)) _ eq_refl).
  - exact (proj2 built_request_revalidates "a cat" _ eq_refl).
Defined.

(* ================================================================== *)
(** * The HTTP client (lib/api.ts) *)
(* ================================================================== *)

(** ** Evaluation lemmas *)

Lemma authenticatedFetch_eval network url options w :
  live (signal options) = true ->
  authenticatedFetch network url options w =
  match network (outgoing url options w) with
  | Responds r =>
      if (status r =? 401)%nat
      then (Js.Throw (Service authentication_required),
            signed_out (sent (outgoing url options w) w))
      else (Js.Return r, sent (outgoing url options w) w)
  | NetworkFailure =>
      (Js.Throw (Other (ForeignError FetchFailed)), sent (outgoing url options w) w)
  | AbortedInFlight =>
      (Js.Throw (Other (ForeignError AbortError)), sent (outgoing url options w) w)
  end.
Proof.
  intros Hlive.
  unfold authenticatedFetch, getAuthHeaders, bind, Cookies.get, fetch, ret.
  cbn [signal method headers body].
  replace (match signal options with Some s => aborted s | None => false end)
    with false
    by (destruct (signal options) as [s|];
        [simpl in Hlive; now destruct (aborted s) | reflexivity]).
  fold (auth_headers w). fold (outgoing url options w).
  destruct (network (outgoing url options w)) as [r| |];
    [destruct (status r =? 401)%nat|..]; reflexivity.
Qed.

Lemma effective_signal_eval (signal : option AbortSignal) (id : nat) (w : World) :
  live signal = true ->
  match signal with
  | Some signal0 =>
      if aborted signal0 then
        clearTimeout id ;;
        throw (Other (ForeignError (Js.new_Error "Request was already cancelled")))
      else ret signal0
  | None => ret (mkAbortSignal false)
  end w = (Js.Return (effective signal), w).
Proof.
  intros Hlive. destruct signal as [s|]; [|reflexivity].
  simpl in Hlive. destruct (aborted s); [discriminate | reflexivity].
Qed.

Lemma live_effective (signal : option AbortSignal) :
  live signal = true -> live (Some (effective signal)) = true.
Proof. destruct signal; auto. Qed.

Lemma ok_not_401 (response : Response) :
  ok response = true -> (status response =? 401)%nat = false.
Proof.
  unfold ok. intros H. apply andb_prop in H. destruct H as [_ H].
  apply Nat.leb_le in H. apply Nat.eqb_neq. lia.
Qed.

Lemma lookup_removed {A : Type} (k : string) (l : list (string * A)) :
  Js.lookup k (filter (fun kv => negb (fst kv =? k)) l) = None.
Proof.
  induction l as [|[k0 v0] l IH]; [reflexivity|]. simpl.
  destruct (k0 =? k) eqn:E; simpl; [exact IH | now rewrite E].
Qed.

Lemma not_a_string_false (v : Js.Value) :
  not_a_string v = false -> exists s, v = Js.Str s /\ Js.truthy v = true.
Proof.
  unfold not_a_string. intros H. apply orb_false_elim in H. destruct H as [Ht Hs].
  apply negb_false_iff in Ht.
  destruct v; try discriminate Hs. eauto.
Qed.

Lemma or_truthy (v d : Js.Value) : Js.truthy v = true -> Js.or v d = v.
Proof. unfold Js.or. now intros ->. Qed.

Lemma generation_failure_body (data : Js.Value) :
  data.["success"] = Js.Bool false ->
  validateImageGenerationResponse data = [] ->
  not_a_string data.["error"] = false.
Proof.
  intros Hs Hv. unfold validateImageGenerationResponse in Hv.
  rewrite Hs in Hv.
  destruct (not_an_object data); [discriminate Hv|].
  cbn [is_false Js.typeof] in Hv.
  destruct (not_a_string data.["error"]); [discriminate Hv | reflexivity].
Qed.

Lemma rewrite_failure_body (data : Js.Value) :
  data.["success"] = Js.Bool false ->
  validatePromptRewriteResponse data = [] ->
  not_an_object data = false /\ not_a_string data.["error"] = false.
Proof.
  intros Hs Hv. unfold validatePromptRewriteResponse in Hv.
  rewrite Hs in Hv.
  destruct (not_an_object data); [discriminate Hv|].
  cbn [is_false Js.typeof] in Hv.
  destruct (not_a_string data.["error"]); [discriminate Hv | split; reflexivity].
Qed.

(** Reduce the binds whose first computation is known. *)
Ltac run_binds := cbv beta iota zeta delta [bind ret negb clearTimeout].

(** Run a client method up to the answer of [authenticatedFetch]. *)
Ltac enter_client Hlive :=
  cbn [List.length Nat.ltb Nat.leb];
  unfold bind at 1; unfold ret at 1;
  unfold bind at 1; unfold setTimeout at 1;
  unfold bind at 1;
  rewrite (@effective_signal_eval _ _ _ Hlive);
  unfold try_catch;
  unfold bind at 1;
  rewrite authenticatedFetch_eval by (exact (@live_effective _ Hlive)).

(** ** Responses with the success flag off *)

(** C1, amended.  When the server answers with a 2xx response whose JSON
    body has [success] equal to [false]: [generateImages] and [rewritePrompt],
    given a request that validates, a token that is not aborted and a body
    that passes their response validator, throw a service error whose message
    is the body's error string and whose code is the body's code when that is
    truthy and API_ERROR otherwise, so the body is not returned; the thin
    wrapper [generateVideo] does not look at the flag and returns the parsed
    body to its caller. *)
Theorem failure_body_outcome (network : Network) (response : Response)
  (data : Js.Value) (w : World) :
  answers_with network response ->
  ok response = true ->
  json_body response = Some data ->
  data.["success"] = Js.Bool false ->
  (forall this request signal,
      validateImageGenerationRequest request = [] ->
      live signal = true ->
      validateImageGenerationResponse data = [] ->
      exists s, data.["error"] = Js.Str s
        /\ fst (generateImages_method network this request signal w)
           = Js.Throw (Service (ApiServiceError.new (Js.Str s)
                                  (Some (Js.or data.["code"] (Js.Str "API_ERROR")))
                                  (Some (DetailsValue data.["details"])) None)))
  /\ (forall this request signal,
      validatePromptRewriteRequest request = [] ->
      live signal = true ->
      validatePromptRewriteResponse data = [] ->
      exists s, data.["error"] = Js.Str s
        /\ fst (rewritePrompt_method network this request signal w)
           = Js.Throw (Service (ApiServiceError.new (Js.Str s)
                                  (Some (Js.or data.["code"] (Js.Str "API_ERROR")))
                                  (Some (DetailsValue data.["details"])) None)))
  /\ (forall request signal,
      live signal = true ->
      fst (generateVideo network request signal w) = Js.Return data).
Proof.
  intros Hnet Hok Hjson Hsucc. repeat split.
  - intros this request signal Hreq Hlive Hresp.
    pose proof (@generation_failure_body _ Hsucc Hresp) as Herr.
    destruct (@not_a_string_false _ Herr) as [s [Hs Htruthy]].
    exists s. split; [exact Hs|].
    unfold generateImages_method, validateRequest. rewrite Hreq.
    enter_client Hlive.
    rewrite Hnet, (@ok_not_401 _ Hok).
    unfold parseResponse, json, validateResponse, isApiError.
    rewrite Hok, Hjson. run_binds.
    rewrite Hresp, Hsucc, (@or_truthy _ _ Htruthy), Hs.
    reflexivity.
  - intros this request signal Hreq Hlive Hresp.
    destruct (@rewrite_failure_body _ Hsucc Hresp) as [Hobj Herr].
    destruct (@not_a_string_false _ Herr) as [s [Hs Htruthy]].
    exists s. split; [exact Hs|].
    unfold rewritePrompt_method, validateRewriteRequest. rewrite Hreq.
    enter_client Hlive.
    rewrite Hnet, (@ok_not_401 _ Hok).
    unfold parseResponse, json, validateRewriteResponse.
    unfold not_an_object in Hobj. apply orb_false_elim in Hobj.
    destruct Hobj as [Ht Hty]. apply negb_false_iff in Ht, Hty.
    rewrite Hok, Hjson. run_binds.
    rewrite Hresp, Hsucc, Ht, Hty, (@or_truthy _ _ Htruthy), Hs.
    reflexivity.
  - intros request signal Hlive.
    unfold generateVideo, try_catch. unfold bind at 1.
    rewrite authenticatedFetch_eval by exact Hlive.
    rewrite Hnet, (@ok_not_401 _ Hok).
    unfold json. rewrite Hok, Hjson. reflexivity.
Qed.

Lemma failure_body_outcome_witness :
  exists s, quota_body.["error"] = Js.Str s
    /\ fst (generateImages_method (server (mkResponse 200 "OK" (Some quota_body)))
              imageGenerationAPI (request_of "a cat") None signed_in_world)
       = Js.Throw (Service (ApiServiceError.new (Js.Str s)
                              (Some (Js.or quota_body.["code"] (Js.Str "API_ERROR")))
                              (Some (DetailsValue quota_body.["details"])) None)).
Proof.
  refine (proj1 (@failure_body_outcome (server (mkResponse 200 "OK" (Some quota_body)))
                   (mkResponse 200 "OK" (Some quota_body)) quota_body signed_in_world
                   _ eq_refl eq_refl eq_refl)
            imageGenerationAPI (request_of "a cat") None eq_refl eq_refl eq_refl).
  intros rq. reflexivity.
Defined.

(** C1 as stated fails on [generateVideo]: on the 200 response with body
    [{success: false, error: "quota exceeded", code: "API_ERROR"}] the call
    returns that object as its value. *)
Lemma generateVideo_returns_failure_body :
  fst (generateVideo (server (mkResponse 200 "OK" (Some quota_body)))
         (Js.Obj [("prompt", Js.Str "a cat")]) None signed_in_world)
  = Js.Return quota_body.
Proof. reflexivity. Qed.

(** ** A token that is already aborted *)

(** C2 (as the code behaves).  Called with a request that validates and a
    caller token that is already aborted, [generateImages] and [rewritePrompt]
    put no request on the wire and fail at once; what they throw is the plain
    [Error("Request was already cancelled")], raised before the [try] block,
    so it is never turned into a service error and carries no
    REQUEST_CANCELLED code. *)
Theorem aborted_token_outcome (network : Network) (this : ImageGenerationAPI)
  (request : Js.Value) (signal : AbortSignal) (w : World) :
  aborted signal = true ->
  (validateImageGenerationRequest request = [] ->
   fst (generateImages_method network this request (Some signal) w)
   = Js.Throw (Other (ForeignError (Js.new_Error "Request was already cancelled")))
   /\ requests (snd (generateImages_method network this request (Some signal) w))
      = requests w)
  /\ (validatePromptRewriteRequest request = [] ->
      fst (rewritePrompt_method network this request (Some signal) w)
      = Js.Throw (Other (ForeignError (Js.new_Error "Request was already cancelled")))
      /\ requests (snd (rewritePrompt_method network this request (Some signal) w))
         = requests w).
Proof.
  intros Haborted. split; intros Hreq.
  - unfold generateImages_method, validateRequest. rewrite Hreq, Haborted.
    split; reflexivity.
  - unfold rewritePrompt_method, validateRewriteRequest. rewrite Hreq, Haborted.
    split; reflexivity.
Qed.

Lemma aborted_token_outcome_witness :
  fst (generateImages_method (server (mkResponse 200 "OK" (Some quota_body)))
         imageGenerationAPI (request_of "a cat") (Some (mkAbortSignal true))
         signed_in_world)
  = Js.Throw (Other (ForeignError (Js.new_Error "Request was already cancelled")))
  /\ requests (snd (generateImages_method
                      (server (mkResponse 200 "OK" (Some quota_body)))
                      imageGenerationAPI (request_of "a cat")
                      (Some (mkAbortSignal true)) signed_in_world))
     = requests signed_in_world.
Proof.
  exact (proj1 (@aborted_token_outcome (server (mkResponse 200 "OK" (Some quota_body)))
                  imageGenerationAPI (request_of "a cat") (mkAbortSignal true)
                  signed_in_world eq_refl) eq_refl).
Defined.

(** ** Construction of the service error *)

Lemma member_run (v : Js.Value) (k : string) (w : World) :
  ~ nullish v -> member v k w = (Js.Return v.[k], w).
Proof.
  unfold nullish. intros H. destruct v; try reflexivity; exfalso; apply H; auto.
Qed.

Lemma Value_nested_ind (P : Js.Value -> Prop) :
  P Js.Undefined -> P Js.Null -> (forall b, P (Js.Bool b)) ->
  (forall n, P (Js.Num n)) -> (forall s, P (Js.Str s)) ->
  (forall items, Forall P items -> P (Js.Arr items)) ->
  (forall props, Forall (fun kv => P (snd kv)) props -> P (Js.Obj props)) ->
  forall v, P v.
Proof.
  intros HU HN HB HNum HS HA HO. fix IH 1.
  intros [| |b|n|s|items|props];
    [exact HU | exact HN | apply HB | apply HNum | apply HS | | ].
  - apply HA. revert items. fix IHl 1.
    intros [|x r]; constructor; [apply IH | apply IHl].
  - apply HO. revert props. fix IHl 1.
    intros [|[k x] r]; constructor; [apply IH | apply IHl].
Qed.

Lemma ToString_throws_TypeError (v : Js.Value) (e : Js.Error) :
  Js.ToString v = Js.Throw e -> Js.error_class e = Js.TypeError.
Proof.
  revert e. induction v as [| |b|n|s|items IH|props IH] using Value_nested_ind;
    intros e; cbn [Js.ToString]; try discriminate.
  - destruct n as [|neg|q]; try discriminate.
    destruct (Js.safe_integer q); discriminate.
  - assert (Hitems : forall e', Js.elements Js.ToString items = Js.Throw e' ->
                                Js.error_class e' = Js.TypeError).
    { induction IH as [|x r Hx _ IHr]; intros e'; cbn [Js.elements]; [discriminate|].
      destruct (match x with
                | Js.Undefined | Js.Null => Js.Return (Js.Chars "")
                | _ => Js.ToString x
                end) as [text|e0] eqn:Hc.
      - destruct (Js.elements Js.ToString r) as [texts|e1]; [discriminate|].
        intros H. injection H as <-. now apply IHr.
      - intros H. injection H as <-.
        destruct x; try discriminate Hc; now apply Hx. }
    destruct (Js.elements Js.ToString items) as [texts|e0].
    + destruct (Js.all_chars texts); discriminate.
    + intros H. injection H as <-. now apply Hitems.
  - destruct (Js.lookup "toString" props); [|discriminate].
    intros H. injection H as <-. reflexivity.
Qed.

Lemma edit_form_throws_TypeError (imageFile request : Js.Value) (e : Js.Error) :
  edit_form imageFile request = Js.Throw e -> Js.error_class e = Js.TypeError.
Proof.
  unfold edit_form, append_value.
  destruct request as [| |b|n|s|items|ps];
    try (intros H; injection H as <-; reflexivity);
    repeat match goal with
           | |- context [Js.ToString ?v] =>
               let E := fresh "E" in
               destruct (Js.ToString v) eqn:E;
               [ | intros H; injection H as <-;
                   now apply (ToString_throws_TypeError _ E) ]
           end;
    (destruct (negb (Js.is_undefined _)); [|discriminate]);
    (destruct (Js.toString_method _) eqn:E'; [discriminate|]);
    intros H; injection H as <-;
    unfold Js.toString_method in E';
    match type of E' with
    | match ?v with _ => _ end = _ =>
        destruct v; try (injection E' as <-; reflexivity);
        now apply (ToString_throws_TypeError _ E')
    end.
Qed.

Lemma construct_returns (message : Js.Value) (code : option Js.Value)
  (details : option Details) (validationErrors : option (list ValidationError))
  (e : ApiServiceError.t) :
  ApiServiceError.construct message code details validationErrors = Js.Return e ->
  e = ApiServiceError.new message code details validationErrors.
Proof.
  unfold ApiServiceError.construct.
  destruct message; try (intros H; injection H as <-; reflexivity);
    match goal with
    | |- context [Js.ToString ?v] => destruct (Js.ToString v)
    end; intros H; try discriminate H; injection H as <-; reflexivity.
Qed.

Lemma construct_message (message : Js.Value) (code : option Js.Value)
  (details : option Details) (validationErrors : option (list ValidationError))
  (e : ApiServiceError.t) :
  ApiServiceError.construct message code details validationErrors = Js.Return e ->
  message <> Js.Undefined ->
  Js.ToString message = Js.Return (ApiServiceError.message e).
Proof.
  intros H Hm. rewrite (@construct_returns _ _ _ _ _ H).
  unfold ApiServiceError.construct in H.
  cbn [ApiServiceError.new ApiServiceError.message].
  unfold ApiServiceError.stored_message.
  destruct message; try contradiction;
    destruct (Js.ToString _); try discriminate H; reflexivity.
Qed.

Lemma throw_new_run {A : Type} (message : Js.Value) (code : option Js.Value)
  (details : option Details) (validationErrors : option (list ValidationError))
  (w : World) :
  @throw_new A message code details validationErrors w
  = match ApiServiceError.construct message code details validationErrors with
    | Js.Return e => (Js.Throw (Service e), w)
    | Js.Throw e => (Js.Throw (Other (ForeignError e)), w)
    end.
Proof.
  unfold throw_new.
  destruct (ApiServiceError.construct message code details validationErrors);
    reflexivity.
Qed.




(** ** A response with status 401 *)

Lemma signed_out_by_eval {A : Type} (before w' : World) :
  navigations w' = navigations before ->
  @signed_out_by A before (Js.Throw (Service authentication_required), signed_out w').
Proof.
  intros Hnav. unfold signed_out_by. cbn [fst snd signed_out cookies navigations].
  repeat split; [apply lookup_removed | now rewrite Hnav].
Qed.

Lemma live_not_aborted (sg : option AbortSignal) :
  live sg = true -> match sg with Some s => aborted s | None => false end = false.
Proof.
  destruct sg as [s|]; [|reflexivity]. simpl. now destruct (aborted s).
Qed.

(** [editImage] builds its form, then sends it and deals with the answer. *)
Lemma editImage_eval (network : Network) (imageFile request : Js.Value)
  (sg : option AbortSignal) (w : World) :
  editImage network imageFile request sg w =
  match edit_form imageFile request with
  | Js.Throw e => (Js.Throw (Other (ForeignError e)), w)
  | Js.Return formData =>
      if match sg with Some s => aborted s | None => false end then
        (Js.Throw (Other (ForeignError AbortError)), w)
      else
        match network (edit_request formData w) with
        | Responds r => edit_answer r (sent (edit_request formData w) w)
        | NetworkFailure =>
            (Js.Throw (Other (ForeignError FetchFailed)),
             sent (edit_request formData w) w)
        | AbortedInFlight =>
            (Js.Throw (Other (ForeignError AbortError)),
             sent (edit_request formData w) w)
        end
  end.
Proof.
  unfold editImage, edit_form.
  destruct request as [| |b|n|s|items|ps]; try reflexivity;
    cbn [member]; unfold bind at 1; cbn [ret];
    (destruct (append_value _ "prompt" _) as [f1|e1]; [|reflexivity]);
    cbn [await]; unfold bind at 1; cbn [ret]; unfold bind at 1; cbn [ret];
    (destruct (append_value f1 "editMode" _) as [f2|e2]; [|reflexivity]);
    cbn [await]; unfold bind at 1; cbn [ret]; unfold bind at 1; cbn [ret];
    (destruct (append_value f2 "maskMode" _) as [f3|e3]; [|reflexivity]);
    cbn [await]; unfold bind at 1; cbn [ret]; unfold bind at 1; cbn [ret];
    unfold bind at 1;
    (destruct (negb (Js.is_undefined _));
     [ destruct (Js.toString_method _) as [text|e4]; [|reflexivity] | ]);
    cbn [await bind ret]; unfold bind, Cookies.get, fetch;
    cbn [signal method headers body];
    (destruct (match sg with Some s => aborted s | None => false end);
     [reflexivity|]);
    unfold edit_request, edit_headers, sent;
    match goal with
    | |- context [network ?rq] => destruct (network rq)
    end; reflexivity.
Qed.

Lemma check_prompt_string (v : Js.Value) :
  check_prompt v = [] -> exists s, v = Js.Str s.
Proof.
  unfold check_prompt. destruct (not_a_string v) eqn:H; [discriminate|].
  intros _. destruct (not_a_string_false _ H) as [s [Hs _]]. eauto.
Qed.

Lemma check_required_string (f label : string) (allowed : list string) (v : Js.Value) :
  check_required f label allowed v = [] -> exists s, v = Js.Str s.
Proof.
  unfold check_required. destruct (not_a_string v) eqn:H; [discriminate|].
  intros _. destruct (not_a_string_false _ H) as [s [Hs _]]. eauto.
Qed.

Lemma check_numImages_range_number (v : Js.Value) :
  check_numImages_range v = [] -> v = Js.Undefined \/ exists n, v = Js.Num n.
Proof.
  destruct v; try discriminate; eauto.
Qed.

Lemma toString_number (n : Js.Number) : exists text, Js.ToString (Js.Num n) = Js.Return text.
Proof.
  destruct n as [|neg|q]; cbn [Js.ToString]; eauto.
  destruct (Js.safe_integer q); eauto.
Qed.

(** A request the edit validator accepts always gives a form. *)
Lemma accepted_request_builds (imageFile request : Js.Value) :
  validateImageEditRequest request = [] ->
  exists formData, edit_form imageFile request = Js.Return formData.
Proof.
  rewrite validateImageEditRequest_fields.
  destruct (not_an_object request) eqn:Hobj; [discriminate|].
  intros H.
  apply app_eq_nil in H. destruct H as [Hp H].
  apply app_eq_nil in H. destruct H as [He H].
  apply app_eq_nil in H. destruct H as [Hm Hn].
  destruct (check_prompt_string _ Hp) as [p Hp'].
  destruct (check_required_string _ _ _ _ He) as [e He'].
  destruct (check_required_string _ _ _ _ Hm) as [m Hm'].
  unfold edit_form.
  destruct request as [| |b|n|s|items|ps]; try discriminate Hobj;
    rewrite Hp', He', Hm'; unfold append_value; cbn [Js.ToString];
    (destruct (check_numImages_range_number _ Hn) as [->|[k ->]];
     [ cbn [Js.is_undefined negb]; eauto
     | cbn [Js.is_undefined negb Js.toString_method];
       destruct (toString_number k) as [text ->]; eauto ]).
Qed.

(** C6.  When the server answers with status 401, every call made through
    [authenticatedFetch] ([authenticatedFetch] itself, [generateImages] and
    [rewritePrompt] on a request that validates, [generateVideo]), and
    [editImage] with its own copy of the check, started with a token that is
    not aborted, fails with the service error of code HTTP_401, leaves no
    stored credential, and adds exactly one navigation to the entry point
    ["/"].  [editImage] gets to its request when the form it builds from its
    arguments can be built, as it can from every request the edit validator
    accepts; when it cannot, the call throws the error of the form, sends
    nothing and receives no response, so nobody is signed out. *)
Theorem unauthorized_response_signs_out (network : Network) (w : World) :
  answers_401 network ->
  (forall url options,
      live (signal options) = true ->
      signed_out_by w (authenticatedFetch network url options w))
  /\ (forall this request signal,
         validateImageGenerationRequest request = [] ->
         live signal = true ->
         signed_out_by w (generateImages_method network this request signal w))
  /\ (forall this request signal,
         validatePromptRewriteRequest request = [] ->
         live signal = true ->
         signed_out_by w (rewritePrompt_method network this request signal w))
  /\ (forall request signal,
         live signal = true ->
         signed_out_by w (generateVideo network request signal w))
  /\ (forall imageFile request signal formData,
         edit_form imageFile request = Js.Return formData ->
         live signal = true ->
         signed_out_by w (editImage network imageFile request signal w))
  /\ (forall imageFile request signal,
         validateImageEditRequest request = [] ->
         live signal = true ->
         signed_out_by w (editImage network imageFile request signal w))
  /\ (forall imageFile request signal e,
         edit_form imageFile request = Js.Throw e ->
         editImage network imageFile request signal w
         = (Js.Throw (Other (ForeignError e)), w)).
Proof.
  intros Hnet.
  assert (Hedit : forall imageFile request signal formData,
             edit_form imageFile request = Js.Return formData ->
             live signal = true ->
             signed_out_by w (editImage network imageFile request signal w)).
  { intros imageFile request sg formData Hform Hlive.
    rewrite editImage_eval, Hform, (live_not_aborted _ Hlive).
    destruct (Hnet (edit_request formData w)) as [r [-> H401]].
    unfold edit_answer. rewrite H401. unfold signed_out_by.
    split; [reflexivity | split; [apply lookup_removed | reflexivity]]. }
  repeat apply conj.
  - intros url options Hlive.
    rewrite authenticatedFetch_eval by exact Hlive.
    destruct (Hnet (outgoing url options w)) as [r [-> H401]]. rewrite H401.
    now apply signed_out_by_eval.
  - intros this request signal Hreq Hlive.
    unfold generateImages_method, validateRequest. rewrite Hreq.
    enter_client Hlive.
    match goal with
    | |- context [network ?rq] => destruct (Hnet rq) as [r [-> H401]]
    end.
    rewrite H401. now apply signed_out_by_eval.
  - intros this request signal Hreq Hlive.
    unfold rewritePrompt_method, validateRewriteRequest. rewrite Hreq.
    enter_client Hlive.
    match goal with
    | |- context [network ?rq] => destruct (Hnet rq) as [r [-> H401]]
    end.
    rewrite H401. now apply signed_out_by_eval.
  - intros request signal Hlive.
    unfold generateVideo, try_catch. unfold bind at 1.
    rewrite authenticatedFetch_eval by exact Hlive.
    match goal with
    | |- context [network ?rq] => destruct (Hnet rq) as [r [-> H401]]
    end.
    rewrite H401. now apply signed_out_by_eval.
  - exact Hedit.
  - intros imageFile request sg Hvalid Hlive.
    destruct (accepted_request_builds imageFile _ Hvalid) as [formData Hform].
    now apply (Hedit imageFile request sg formData).
  - intros imageFile request sg e Hform.
    rewrite editImage_eval, Hform. reflexivity.
Qed.

Lemma unauthorized_response_signs_out_witness :
  signed_out_by signed_in_world
    (generateImages_method (server (mkResponse 401 "Unauthorized" None))
       imageGenerationAPI (request_of "a cat") None signed_in_world).
Proof.
  refine (proj1 (proj2 (@unauthorized_response_signs_out
                          (server (mkResponse 401 "Unauthorized" None))
                          signed_in_world _))
            imageGenerationAPI (request_of "a cat") None eq_refl eq_refl).
  intros rq. exists (mkResponse 401 "Unauthorized" None). split; reflexivity.
Defined.

(* ================================================================== *)
(** * Further properties *)
(* ================================================================== *)

(** ** Requests the generation validator accepts *)

Lemma check_prompt_sound (v : Js.Value) : check_prompt v = [] -> valid_prompt v.
Proof.
  unfold check_prompt. intros H.
  destruct (not_a_string v) eqn:Hs; [discriminate H|].
  destruct (@not_a_string_false v Hs) as [p [-> _]]. cbn [Js.as_string] in H.
  destruct (Nat.eqb_spec (String.length (Js.trim p)) 0); [discriminate H|].
  destruct (Nat.ltb_spec 2000 (String.length p)); [discriminate H|].
  exists p. repeat split; assumption.
Qed.

Lemma check_prompt_spec (v : Js.Value) : check_prompt v = [] <-> valid_prompt v.
Proof. split; [apply check_prompt_sound | apply check_prompt_ok]. Qed.

Lemma check_required_sound f label allowed v :
  check_required f label allowed v = [] -> one_of allowed v.
Proof.
  unfold check_required. intros H.
  destruct (not_a_string v) eqn:Hs; [discriminate H|].
  destruct (@not_a_string_false v Hs) as [s [-> _]]. cbn [Js.as_string] in H.
  destruct (Js.includes allowed s) eqn:Hi; [|discriminate H].
  exists s. split; [reflexivity | now apply includes_spec].
Qed.

Lemma check_optional_sound f label allowed v :
  check_optional f label allowed v = [] -> absent_or (one_of allowed) v.
Proof.
  unfold check_optional. intros H.
  destruct v as [| |b|n|s|items|ps]; try discriminate H; [now left|].
  right. cbn in H.
  change (existsb (fun x : string => x =? s) allowed) with (Js.includes allowed s) in H.
  destruct (Js.includes allowed s) eqn:Hi; [|discriminate H].
  exists s. split; [reflexivity | now apply includes_spec].
Qed.

Lemma check_numImages_member_sound v :
  check_numImages_member v = [] -> absent_or permitted_count v.
Proof.
  intros H. destruct v as [| |b|n|s|items|ps]; try (now left);
    right; apply check_numImages_member_spec; (discriminate || assumption).
Qed.

Lemma validateImageGenerationRequest_nil (request : Js.Value) :
  validateImageGenerationRequest request = [] -> satisfies_constraints request.
Proof.
  rewrite validateImageGenerationRequest_fields.
  destruct (not_an_object request); [discriminate|].
  intros H.
  repeat (apply app_eq_nil in H; let H1 := fresh "H" in destruct H as [H1 H]).
  unfold satisfies_constraints, other_fields_valid.
  repeat split;
    eauto using check_prompt_sound, check_required_sound, check_optional_sound,
      check_numImages_member_sound.
Qed.

(** X1.  A candidate that the generation validator accepts (empty error list)
    satisfies every field constraint: the prompt is a string of at most 2000
    characters that is not empty once trimmed, ratio, resolution and style
    are members of their sets, and each optional field is absent or a member
    of its set. *)
Theorem accepted_request_satisfies_constraints (request : Js.Value) :
  validateImageGenerationRequest request = [] -> satisfies_constraints request.
Proof. apply validateImageGenerationRequest_nil. Qed.

Lemma accepted_request_satisfies_constraints_witness :
  satisfies_constraints full_request.
Proof. exact (@accepted_request_satisfies_constraints full_request eq_refl). Defined.

Lemma accepted_by_checks (request : Js.Value) :
  satisfies_constraints request -> validateImageGenerationRequest request = [].
Proof.
  intros [Hprompt Hothers].
  rewrite (other_fields_valid_checks Hothers).
  rewrite (@satisfies_constraints_is_object _ Hprompt).
  now apply check_prompt_ok.
Qed.

(** ** The request builders *)

Lemma get_set_same (k : string) (x : Js.Value) ps :
  (Js.Obj (Js.set k x ps)).[k] = x.
Proof.
  unfold Js.get.
  induction ps as [|[k0 v0] ps IH]; simpl.
  - now rewrite String.eqb_refl.
  - destruct (String.eqb_spec k0 k) as [->|Hk0]; simpl.
    + now rewrite String.eqb_refl.
    + destruct (String.eqb_spec k0 k); [contradiction | apply IH].
Qed.

Lemma get_set_other (k k' : string) (x : Js.Value) ps :
  (k =? k') = false -> (Js.Obj (Js.set k x ps)).[k'] = (Js.Obj ps).[k'].
Proof.
  intros H. unfold Js.get. rewrite lookup_set_other; [reflexivity|].
  now apply String.eqb_neq.
Qed.

Lemma get_set_filter_other (k k' : string) (x : option string) ps :
  (k =? k') = false -> (Js.Obj (set_filter k x ps)).[k'] = (Js.Obj ps).[k'].
Proof.
  intros H. unfold set_filter. destruct x as [s|]; [|reflexivity].
  destruct (negb (s =? "") && negb (s =? "none")); [|reflexivity].
  now apply get_set_other.
Qed.

Lemma get_set_filter_same (k : string) (x : option string) ps :
  (Js.Obj ps).[k] = Js.Undefined -> (Js.Obj (set_filter k x ps)).[k] = filter_value x.
Proof.
  intros H. unfold set_filter, filter_value. destruct x as [s|]; [|exact H].
  destruct (negb (s =? "") && negb (s =? "none")); [|exact H].
  apply get_set_same.
Qed.

Lemma get_set_count_other (k' : string) (n : option Js.Number) ps :
  ("numImages" =? k') = false ->
  (Js.Obj match n with Some x => Js.set "numImages" (Js.Num x) ps | None => ps end).[k']
  = (Js.Obj ps).[k'].
Proof. intros H. destruct n; [now apply get_set_other | reflexivity]. Qed.

Lemma get_set_count_same (n : option Js.Number) ps :
  (Js.Obj ps).["numImages"] = Js.Undefined ->
  (Js.Obj match n with Some x => Js.set "numImages" (Js.Num x) ps | None => ps end).["numImages"]
  = count_value n.
Proof. intros H. destruct n; [apply get_set_same | exact H]. Qed.

Ltac read_field :=
  repeat first
    [ rewrite get_set_count_same
    | rewrite get_set_count_other by reflexivity
    | rewrite get_set_filter_same
    | rewrite get_set_filter_other by reflexivity ];
  try reflexivity.

Lemma builder_outcome prompt ratio resolution style contentType colorTone lighting
  composition numImages :
  exists request,
    built_as request prompt ratio resolution style contentType colorTone lighting
      composition numImages
    /\ createImageGenerationRequest prompt ratio resolution style contentType
         colorTone lighting composition numImages
       = if (0 <? List.length (validateImageGenerationRequest request))%nat
         then Js.Throw (Js.new_Error ("Invalid request: "
                ++ format_errors (validateImageGenerationRequest request)))
         else Js.Return request.
Proof.
  cbv delta [createImageGenerationRequest]; cbv beta zeta.
  match goal with
  | |- context [validateImageGenerationRequest ?x] => exists x
  end.
  split; [|reflexivity].
  unfold built_as. repeat split; read_field.
Qed.

Lemma one_of_Str (allowed : list string) (s : string) :
  one_of allowed (Js.Str s) <-> In s allowed.
Proof.
  split.
  - intros [s' [Heq Hin]]. now injection Heq as ->.
  - intros Hin. now exists s.
Qed.

Lemma validation_passes_iff (request : Js.Value) :
  validateImageGenerationRequest request = [] <-> satisfies_constraints request.
Proof.
  split; [apply validateImageGenerationRequest_nil | apply accepted_by_checks].
Qed.

Lemma no_errors_iff (errors : list ValidationError) :
  (0 <? List.length errors)%nat = false <-> errors = [].
Proof.
  destruct errors; simpl; split; intros H; try reflexivity; discriminate H.
Qed.

(** X2.  [createImageGenerationRequest] returns a request exactly when its
    scalar inputs are valid, where a filter given as "none" or as the empty
    string counts as left out; and the request it returns holds the four
    required fields as given, each filter only if it was given and is neither
    "none" nor empty, and the image count only if it was given. *)
Theorem image_request_builder (prompt ratio resolution style : string)
  (contentType colorTone lighting composition : option string)
  (numImages : option Js.Number) :
  (forall request,
      createImageGenerationRequest prompt ratio resolution style contentType
        colorTone lighting composition numImages = Js.Return request ->
      built_as request prompt ratio resolution style contentType colorTone
        lighting composition numImages)
  /\ ((exists request,
         createImageGenerationRequest prompt ratio resolution style contentType
           colorTone lighting composition numImages = Js.Return request)
      <-> valid_prompt (Js.Str prompt)
          /\ In ratio ASPECT_RATIOS /\ In resolution RESOLUTIONS /\ In style STYLES
          /\ absent_or (one_of CONTENT_TYPES) (filter_value contentType)
          /\ absent_or (one_of COLOR_TONES) (filter_value colorTone)
          /\ absent_or (one_of LIGHTING_OPTIONS) (filter_value lighting)
          /\ absent_or (one_of COMPOSITION_OPTIONS) (filter_value composition)
          /\ absent_or permitted_count (count_value numImages)).
Proof.
  destruct (builder_outcome prompt ratio resolution style contentType colorTone
              lighting composition numImages) as [r [Hb Heq]].
  rewrite Heq. clear Heq.
  assert (Hiff : validateImageGenerationRequest r = [] <->
                 valid_prompt (Js.Str prompt)
                 /\ In ratio ASPECT_RATIOS /\ In resolution RESOLUTIONS
                 /\ In style STYLES
                 /\ absent_or (one_of CONTENT_TYPES) (filter_value contentType)
                 /\ absent_or (one_of COLOR_TONES) (filter_value colorTone)
                 /\ absent_or (one_of LIGHTING_OPTIONS) (filter_value lighting)
                 /\ absent_or (one_of COMPOSITION_OPTIONS) (filter_value composition)
                 /\ absent_or permitted_count (count_value numImages)).
  { rewrite validation_passes_iff.
    unfold satisfies_constraints, other_fields_valid.
    destruct Hb as (-> & -> & -> & -> & -> & -> & -> & -> & ->).
    rewrite !one_of_Str. tauto. }
  destruct (0 <? List.length (validateImageGenerationRequest r))%nat eqn:E.
  - split.
    + intros request H. discriminate H.
    + rewrite <- Hiff. split.
      * intros [request H]. discriminate H.
      * intros H. apply no_errors_iff in H. congruence.
  - split.
    + intros request H. now injection H as <-.
    + rewrite <- Hiff. split.
      * intros _. now apply no_errors_iff.
      * intros _. now exists r.
Qed.

(** ** One error for each violated field *)

Lemma check_required_spec f label allowed v :
  ~ In "" allowed -> (check_required f label allowed v = [] <-> one_of allowed v).
Proof.
  intros Hne. split; [apply check_required_sound | now apply check_required_ok].
Qed.

Lemma check_optional_spec f label allowed v :
  check_optional f label allowed v = [] <-> absent_or (one_of allowed) v.
Proof. split; [apply check_optional_sound | apply check_optional_ok]. Qed.

(** Reduce "the validator reports field [f]" to the check of that field. *)
Ltac isolate_field own :=
  rewrite !rejects_app;
  match goal with
  | |- _ <-> ?c <> [] =>
      rewrite <- (@rejects_own c _ own)
  end;
  split; [|tauto];
  let H := fresh "H" in
  intros H;
  repeat (destruct H as [H|H]);
  try exact H;
  exfalso; revert H;
  (eapply rejects_elsewhere;
   [ first [ apply check_prompt_field | apply check_required_field
           | apply check_optional_field | apply check_numImages_member_field
           | apply check_numImages_range_field ]
   | discriminate ]).

Lemma not_iff_compat' (A B : Prop) : (A <-> B) -> (~ A <-> ~ B).
Proof. tauto. Qed.

Lemma check_numImages_member_absent_or (v : Js.Value) :
  check_numImages_member v = [] <-> absent_or permitted_count v.
Proof.
  unfold absent_or. destruct v as [| |b|n|s|items|ps];
    try (split; [intros _; now left | reflexivity]);
    (rewrite check_numImages_member_spec by discriminate;
     split; [intros H; now right | intros [H|H]; [discriminate H | exact H]]).
Qed.

(** X3.  For a candidate that is an object, the generation validator reports
    an error for a field exactly when that field violates its constraint,
    whatever the other fields hold: no violation hides another, and no valid
    field is reported. This holds for each of the nine fields it checks, the
    image count included. *)
Theorem every_violation_is_reported (request : Js.Value) :
  not_an_object request = false ->
  (rejects (validateImageGenerationRequest request) "prompt"
   <-> ~ valid_prompt request.["prompt"])
  /\ (rejects (validateImageGenerationRequest request) "ratio"
      <-> ~ one_of ASPECT_RATIOS request.["ratio"])
  /\ (rejects (validateImageGenerationRequest request) "resolution"
      <-> ~ one_of RESOLUTIONS request.["resolution"])
  /\ (rejects (validateImageGenerationRequest request) "style"
      <-> ~ one_of STYLES request.["style"])
  /\ (rejects (validateImageGenerationRequest request) "contentType"
      <-> ~ absent_or (one_of CONTENT_TYPES) request.["contentType"])
  /\ (rejects (validateImageGenerationRequest request) "colorTone"
      <-> ~ absent_or (one_of COLOR_TONES) request.["colorTone"])
  /\ (rejects (validateImageGenerationRequest request) "lighting"
      <-> ~ absent_or (one_of LIGHTING_OPTIONS) request.["lighting"])
  /\ (rejects (validateImageGenerationRequest request) "composition"
      <-> ~ absent_or (one_of COMPOSITION_OPTIONS) request.["composition"])
  /\ (rejects (validateImageGenerationRequest request) "numImages"
      <-> ~ absent_or permitted_count request.["numImages"]).
Proof.
  intros Hobj. rewrite validateImageGenerationRequest_fields, Hobj.
  destruct no_empty_choice as (E1 & E2 & E3).
  repeat match goal with |- (_ <-> _) /\ _ => split end.
  - rewrite <- (@not_iff_compat' _ _ (check_prompt_spec request.["prompt"])).
    isolate_field (@check_prompt_field request.["prompt"]).
  - rewrite <- (@not_iff_compat' _ _ (@check_required_spec "ratio" "Aspect ratio" _ request.["ratio"] E1)).
    isolate_field (@check_required_field "ratio" "Aspect ratio" ASPECT_RATIOS request.["ratio"]).
  - rewrite <- (@not_iff_compat' _ _ (@check_required_spec "resolution" "Resolution" _ request.["resolution"] E2)).
    isolate_field (@check_required_field "resolution" "Resolution" RESOLUTIONS request.["resolution"]).
  - rewrite <- (@not_iff_compat' _ _ (@check_required_spec "style" "Style" _ request.["style"] E3)).
    isolate_field (@check_required_field "style" "Style" STYLES request.["style"]).
  - rewrite <- (@not_iff_compat' _ _ (check_optional_spec "contentType" "Content type" CONTENT_TYPES request.["contentType"])).
    isolate_field (@check_optional_field "contentType" "Content type" CONTENT_TYPES request.["contentType"]).
  - rewrite <- (@not_iff_compat' _ _ (check_optional_spec "colorTone" "Color tone" COLOR_TONES request.["colorTone"])).
    isolate_field (@check_optional_field "colorTone" "Color tone" COLOR_TONES request.["colorTone"]).
  - rewrite <- (@not_iff_compat' _ _ (check_optional_spec "lighting" "Lighting" LIGHTING_OPTIONS request.["lighting"])).
    isolate_field (@check_optional_field "lighting" "Lighting" LIGHTING_OPTIONS request.["lighting"]).
  - rewrite <- (@not_iff_compat' _ _ (check_optional_spec "composition" "Composition" COMPOSITION_OPTIONS request.["composition"])).
    isolate_field (@check_optional_field "composition" "Composition" COMPOSITION_OPTIONS request.["composition"]).
  - rewrite <- (@not_iff_compat' _ _ (check_numImages_member_absent_or request.["numImages"])).
    isolate_field (@check_numImages_member_field request.["numImages"]).
Qed.

Lemma every_violation_is_reported_witness :
  rejects (validateImageGenerationRequest (request_of "")) "prompt"
  <-> ~ valid_prompt (Js.Str "").
Proof. exact (proj1 (@every_violation_is_reported (request_of "") eq_refl)). Defined.

(** ** Candidates that are not objects *)

Lemma primitive_not_an_object (v : Js.Value) : primitive v -> not_an_object v = true.
Proof.
  destruct v as [| |b|n|s|items|ps]; simpl; try contradiction; intros _;
    unfold not_an_object; simpl; try reflexivity.
  - now rewrite orb_true_r.
  - now rewrite orb_true_r.
  - now rewrite orb_true_r.
Qed.

(** X4.  A candidate that is null, undefined, a boolean, a number or a string
    gets exactly one error from every validator, for the pseudo-field
    [request] (or [response]); an array passes that guard and is reported
    field by field, every required field missing. *)
Theorem candidates_that_are_not_objects :
  (forall v, primitive v ->
     validateImageGenerationRequest v = [request_error]
     /\ validatePromptRewriteRequest v = [request_error]
     /\ validateImageEditRequest v = [request_error]
     /\ validateImageGenerationResponse v = [response_error]
     /\ validatePromptRewriteResponse v = [response_error])
  /\ (forall items,
        map field (validateImageGenerationRequest (Js.Arr items))
        = ["prompt"; "ratio"; "resolution"; "style"]
        /\ map field (validatePromptRewriteRequest (Js.Arr items)) = ["prompt"]
        /\ map field (validateImageEditRequest (Js.Arr items))
           = ["prompt"; "editMode"; "maskMode"]).
Proof.
  split.
  - intros v Hv. pose proof (primitive_not_an_object v Hv) as Hn.
    rewrite validateImageGenerationRequest_fields, validatePromptRewriteRequest_fields,
      validateImageEditRequest_fields, Hn.
    unfold validateImageGenerationResponse, validatePromptRewriteResponse.
    rewrite Hn. repeat split.
  - intros items. repeat split.
Qed.

(** ** The rewrite and edit validators *)

Lemma check_numImages_range_accepts (v : Js.Value) :
  check_numImages_range v = [] <->
  v = Js.Undefined \/ v = Js.Num Js.NaN \/ between_1_and_4 v.
Proof.
  destruct v as [| |b|n|s|items|ps];
    try (split; [discriminate | intros [H|[H|H]]; (discriminate H || contradiction H)]).
  - split; [now left | reflexivity].
  - destruct n as [|neg|q].
    + split; [intros _; right; now left | reflexivity].
    + rewrite check_numImages_range_spec by discriminate.
      split; [intros H; right; now right | intros [H|[H|H]]; (discriminate H || exact H)].
    + rewrite check_numImages_range_spec by discriminate.
      split; [intros H; right; now right | intros [H|[H|H]]; (discriminate H || exact H)].
Qed.

Lemma no_empty_mode : ~ In "" EDIT_MODES /\ ~ In "" MASK_MODES.
Proof.
  split; intros H; simpl in H;
    repeat (destruct H as [H|H]; [discriminate H|]); exact H.
Qed.

Lemma validateImageEditRequest_nil (request : Js.Value) :
  validateImageEditRequest request = [] <-> edit_constraints request.
Proof.
  rewrite validateImageEditRequest_fields. unfold edit_constraints.
  destruct no_empty_mode as [E1 E2].
  destruct (not_an_object request) eqn:Hobj.
  - split; [discriminate|]. intros [Hp _].
    rewrite (@satisfies_constraints_is_object _ Hp) in Hobj. discriminate.
  - rewrite <- check_prompt_spec.
    rewrite <- (@check_required_spec "editMode" "Edit mode" _ request.["editMode"] E1).
    rewrite <- (@check_required_spec "maskMode" "Mask mode" _ request.["maskMode"] E2).
    rewrite <- check_numImages_range_accepts.
    split.
    + intros H.
      repeat (apply app_eq_nil in H; let H1 := fresh "H" in destruct H as [H1 H]).
      auto.
    + intros (-> & -> & -> & ->). reflexivity.
Qed.

(** X5.  The edit validator accepts a candidate exactly when the prompt is
    valid, the edit mode and the mask mode are members of their sets, and the
    image count is absent, NaN, or a number from 1 to 4 (whole or not). *)
Theorem edit_request_accepted_iff (request : Js.Value) :
  validateImageEditRequest request = [] <-> edit_constraints request.
Proof. apply validateImageEditRequest_nil. Qed.

(** X6.  The rewrite validator accepts a candidate exactly when its prompt
    is a string of at most 2000 characters that is not empty once trimmed. *)
Theorem rewrite_request_accepted_iff (request : Js.Value) :
  validatePromptRewriteRequest request = [] <-> valid_prompt request.["prompt"].
Proof.
  rewrite validatePromptRewriteRequest_fields.
  destruct (not_an_object request) eqn:Hobj.
  - split; [discriminate|]. intros Hp.
    rewrite (@satisfies_constraints_is_object _ Hp) in Hobj. discriminate.
  - apply check_prompt_spec.
Qed.

(** X7.  [createImageEditRequest] returns a request exactly when its scalar
    inputs satisfy the edit constraints; the request it returns holds the
    fields as given and validates again without error. *)
Theorem edit_request_builder (prompt editMode maskMode : string)
  (numImages : option Js.Number) :
  (forall request,
      createImageEditRequest prompt editMode maskMode numImages = Js.Return request ->
      validateImageEditRequest request = []
      /\ request.["prompt"] = Js.Str prompt
      /\ request.["editMode"] = Js.Str editMode
      /\ request.["maskMode"] = Js.Str maskMode
      /\ request.["numImages"] = count_value numImages)
  /\ ((exists request,
         createImageEditRequest prompt editMode maskMode numImages = Js.Return request)
      <-> valid_prompt (Js.Str prompt)
          /\ In editMode EDIT_MODES /\ In maskMode MASK_MODES
          /\ (count_value numImages = Js.Undefined
              \/ count_value numImages = Js.Num Js.NaN
              \/ between_1_and_4 (count_value numImages))).
Proof.
  cbv delta [createImageEditRequest]; cbv beta zeta.
  match goal with
  | |- context [validateImageEditRequest ?x] => set (r := x)
  end.
  assert (Hb : r.["prompt"] = Js.Str prompt /\ r.["editMode"] = Js.Str editMode
               /\ r.["maskMode"] = Js.Str maskMode
               /\ r.["numImages"] = count_value numImages)
    by (subst r; repeat split; read_field).
  assert (Hiff : validateImageEditRequest r = [] <->
                 valid_prompt (Js.Str prompt)
                 /\ In editMode EDIT_MODES /\ In maskMode MASK_MODES
                 /\ (count_value numImages = Js.Undefined
                     \/ count_value numImages = Js.Num Js.NaN
                     \/ between_1_and_4 (count_value numImages))).
  { rewrite validateImageEditRequest_nil. unfold edit_constraints.
    destruct Hb as (-> & -> & -> & ->). rewrite !one_of_Str. tauto. }
  destruct (0 <? List.length (validateImageEditRequest r))%nat eqn:E.
  - split.
    + intros request H. discriminate H.
    + rewrite <- Hiff. split.
      * intros [request H]. discriminate H.
      * intros H. apply no_errors_iff in H. congruence.
  - split.
    + intros request H. injection H as <-. split; [now apply no_errors_iff | exact Hb].
    + rewrite <- Hiff. split.
      * intros _. now apply no_errors_iff.
      * intros _. now exists r.
Qed.

(** ** Response shapes *)

Lemma not_a_string_spec (v : Js.Value) :
  not_a_string v = false <-> nonempty_string v.
Proof.
  split.
  - intros H. destruct (@not_a_string_false v H) as [s [-> Ht]].
    exists s. split; [reflexivity|]. simpl in Ht.
    intros ->. discriminate Ht.
  - intros [s [-> Hs]]. unfold not_a_string. simpl.
    destruct (String.eqb_spec s ""); [contradiction | reflexivity].
Qed.

Lemma push_not_nil (l : list ValidationError) (e : ValidationError) : push l e <> [].
Proof. unfold push. destruct l; discriminate. Qed.

Lemma optional_typed_nil res f ty msg errors :
  optional_typed res f ty msg errors = [] <->
  errors = [] /\ optional_of_type ty res.[f].
Proof.
  unfold optional_typed, optional_of_type.
  destruct (Js.is_undefined res.[f]) eqn:Hu.
  - destruct res.[f]; try discriminate Hu. simpl. tauto.
  - destruct (String.eqb_spec (Js.typeof res.[f]) ty) as [Ht|Ht]; simpl.
    + tauto.
    + split.
      * intros H. now apply push_not_nil in H.
      * intros [_ [H|H]]; [rewrite H in Hu; discriminate Hu | contradiction].
Qed.

Lemma required_string_nil res f msg errors :
  required_string res f msg errors = [] <-> errors = [] /\ nonempty_string res.[f].
Proof.
  unfold required_string. rewrite <- not_a_string_spec.
  destruct (not_a_string res.[f]).
  - split; [intros H; now apply push_not_nil in H | intros [_ H]; discriminate H].
  - tauto.
Qed.

Lemma forEach_image_nil images index errors :
  forEach_image images index errors = [] <->
  errors = [] /\ Forall nonempty_string images.
Proof.
  revert index errors. induction images as [|image rest IH]; intros index errors; simpl.
  - split; [intros ->; split; [reflexivity | constructor] | tauto].
  - rewrite IH. clear IH.
    assert (Himg : (Js.typeof image =? "string") = true
                   /\ (String.length (Js.as_string image) =? 0)%nat = false
                   <-> nonempty_string image).
    { split.
      - intros [Ht Hl]. destruct image; try discriminate Ht.
        exists s. split; [reflexivity|]. intros ->. discriminate Hl.
      - intros [s [-> Hs]]. split; [reflexivity|].
        destruct s; [contradiction | reflexivity]. }
    destruct (Js.typeof image =? "string"); simpl.
    + destruct (String.length (Js.as_string image) =? 0)%nat.
      * split.
        -- intros [H _]. now apply push_not_nil in H.
        -- intros [_ H]. inversion H; subst.
           apply Himg in H2. destruct H2 as [_ H2]. discriminate H2.
      * split.
        -- intros [-> H]. split; [reflexivity|]. constructor; [|exact H].
           now apply Himg.
        -- intros [-> H]. inversion H; subst. now split.
    + split.
      * intros [H _]. now apply push_not_nil in H.
      * intros [_ H]. inversion H; subst.
        apply Himg in H2. destruct H2 as [H2 _]. discriminate H2.
Qed.

Lemma validateImageGenerationResponse_nil (data : Js.Value) :
  validateImageGenerationResponse data = [] <->
  not_an_object data = false /\ (failure_shape data \/ generation_success_shape data).
Proof.
  unfold validateImageGenerationResponse, failure_shape, generation_success_shape.
  destruct (not_an_object data).
  { split; [discriminate | intros [H _]; discriminate H]. }
  destruct data.["success"] as [| |[|]|n|s|items|ps] eqn:Hs;
    cbn [is_false is_true Js.typeof];
    try (split; [intros H; now apply push_not_nil in H
                | intros [_ [[H _]|[H _]]]; discriminate H]).
  - (* success === true *)
    change (negb ("boolean" =? "boolean")) with false. cbv iota.
    rewrite !optional_typed_nil.
    split.
    + intros ((((((Himages & Hm) & Hr) & Hmu) & He) & Hx) & Hb).
      split; [reflexivity|]. right. split; [reflexivity|].
      repeat split; try assumption.
      destruct data.["images"] as [| |b|n|s|images|ps] eqn:Hi;
        try (now apply push_not_nil in Himages).
      exists images. split; [reflexivity|].
      now apply forEach_image_nil in Himages.
    + intros [_ [[H _]|(_ & [images [Hi Himages]] & Hm & Hr & Hmu & He & Hx & Hb)]];
        [discriminate H|].
      repeat split; try assumption.
      rewrite Hi. apply forEach_image_nil. now split.
  - (* success === false *)
    change (negb ("boolean" =? "boolean")) with false. cbv iota.
    rewrite <- not_a_string_spec.
    destruct (not_a_string data.["error"]).
    + split; [intros H; now apply push_not_nil in H|].
      intros [_ [[_ H]|[H _]]]; discriminate H.
    + split; [intros _; split; [reflexivity | left; now split] | reflexivity].
Qed.

(** X8.  The generation response validator accepts exactly the objects of
    one of two shapes: [success] false with a non-empty error string; or
    [success] true with an array of images, each a non-empty string (an empty
    array passes), and every optional field absent or of its declared type. *)
Theorem generation_response_accepted_iff (data : Js.Value) :
  validateImageGenerationResponse data = [] <->
  not_an_object data = false /\ (failure_shape data \/ generation_success_shape data).
Proof. apply validateImageGenerationResponse_nil. Qed.

Lemma validatePromptRewriteResponse_nil (data : Js.Value) :
  validatePromptRewriteResponse data = [] <->
  not_an_object data = false /\ (failure_shape data \/ rewrite_success_shape data).
Proof.
  unfold validatePromptRewriteResponse, failure_shape, rewrite_success_shape.
  destruct (not_an_object data).
  { split; [discriminate | intros [H _]; discriminate H]. }
  destruct data.["success"] as [| |[|]|n|s|items|ps] eqn:Hs;
    cbn [is_false is_true Js.typeof];
    try (split; [intros H; now apply push_not_nil in H
                | intros [_ [[H _]|[H _]]]; discriminate H]).
  - change (negb ("boolean" =? "boolean")) with false. cbv iota.
    rewrite optional_typed_nil, !required_string_nil.
    split.
    + intros ((((_ & Ho) & He) & Hm) & Hw).
      split; [reflexivity|]. right. repeat split; assumption.
    + intros [_ [[H _]|(_ & Ho & He & Hm & Hw)]]; [discriminate H|].
      repeat split; assumption.
  - change (negb ("boolean" =? "boolean")) with false. cbv iota.
    rewrite <- not_a_string_spec.
    destruct (not_a_string data.["error"]).
    + split; [intros H; now apply push_not_nil in H|].
      intros [_ [[_ H]|[H _]]]; discriminate H.
    + split; [intros _; split; [reflexivity | left; now split] | reflexivity].
Qed.


(** X9.  The rewrite response validator accepts exactly the objects with
    [success] false and a non-empty error string, or with [success] true,
    non-empty strings for [original_prompt], [enhanced_prompt] and [message],
    and a [warning] that is absent or a string. *)
Theorem rewrite_response_accepted_iff (data : Js.Value) :
  validatePromptRewriteResponse data = [] <->
  not_an_object data = false /\ (failure_shape data \/ rewrite_success_shape data).
Proof. apply validatePromptRewriteResponse_nil. Qed.

(** ** The private methods of the generation client *)

Lemma handleHttpError_spec (response : Response) :
  exists e,
    (forall w, handleHttpError response w = (Js.Throw (Service e), w))
    /\ ApiServiceError.code e = Js.Str (http_error_code response)
    /\ ApiServiceError.message e = Js.Chars (http_error_message response)
    /\ ApiServiceError.validationErrors e = None.
Proof.
  unfold handleHttpError, json, http_error_code, http_error_message, body_string,
    status_code, status_line.
  destruct (json_body response) as [errorData|].
  - destruct errorData as [| |b|n|s|items|ps];
      try solve [eexists; split; [reflexivity | repeat split]].
    + (* boolean *)
      destruct b; eexists; (split; [reflexivity | repeat split]).
    + (* number *)
      destruct (Js.truthy (Js.Num n)); eexists; (split; [reflexivity | repeat split]).
    + (* string *)
      destruct (Js.truthy (Js.Str s)); eexists; (split; [reflexivity | repeat split]).
    + (* object *)
      cbn [Js.truthy Js.typeof andb Js.has Js.get].
      change ("object" =? "object") with true. cbv iota.
      eexists. split; [reflexivity|].
      cbn [ApiServiceError.new ApiServiceError.code ApiServiceError.message
           ApiServiceError.validationErrors].
      split; [|split; [|reflexivity]].
      * destruct (Js.lookup "code" ps) as [[| |b|n|s|items|ps']|]; reflexivity.
      * destruct (Js.lookup "error" ps) as [[| |b|n|s|items|ps']|]; reflexivity.
  - eexists. split; [reflexivity | repeat split].
Qed.

Lemma validated_failure_flag (data : Js.Value) :
  validateImageGenerationResponse data = [] ->
  isApiError data = true ->
  data.["success"] = Js.Bool false.
Proof.
  unfold isApiError, validateImageGenerationResponse.
  destruct (not_an_object data); [discriminate|].
  destruct data.["success"] as [| |[|]|n|s|items|ps];
    try reflexivity; try (intros _ H; discriminate H);
    cbn [Js.typeof is_false is_true String.eqb Ascii.eqb Bool.eqb negb push app];
    discriminate.
Qed.

Lemma validateResponse_cases (data : Js.Value) :
  (exists e, forall w, validateResponse data w = (Js.Throw (Service e), w))
  \/ ((forall w, validateResponse data w = (Js.Return tt, w))
      /\ validateImageGenerationResponse data = []
      /\ isApiError data = false).
Proof.
  unfold validateResponse.
  destruct (validateImageGenerationResponse data) eqn:Hv; cbn [List.length Nat.ltb Nat.leb].
  - destruct (isApiError data) eqn:Ha; [left | right; auto].
    pose proof (generation_failure_body _ (validated_failure_flag _ Hv Ha) Hv) as Herr.
    destruct (not_a_string_false _ Herr) as [s [Hs Ht]].
    eexists. intros w. rewrite (@or_truthy _ _ Ht), Hs. reflexivity.
  - left. eexists. reflexivity.
Qed.

Lemma is_false_spec (v : Js.Value) : is_false v = true -> v = Js.Bool false.
Proof. destruct v as [| |[|]|n|s|items|ps]; try discriminate; reflexivity. Qed.

Lemma validateRewriteResponse_cases (data : Js.Value) :
  (exists e, forall w, validateRewriteResponse data w = (Js.Throw (Service e), w))
  \/ ((forall w, validateRewriteResponse data w = (Js.Return tt, w))
      /\ validatePromptRewriteResponse data = []
      /\ is_false data.["success"] = false).
Proof.
  unfold validateRewriteResponse.
  destruct (validatePromptRewriteResponse data) eqn:Hv; cbn [List.length Nat.ltb Nat.leb].
  - destruct (Js.truthy data && (Js.typeof data =? "object")) eqn:Hobj; cbn [andb].
    + destruct (is_false data.["success"]) eqn:Hf; [left | right; auto].
      destruct (rewrite_failure_body _ (is_false_spec _ Hf) Hv) as [_ Herr].
      destruct (not_a_string_false _ Herr) as [s [Hs Ht]].
      eexists. intros w. rewrite (@or_truthy _ _ Ht), Hs. reflexivity.
    + right. repeat split.
      apply validatePromptRewriteResponse_nil in Hv. destruct Hv as [Hn _].
      unfold not_an_object in Hn. apply orb_false_elim in Hn. destruct Hn as [H1 H2].
      apply negb_false_iff in H1, H2. rewrite H1, H2 in Hobj. discriminate Hobj.
  - left. eexists. reflexivity.
Qed.

(** ** The timeout timer *)

Lemma filter_fresh (id : nat) (l : list nat) :
  (forall t, In t l -> t < id)%nat ->
  filter (fun t => negb (t =? id)%nat) l = l.
Proof.
  intros H. induction l as [|a l IH]; [reflexivity|]. simpl.
  destruct (Nat.eqb_spec a id) as [->|Hne]; simpl.
  - specialize (H id (or_introl eq_refl)). lia.
  - f_equal. apply IH. intros t Ht. apply H. now right.
Qed.

Lemma filter_armed (id : nat) (l : list nat) :
  (forall t, In t l -> t < id)%nat ->
  filter (fun t => negb (t =? id)%nat) (l ++ [id]) = l.
Proof.
  intros H. rewrite filter_app, (@filter_fresh id l H). simpl.
  rewrite Nat.eqb_refl. simpl. apply app_nil_r.
Qed.

Lemma bind_run {A B : Type} (m : M A) (k : A -> M B) (w : World) :
  bind m k w = match m w with
               | (Js.Return a, w') => k a w'
               | (Js.Throw e, w') => (Js.Throw e, w')
               end.
Proof. reflexivity. Qed.

(** Reduce binds and state updates, leaving the timer filters folded. *)
Ltac step :=
  cbn [bind ret throw clearTimeout fst snd timers signed_out sent cookies navigations
       requests next_timer negb].

(** Walk every path of a method of the generation client. *)
Ltac all_paths network :=
  match goal with
  | |- context [network ?rq] =>
      let r := fresh "r" in
      destruct (network rq) as [r| |];
      [ let H401 := fresh "H401" in
        destruct (status r =? 401)%nat eqn:H401;
        [ | let Hok := fresh "Hok" in
            destruct (ok r) eqn:Hok ]
      | | ]
  end; step.

(** Both outcomes of a construction whose message is read from a body. *)
Ltac constructed :=
  unfold bind, ret; rewrite ?throw_new_run;
  repeat match goal with
         | |- context [ApiServiceError.construct ?m ?c ?d ?v] =>
             destruct (ApiServiceError.construct m c d v)
         end.

Ltac timers_done Hfresh :=
  step; rewrite (@filter_armed _ _ Hfresh), ?(@filter_fresh _ _ Hfresh); reflexivity.

(** X10.  [generateImages] and [rewritePrompt] leave no timer behind: on
    every path (validation failure, aborted token, any answer of the network,
    any body) the pending timers after the call are the ones pending before
    it. *)
Theorem timers_are_cleaned_up (network : Network) (this : ImageGenerationAPI)
  (request : Js.Value) (signal : option AbortSignal) (w : World) :
  timers_fresh w ->
  timers (snd (generateImages_method network this request signal w)) = timers w
  /\ timers (snd (rewritePrompt_method network this request signal w)) = timers w.
Proof.
  intros Hfresh. unfold timers_fresh in Hfresh. split.
  - unfold generateImages_method, validateRequest.
    destruct (validateImageGenerationRequest request) eqn:Hreq;
      cbn [List.length Nat.ltb Nat.leb]; [|reflexivity].
    destruct (live signal) eqn:Hlive.
    + enter_client Hlive. all_paths network.
      * timers_done Hfresh.
      * unfold parseResponse, json.
        destruct (json_body r) as [data|]; step.
        -- rewrite bind_run.
           destruct (validateResponse_cases data) as [[e He]|[He _]]; rewrite He;
             timers_done Hfresh.
        -- timers_done Hfresh.
      * rewrite bind_run.
        destruct (handleHttpError_spec r) as [e [He _]]. rewrite He.
        timers_done Hfresh.
      * timers_done Hfresh.
      * timers_done Hfresh.
    + destruct signal as [s|]; [|discriminate Hlive]. simpl in Hlive.
      destruct (aborted s) eqn:Ha; [|discriminate Hlive].
      unfold setTimeout. timers_done Hfresh.
  - unfold rewritePrompt_method, validateRewriteRequest.
    destruct (validatePromptRewriteRequest request) eqn:Hreq;
      cbn [List.length Nat.ltb Nat.leb]; [|reflexivity].
    destruct (live signal) eqn:Hlive.
    + enter_client Hlive. all_paths network.
      * timers_done Hfresh.
      * unfold parseResponse, json.
        destruct (json_body r) as [data|]; step.
        -- rewrite bind_run.
           destruct (validateRewriteResponse_cases data) as [[e He]|[He _]]; rewrite He;
             timers_done Hfresh.
        -- timers_done Hfresh.
      * rewrite bind_run.
        destruct (handleHttpError_spec r) as [e [He _]]. rewrite He.
        timers_done Hfresh.
      * timers_done Hfresh.
      * timers_done Hfresh.
    + destruct signal as [s|]; [|discriminate Hlive]. simpl in Hlive.
      destruct (aborted s) eqn:Ha; [|discriminate Hlive].
      unfold setTimeout. timers_done Hfresh.
Qed.

Lemma busy_world_fresh : timers_fresh busy_world.
Proof. intros t [<-|[]]. unfold busy_world; simpl. lia. Defined.

Lemma timers_are_cleaned_up_witness :
  timers (snd (generateImages_method (server throttled_response) imageGenerationAPI
                 (request_of "a cat") None busy_world))
  = [3%nat].
Proof.
  exact (proj1 (@timers_are_cleaned_up (server throttled_response) imageGenerationAPI
                  (request_of "a cat") None busy_world busy_world_fresh)).
Defined.

(** ** The validation gate *)

(** X11.  A request that fails validation never reaches the network:
    [generateImages] and [rewritePrompt] throw a service error of code
    VALIDATION_ERROR that carries the validator's error list (so
    [isValidationError] holds and [getValidationMessages] lists
    "field: message" for each error), and the world is left untouched: no
    request sent, no timer armed. *)
Theorem invalid_request_is_never_sent (network : Network) (this : ImageGenerationAPI)
  (request : Js.Value) (signal : option AbortSignal) (w : World) :
  (validateImageGenerationRequest request <> [] ->
   exists e,
     generateImages_method network this request signal w = (Js.Throw (Service e), w)
     /\ ApiServiceError.code e = Js.Str "VALIDATION_ERROR"
     /\ ApiServiceError.validationErrors e
        = Some (validateImageGenerationRequest request)
     /\ ApiServiceError.isValidationError e = true
     /\ ApiServiceError.getValidationMessages e
        = map format_error (validateImageGenerationRequest request))
  /\ (validatePromptRewriteRequest request <> [] ->
      exists e,
        rewritePrompt_method network this request signal w = (Js.Throw (Service e), w)
        /\ ApiServiceError.code e = Js.Str "VALIDATION_ERROR"
        /\ ApiServiceError.validationErrors e
           = Some (validatePromptRewriteRequest request)
        /\ ApiServiceError.isValidationError e = true
        /\ ApiServiceError.getValidationMessages e
           = map format_error (validatePromptRewriteRequest request)).
Proof.
  split; intros Hbad.
  - unfold generateImages_method, validateRequest.
    destruct (validateImageGenerationRequest request) as [|e0 l]; [contradiction|].
    eexists. split; [reflexivity|]. repeat split.
  - unfold rewritePrompt_method, validateRewriteRequest.
    destruct (validatePromptRewriteRequest request) as [|e0 l]; [contradiction|].
    eexists. split; [reflexivity|]. repeat split.
Qed.

(** ** What a caller can receive *)

(** X12.  What [generateImages] and [rewritePrompt] hand to their caller: a
    returned value comes only from a request that validated, a token that
    was not aborted, and a body of the success shape; and with a token that
    is not aborted every failure is a typed service error. *)
Theorem image_client_results (network : Network) (this : ImageGenerationAPI)
  (request : Js.Value) (signal : option AbortSignal) (w : World) :
  (forall data,
      fst (generateImages_method network this request signal w) = Js.Return data ->
      validateImageGenerationRequest request = []
      /\ live signal = true
      /\ generation_success_shape data)
  /\ (forall data,
         fst (rewritePrompt_method network this request signal w) = Js.Return data ->
         validatePromptRewriteRequest request = []
         /\ live signal = true
         /\ rewrite_success_shape data)
  /\ (live signal = true ->
      typed_failure (fst (generateImages_method network this request signal w))
      /\ typed_failure (fst (rewritePrompt_method network this request signal w))).
Proof.
  assert (Hgen : forall data, validateImageGenerationResponse data = [] ->
                              isApiError data = false -> generation_success_shape data).
  { intros data Hv Hs. apply validateImageGenerationResponse_nil in Hv.
    destruct Hv as [_ [[Hf _]|H]]; [|exact H].
    unfold isApiError in Hs. rewrite Hf in Hs. discriminate Hs. }
  assert (Hrew : forall data, validatePromptRewriteResponse data = [] ->
                              is_false data.["success"] = false ->
                              rewrite_success_shape data).
  { intros data Hv Hs. apply validatePromptRewriteResponse_nil in Hv.
    destruct Hv as [_ [[Hf _]|H]]; [|exact H].
    rewrite Hf in Hs. discriminate Hs. }
  repeat apply conj.
  - intros data. unfold generateImages_method, validateRequest.
    destruct (validateImageGenerationRequest request) eqn:Hreq;
      cbn [List.length Nat.ltb Nat.leb]; [|discriminate].
    destruct (live signal) eqn:Hlive.
    + enter_client Hlive. all_paths network; try discriminate.
      * unfold parseResponse, json.
        destruct (json_body r) as [data'|]; step; [|discriminate].
        rewrite bind_run.
        destruct (validateResponse_cases data') as [[e He]|[He [Hv Hs]]]; rewrite He;
          step; [discriminate|].
        intros H. injection H as <-. auto.
      * rewrite bind_run.
        destruct (handleHttpError_spec r) as [e [He _]]. rewrite He. discriminate.
    + destruct signal as [s|]; [|discriminate Hlive]. simpl in Hlive.
      destruct (aborted s) eqn:Ha; [|discriminate Hlive].
      unfold setTimeout. step. discriminate.
  - intros data. unfold rewritePrompt_method, validateRewriteRequest.
    destruct (validatePromptRewriteRequest request) eqn:Hreq;
      cbn [List.length Nat.ltb Nat.leb]; [|discriminate].
    destruct (live signal) eqn:Hlive.
    + enter_client Hlive. all_paths network; try discriminate.
      * unfold parseResponse, json.
        destruct (json_body r) as [data'|]; step; [|discriminate].
        rewrite bind_run.
        destruct (validateRewriteResponse_cases data') as [[e He]|[He [Hv Hs]]];
          rewrite He; step; [discriminate|].
        intros H. injection H as <-. auto.
      * rewrite bind_run.
        destruct (handleHttpError_spec r) as [e [He _]]. rewrite He. discriminate.
    + destruct signal as [s|]; [|discriminate Hlive]. simpl in Hlive.
      destruct (aborted s) eqn:Ha; [|discriminate Hlive].
      unfold setTimeout. step. discriminate.
  - intros Hlive. split.
    + unfold generateImages_method, validateRequest.
      destruct (validateImageGenerationRequest request) eqn:Hreq;
        cbn [List.length Nat.ltb Nat.leb]; [|exact I].
      enter_client Hlive. all_paths network; try exact I.
      * unfold parseResponse, json.
        destruct (json_body r) as [data'|]; step; [|exact I].
        rewrite bind_run.
        destruct (validateResponse_cases data') as [[e He]|[He _]]; rewrite He; exact I.
      * rewrite bind_run.
        destruct (handleHttpError_spec r) as [e [He _]]. rewrite He. exact I.
    + unfold rewritePrompt_method, validateRewriteRequest.
      destruct (validatePromptRewriteRequest request) eqn:Hreq;
        cbn [List.length Nat.ltb Nat.leb]; [|exact I].
      enter_client Hlive. all_paths network; try exact I.
      * unfold parseResponse, json.
        destruct (json_body r) as [data'|]; step; [|exact I].
        rewrite bind_run.
        destruct (validateRewriteResponse_cases data') as [[e He]|[He _]]; rewrite He;
          exact I.
      * rewrite bind_run.
        destruct (handleHttpError_spec r) as [e [He _]]. rewrite He. exact I.
Qed.

(** ** Responses that are not 2xx *)

(** X13.  On a response that is neither 2xx nor 401, [generateImages] and
    [rewritePrompt] throw the service error built by [handleHttpError]: its
    code is the string [code] of the JSON object body when that is one of the
    known codes and HTTP_<status> otherwise; its message is the string
    [error] of the body when there is one and "HTTP <status>: <statusText>"
    otherwise. *)
Theorem http_error_outcome (network : Network) (response : Response) (w : World) :
  answers_with network response ->
  ok response = false ->
  (status response =? 401)%nat = false ->
  exists e,
    ApiServiceError.code e = Js.Str (http_error_code response)
    /\ ApiServiceError.message e = Js.Chars (http_error_message response)
    /\ (forall this request signal,
           validateImageGenerationRequest request = [] ->
           live signal = true ->
           fst (generateImages_method network this request signal w)
           = Js.Throw (Service e))
    /\ (forall this request signal,
           validatePromptRewriteRequest request = [] ->
           live signal = true ->
           fst (rewritePrompt_method network this request signal w)
           = Js.Throw (Service e)).
Proof.
  intros Hnet Hok H401.
  destruct (handleHttpError_spec response) as (e & He & Hc & Hm & _).
  exists e. repeat split; try assumption.
  - intros this request signal Hreq Hlive.
    unfold generateImages_method, validateRequest. rewrite Hreq.
    enter_client Hlive. rewrite Hnet, H401. step. rewrite Hok. step.
    rewrite bind_run, He. reflexivity.
  - intros this request signal Hreq Hlive.
    unfold rewritePrompt_method, validateRewriteRequest. rewrite Hreq.
    enter_client Hlive. rewrite Hnet, H401. step. rewrite Hok. step.
    rewrite bind_run, He. reflexivity.
Qed.

Lemma http_error_outcome_witness :
  exists e,
    ApiServiceError.code e = Js.Str "HTTP_429"
    /\ ApiServiceError.message e = Js.Chars "slow down"
    /\ (forall this request signal,
           validateImageGenerationRequest request = [] ->
           live signal = true ->
           fst (generateImages_method (server throttled_response) this request signal
                  signed_in_world)
           = Js.Throw (Service e))
    /\ (forall this request signal,
           validatePromptRewriteRequest request = [] ->
           live signal = true ->
           fst (rewritePrompt_method (server throttled_response) this request signal
                  signed_in_world)
           = Js.Throw (Service e)).
Proof.
  exact (@http_error_outcome (server throttled_response) throttled_response
           signed_in_world (fun _ => eq_refl) eq_refl eq_refl).
Defined.

(** ** 2xx responses whose body cannot be used *)

(** X14.  On a 2xx response, a body that is not JSON makes [generateImages]
    and [rewritePrompt] throw PARSE_ERROR, and a JSON body that fails the
    response validator makes them throw INVALID_RESPONSE carrying the
    validator's error list (for which [isValidationError] is false). *)
Theorem unusable_body_outcome (network : Network) (response : Response)
  (this : ImageGenerationAPI) (request : Js.Value) (signal : option AbortSignal)
  (w : World) :
  answers_with network response ->
  ok response = true ->
  live signal = true ->
  (validateImageGenerationRequest request = [] ->
   (json_body response = None ->
    thrown_code (fst (generateImages_method network this request signal w))
    = Some (Js.Str "PARSE_ERROR"))
   /\ (forall data,
          json_body response = Some data ->
          validateImageGenerationResponse data <> [] ->
          exists e,
            fst (generateImages_method network this request signal w)
            = Js.Throw (Service e)
            /\ ApiServiceError.code e = Js.Str "INVALID_RESPONSE"
            /\ ApiServiceError.validationErrors e
               = Some (validateImageGenerationResponse data)
            /\ ApiServiceError.isValidationError e = false))
  /\ (validatePromptRewriteRequest request = [] ->
      (json_body response = None ->
       thrown_code (fst (rewritePrompt_method network this request signal w))
       = Some (Js.Str "PARSE_ERROR"))
      /\ (forall data,
             json_body response = Some data ->
             validatePromptRewriteResponse data <> [] ->
             exists e,
               fst (rewritePrompt_method network this request signal w)
               = Js.Throw (Service e)
               /\ ApiServiceError.code e = Js.Str "INVALID_RESPONSE"
               /\ ApiServiceError.validationErrors e
                  = Some (validatePromptRewriteResponse data)
               /\ ApiServiceError.isValidationError e = false)).
Proof.
  intros Hnet Hok Hlive. split; intros Hreq.
  - split.
    + intros Hjson.
      unfold generateImages_method, validateRequest. rewrite Hreq.
      enter_client Hlive. rewrite Hnet, (@ok_not_401 _ Hok).
      unfold parseResponse, json. rewrite Hok, Hjson. reflexivity.
    + intros data Hjson Hbad.
      unfold generateImages_method, validateRequest. rewrite Hreq.
      enter_client Hlive. rewrite Hnet, (@ok_not_401 _ Hok).
      unfold parseResponse, json, validateResponse. rewrite Hok, Hjson. run_binds.
      destruct (validateImageGenerationResponse data) as [|e0 l]; [contradiction|].
      eexists. split; [reflexivity|]. repeat split.
  - split.
    + intros Hjson.
      unfold rewritePrompt_method, validateRewriteRequest. rewrite Hreq.
      enter_client Hlive. rewrite Hnet, (@ok_not_401 _ Hok).
      unfold parseResponse, json. rewrite Hok, Hjson. reflexivity.
    + intros data Hjson Hbad.
      unfold rewritePrompt_method, validateRewriteRequest. rewrite Hreq.
      enter_client Hlive. rewrite Hnet, (@ok_not_401 _ Hok).
      unfold parseResponse, json, validateRewriteResponse. rewrite Hok, Hjson.
      run_binds.
      destruct (validatePromptRewriteResponse data) as [|e0 l]; [contradiction|].
      eexists. split; [reflexivity|]. repeat split.
Qed.

Lemma unusable_body_outcome_witness :
  thrown_code (fst (generateImages_method (server (mkResponse 200 "OK" None))
                      imageGenerationAPI (request_of "a cat") None signed_in_world))
  = Some (Js.Str "PARSE_ERROR").
Proof.
  exact (proj1 (proj1 (@unusable_body_outcome (server (mkResponse 200 "OK" None))
                         (mkResponse 200 "OK" None) imageGenerationAPI
                         (request_of "a cat") None signed_in_world
                         (fun _ => eq_refl) eq_refl eq_refl) eq_refl) eq_refl).
Defined.

(** ** The request put on the wire *)

Lemma posted_is_json_post (url : string) (payload : Js.Value)
  (sg : option AbortSignal) (w w0 : World) :
  cookies w0 = cookies w ->
  json_post (outgoing url (mkRequestInit (Some "POST") [] (Some (JsonBody payload)) sg) w0)
    url payload w.
Proof.
  intros Hc. unfold json_post, outgoing, auth_headers, stored_credential.
  cbn [request_url request_method request_body request_headers method headers body
       Js.spread fold_left].
  rewrite Hc. repeat split.
  - destruct (Js.lookup "auth_token" (cookies w)) as [t|]; [|reflexivity].
    destruct (t =? ""); reflexivity.
  - destruct (Js.lookup "auth_token" (cookies w)) as [t|]; [|reflexivity].
    destruct (t =? ""); reflexivity.
Qed.

(** X15.  With a token that is not aborted, a call of [generateImages] or
    [rewritePrompt] on a request that validates, and any call of
    [generateVideo], puts exactly one request on the wire, whatever the
    outcome: a POST to the endpoint with the request as body, content type
    JSON, and an Authorization header "Bearer <token>" exactly when a
    non-empty credential is stored. *)
Theorem one_authenticated_request (network : Network) (this : ImageGenerationAPI)
  (request : Js.Value) (signal : option AbortSignal) (w : World) :
  live signal = true ->
  (validateImageGenerationRequest request = [] ->
   exists rq,
     requests (snd (generateImages_method network this request signal w))
     = (requests w ++ [rq])%list
     /\ json_post rq (baseUrl this ++ "/api/image/generate") request w)
  /\ (validatePromptRewriteRequest request = [] ->
      exists rq,
        requests (snd (rewritePrompt_method network this request signal w))
        = (requests w ++ [rq])%list
        /\ json_post rq (baseUrl this ++ "/api/rewrite") request w)
  /\ (exists rq,
        requests (snd (generateVideo network request signal w)) = (requests w ++ [rq])%list
        /\ json_post rq (API_CONFIG.BASE_URL ++ "/api/video/generate") request w).
Proof.
  intros Hlive. repeat apply conj.
  - intros Hreq.
    exists (outgoing (baseUrl this ++ API_CONFIG.ENDPOINTS.IMAGE_GENERATION)
              (mkRequestInit (Some "POST") [] (Some (JsonBody request)) (Some (effective signal)))
              (armed w)).
    split; [|apply posted_is_json_post; reflexivity].
    unfold generateImages_method, validateRequest. rewrite Hreq.
    enter_client Hlive. all_paths network; try reflexivity.
    + unfold parseResponse, json.
      destruct (json_body r) as [data|]; step; [|reflexivity].
      rewrite bind_run.
      destruct (validateResponse_cases data) as [[e He]|[He _]]; rewrite He;
        reflexivity.
    + rewrite bind_run.
      destruct (handleHttpError_spec r) as [e [He _]]. rewrite He. reflexivity.
  - intros Hreq.
    exists (outgoing (baseUrl this ++ API_CONFIG.ENDPOINTS.PROMPT_REWRITE)
              (mkRequestInit (Some "POST") [] (Some (JsonBody request)) (Some (effective signal)))
              (armed w)).
    split; [|apply posted_is_json_post; reflexivity].
    unfold rewritePrompt_method, validateRewriteRequest. rewrite Hreq.
    enter_client Hlive. all_paths network; try reflexivity.
    + unfold parseResponse, json.
      destruct (json_body r) as [data|]; step; [|reflexivity].
      rewrite bind_run.
      destruct (validateRewriteResponse_cases data) as [[e He]|[He _]]; rewrite He;
        reflexivity.
    + rewrite bind_run.
      destruct (handleHttpError_spec r) as [e [He _]]. rewrite He. reflexivity.
  - exists (outgoing (API_CONFIG.BASE_URL ++ "/api/video/generate")
              (mkRequestInit (Some "POST") [] (Some (JsonBody request)) signal) w).
    split; [|apply posted_is_json_post; reflexivity].
    unfold generateVideo, try_catch. unfold bind at 1.
    rewrite authenticatedFetch_eval by exact Hlive.
    all_paths network; try reflexivity.
    + unfold json. destruct (json_body r); reflexivity.
    + unfold json_or_empty, member, json.
      destruct (json_body r) as [[| |b|n|s|items|ps]|]; constructed; reflexivity.
Qed.

Lemma one_authenticated_request_witness :
  exists rq,
    requests (snd (generateImages_method (server (mkResponse 200 "OK" (Some success_body)))
                     imageGenerationAPI (request_of "a cat") None signed_in_world))
    = ([] ++ [rq])%list
    /\ json_post rq ("http://ceatapi.demodevelopment.com" ++ "/api/image/generate")
         (request_of "a cat") signed_in_world.
Proof.
  exact (proj1 (@one_authenticated_request
                  (server (mkResponse 200 "OK" (Some success_body)))
                  imageGenerationAPI (request_of "a cat") None signed_in_world eq_refl)
           eq_refl).
Defined.

(** ** Transport failures *)

(** X16.  When the network cannot be reached, [generateImages],
    [rewritePrompt] and [generateVideo] fail with NETWORK_ERROR; when the
    request is aborted in flight (timeout or cancellation), the first two
    fail with REQUEST_CANCELLED, and [generateVideo] with NETWORK_ERROR. *)
Theorem transport_failure_codes (network : Network) (this : ImageGenerationAPI)
  (request : Js.Value) (signal : option AbortSignal) (w : World) :
  live signal = true ->
  (unreachable network ->
   (validateImageGenerationRequest request = [] ->
    thrown_code (fst (generateImages_method network this request signal w))
    = Some (Js.Str "NETWORK_ERROR"))
   /\ (validatePromptRewriteRequest request = [] ->
       thrown_code (fst (rewritePrompt_method network this request signal w))
       = Some (Js.Str "NETWORK_ERROR"))
   /\ thrown_code (fst (generateVideo network request signal w))
      = Some (Js.Str "NETWORK_ERROR"))
  /\ (cut_off network ->
      (validateImageGenerationRequest request = [] ->
       thrown_code (fst (generateImages_method network this request signal w))
       = Some (Js.Str "REQUEST_CANCELLED"))
      /\ (validatePromptRewriteRequest request = [] ->
          thrown_code (fst (rewritePrompt_method network this request signal w))
          = Some (Js.Str "REQUEST_CANCELLED"))
      /\ thrown_code (fst (generateVideo network request signal w))
         = Some (Js.Str "NETWORK_ERROR")).
Proof.
  intros Hlive. split; intros Hnet; repeat apply conj.
  - intros Hreq. unfold generateImages_method, validateRequest. rewrite Hreq.
    enter_client Hlive. rewrite Hnet. reflexivity.
  - intros Hreq. unfold rewritePrompt_method, validateRewriteRequest. rewrite Hreq.
    enter_client Hlive. rewrite Hnet. reflexivity.
  - unfold generateVideo, try_catch. unfold bind at 1.
    rewrite authenticatedFetch_eval by exact Hlive. rewrite Hnet. reflexivity.
  - intros Hreq. unfold generateImages_method, validateRequest. rewrite Hreq.
    enter_client Hlive. rewrite Hnet. reflexivity.
  - intros Hreq. unfold rewritePrompt_method, validateRewriteRequest. rewrite Hreq.
    enter_client Hlive. rewrite Hnet. reflexivity.
  - unfold generateVideo, try_catch. unfold bind at 1.
    rewrite authenticatedFetch_eval by exact Hlive. rewrite Hnet. reflexivity.
Qed.

Lemma transport_failure_codes_witness :
  thrown_code (fst (generateImages_method (fun _ => NetworkFailure) imageGenerationAPI
                      (request_of "a cat") None signed_in_world))
  = Some (Js.Str "NETWORK_ERROR").
Proof.
  exact (proj1 (proj1 (@transport_failure_codes (fun _ => NetworkFailure)
                         imageGenerationAPI (request_of "a cat") None signed_in_world
                         eq_refl) (fun _ => eq_refl)) eq_refl).
Defined.

(** ** A token that is aborted before the call *)

Lemma authenticatedFetch_aborted network url options w s :
  signal options = Some s -> aborted s = true ->
  authenticatedFetch network url options w
  = (Js.Throw (Other (ForeignError AbortError)), w).
Proof.
  intros Hs Ha.
  unfold authenticatedFetch, getAuthHeaders, bind, Cookies.get, fetch, ret.
  cbn [signal method headers body]. rewrite Hs, Ha. reflexivity.
Qed.

(** ** [editImage] *)

(** X17.  [editImage] returns a body only when its [success] is truthy. When
    the form cannot be built from the arguments, as when the request is [null]
    or [undefined] or its [numImages] is [null], the call throws the
    [TypeError] of the form and leaves the world as it was: nothing is sent.
    When the form can be built and the token is not aborted, the call sends
    one request, the POST of that form; a network failure leaves it, the
    function having no catch, as the [TypeError] of [fetch]; and a 2xx body
    whose [success] is falsy is thrown as the service error constructed from
    the error and the code of the body, "Edit failed" and EDIT_ERROR standing
    in for falsy ones, or, when the conversion of that error to a string
    throws, as what the conversion threw. *)
Theorem editImage_results (network : Network) (imageFile request : Js.Value)
  (sg : option AbortSignal) (w : World) :
  (forall data,
      fst (editImage network imageFile request sg w) = Js.Return data ->
      Js.truthy data.["success"] = true)
  /\ (nullish request \/ request.["numImages"] = Js.Null ->
      exists e, edit_form imageFile request = Js.Throw e)
  /\ (forall e,
         edit_form imageFile request = Js.Throw e ->
         Js.error_class e = Js.TypeError
         /\ editImage network imageFile request sg w
            = (Js.Throw (Other (ForeignError e)), w))
  /\ (forall formData,
         edit_form imageFile request = Js.Return formData ->
         live sg = true ->
         requests (snd (editImage network imageFile request sg w))
         = (requests w ++ [edit_request formData w])%list
         /\ (unreachable network ->
             fst (editImage network imageFile request sg w)
             = Js.Throw (Other (ForeignError FetchFailed)))
         /\ (forall response data,
                answers_with network response ->
                ok response = true ->
                json_body response = Some data ->
                ~ nullish data ->
                Js.truthy data.["success"] = false ->
                fst (editImage network imageFile request sg w)
                = match ApiServiceError.construct
                          (Js.or data.["error"] (Js.Str "Edit failed"))
                          (Some (Js.or data.["code"] (Js.Str "EDIT_ERROR")))
                          None None with
                  | Js.Return e => Js.Throw (Service e)
                  | Js.Throw e => Js.Throw (Other (ForeignError e))
                  end)).
Proof.
  repeat apply conj.
  - intros data. rewrite editImage_eval.
    destruct (edit_form imageFile request) as [formData|e]; [|discriminate].
    destruct (match sg with Some s => aborted s | None => false end);
      [discriminate|].
    destruct (network (edit_request formData w)) as [r| |]; try discriminate.
    unfold edit_answer.
    destruct (status r =? 401)%nat; [discriminate|].
    destruct (ok r); cbn [negb].
    + unfold bind, ret, await, json.
      destruct (json_body r) as [data'|]; [|discriminate].
      destruct data' as [| |b|n|s|items|ps]; try discriminate;
        cbn [member ret]; cbv beta iota;
        match goal with
        | |- context [Js.truthy ?x] => destruct (Js.truthy x) eqn:Ht
        end; cbn [negb fst]; constructed; try discriminate;
        intros H; injection H as <-; exact Ht.
    + unfold json_or_empty, json, member.
      destruct (json_body r) as [[| |b|n|s|items|ps]|]; constructed; discriminate.
  - intros [[->| ->]|Hnull].
    + eexists. reflexivity.
    + eexists. reflexivity.
    + unfold edit_form.
      destruct request as [| |b|n|s|items|ps]; try (eexists; reflexivity);
        repeat match goal with
               | |- context [append_value ?f ?k ?v] =>
                   destruct (append_value f k v); [|eexists; reflexivity]
               end;
        rewrite Hnull; eexists; reflexivity.
  - intros e Hform. split; [now apply edit_form_throws_TypeError with imageFile request|].
    rewrite editImage_eval, Hform. reflexivity.
  - intros formData Hform Hlive.
    rewrite editImage_eval, Hform, (live_not_aborted _ Hlive).
    repeat apply conj.
    + destruct (network (edit_request formData w)) as [r| |]; try reflexivity.
      unfold edit_answer.
      destruct (status r =? 401)%nat; [reflexivity|].
      destruct (ok r); cbn [negb].
      * unfold bind, ret, await, json.
        destruct (json_body r) as [data'|]; [|reflexivity].
        destruct data' as [| |b|n|s|items|ps]; try reflexivity;
          cbn [member ret]; cbv beta iota;
          match goal with
          | |- context [Js.truthy ?x] => destruct (Js.truthy x)
          end; cbn [negb]; constructed; reflexivity.
      * unfold json_or_empty, json, member.
        destruct (json_body r) as [[| |b|n|s|items|ps]|]; constructed; reflexivity.
    + intros Hnet. rewrite Hnet. reflexivity.
    + intros response data Hnet Hok Hjson Hnn Hfalse.
      rewrite Hnet. unfold edit_answer.
      rewrite (@ok_not_401 _ Hok), Hok. unfold await, json. rewrite Hjson.
      cbn [negb]. unfold bind, ret.
      repeat (rewrite ?(@member_run data _ _ Hnn), ?Hfalse; cbn [negb]; cbv beta iota).
      rewrite throw_new_run.
      destruct (ApiServiceError.construct _ _ _ _); reflexivity.
Qed.

(** ** [uploadFileViaProxy] *)

(** X18.  [uploadFileViaProxy] never lets an untyped error out; it sends one
    POST whose form holds the file, with no header at all (the stored
    credential is not attached and not touched); what it returns is the [data]
    field of the JSON body of a 2xx response; a body that is not JSON gives
    NETWORK_ERROR. *)
Theorem uploadFileViaProxy_results (network : Network) (file : Js.Value) (w : World) :
  typed_failure (fst (uploadFileViaProxy network file w))
  /\ requests (snd (uploadFileViaProxy network file w))
     = (requests w
        ++ [mkRequest (API_BASE_URL ++ "/uploads/proxy-upload") (Some "POST") []
              (Some (FormBody [("file", FormFile file)]))])%list
  /\ cookies (snd (uploadFileViaProxy network file w)) = cookies w
  /\ (forall v,
         fst (uploadFileViaProxy network file w) = Js.Return v ->
         exists rq response data,
           network rq = Responds response
           /\ ok response = true
           /\ json_body response = Some data
           /\ v = data.["data"])
  /\ (forall response,
         answers_with network response ->
         json_body response = None ->
         thrown_code (fst (uploadFileViaProxy network file w))
         = Some (Js.Str "NETWORK_ERROR")).
Proof.
  unfold uploadFileViaProxy, try_catch, bind, fetch.
  cbn [signal method headers body].
  match goal with
  | |- context [network ?rq] => set (sent_request := rq)
  end.
  destruct (network sent_request) as [r| |] eqn:Hnet; cbn [fst snd];
    [ unfold await, json;
      destruct (json_body r) as [data|] eqn:Hjson; cbn [ret];
      [ destruct (ok r) eqn:Hok; cbn [negb ret];
        destruct data as [| |b|n|s|items|ps]; cbn [member ret throw fst snd];
        rewrite ?throw_new_run;
        try match goal with
            | |- context [ApiServiceError.construct ?m ?c ?d ?v] =>
                destruct (ApiServiceError.construct m c d v)
            end | ]
    | | ];
    (repeat apply conj;
     [ exact I
     | reflexivity
     | reflexivity
     | intros v H; try discriminate H;
       injection H as <-; exists sent_request, r; eexists;
       (split; [exact Hnet | split; [exact Hok | split; [exact Hjson | reflexivity]]])
     | intros response Ha Hnone; rewrite Ha in Hnet;
       first [ discriminate Hnet
             | injection Hnet as <-; first [ congruence | reflexivity ] ] ]).
Qed.


(** ** The type guards *)

(** X19.  On a response that passed the generation response validator the
    two type guards are complementary: [isApiError] holds exactly when
    [isSuccessResponse] does not, the first on the failure shape and the
    second on the success shape. *)
Theorem validated_response_guards (data : Js.Value) :
  validateImageGenerationResponse data = [] ->
  isApiError data = negb (isSuccessResponse data)
  /\ (isApiError data = true -> failure_shape data)
  /\ (isSuccessResponse data = true -> generation_success_shape data).
Proof.
  intros Hv. apply validateImageGenerationResponse_nil in Hv.
  unfold isApiError, isSuccessResponse.
  destruct Hv as [_ [[Hs He]|Hshape]].
  - rewrite Hs. split; [reflexivity|]. split; [intros _; now split|].
    intros H. discriminate H.
  - pose proof Hshape as [Hs _]. rewrite Hs. split; [reflexivity|].
    split; [intros H; discriminate H | intros _; exact Hshape].
Qed.

Lemma validated_response_guards_witness :
  isApiError quota_body = negb (isSuccessResponse quota_body)
  /\ (isApiError quota_body = true -> failure_shape quota_body)
  /\ (isSuccessResponse quota_body = true -> generation_success_shape quota_body).
Proof. exact (@validated_response_guards quota_body eq_refl). Defined.

(** ** The clients of the other endpoints *)

Lemma outgoing_endpoint (e : Endpoint) (signal : option AbortSignal) (w : World) :
  outgoing (endpoint_url e)
    (mkRequestInit (Some (endpoint_method e)) [] (endpoint_body e) signal) w
  = endpoint_request e w.
Proof.
  reflexivity.
Qed.

Ltac call_paths network Ho :=
  unfold try_catch; unfold bind at 1;
  rewrite authenticatedFetch_eval by (cbn [signal]; assumption);
  cbv zeta; rewrite Ho;
  let r := fresh "r" in
  match goal with
  | |- context [network ?rq] => destruct (network rq) as [r| |]
  end;
  [ cbn [endpoint_outcome endpoint_world];
    destruct (status r =? 401)%nat; [reflexivity|];
    step; destruct (ok r); step;
    unfold json_or_empty, json, await;
    destruct (json_body r) as [[| | | | | |]|]; try reflexivity;
    unfold refused, member, bind, ret; rewrite throw_new_run;
    unfold default_message, default_code; cbn [String.append];
    match goal with
    | |- context [ApiServiceError.construct ?m ?c ?d ?v] =>
        destruct (ApiServiceError.construct m c d v)
    end; reflexivity
  | reflexivity | reflexivity ].

Lemma call_eval (network : Network) (e : Endpoint) (signal : option AbortSignal)
  (w : World) :
  live signal = true ->
  call network e signal w
  = (endpoint_outcome e (network (endpoint_request e w)),
     endpoint_world e (network (endpoint_request e w)) w).
Proof.
  intros Hlive.
  pose proof (outgoing_endpoint e signal w) as Ho.
  destruct e; unfold endpoint_url, endpoint_method, endpoint_body in Ho;
    unfold call.
  - unfold getBrandGuidelines. call_paths network Ho.
  - unfold updateBrandGuidelines. call_paths network Ho.
  - unfold getHistoryItem. call_paths network Ho.
  - unfold deleteHistoryItem. call_paths network Ho.
  - unfold generateVideo. call_paths network Ho.
  - unfold enhancePrompt. call_paths network Ho.
  - unfold generatePrompt. call_paths network Ho.
  - unfold generateSignedUrl. call_paths network Ho.
  - unfold listBuckets. call_paths network Ho.
Qed.

Lemma call_aborted (network : Network) (e : Endpoint) (signal : option AbortSignal)
  (w : World) :
  live signal = false ->
  call network e signal w = (Js.Throw (wrapped e (ForeignError AbortError)), w).
Proof.
  intros Hdead. destruct signal as [s|]; [|discriminate Hdead]. simpl in Hdead.
  apply negb_false_iff in Hdead.
  destruct e; unfold call;
    [ unfold getBrandGuidelines | unfold updateBrandGuidelines | unfold getHistoryItem
    | unfold deleteHistoryItem | unfold generateVideo | unfold enhancePrompt
    | unfold generatePrompt | unfold generateSignedUrl | unfold listBuckets ];
    unfold try_catch; unfold bind at 1;
    match goal with
    | |- context [authenticatedFetch network ?url ?options w] =>
        rewrite (@authenticatedFetch_aborted network url options w s eq_refl Hdead)
    end; reflexivity.
Qed.

(** X20.  The nine calls that hand back the parsed body unchecked (brand
    guidelines, history items, video, prompts, signed URL, buckets) never let
    an untyped error out; what they return is the parsed body of a 2xx
    response to their request; with a token that is already aborted they fail
    with NETWORK_ERROR and send nothing; otherwise they send exactly one
    request, with the method, address, body and credential of the endpoint. *)
Theorem endpoint_clients_results (network : Network) (e : Endpoint)
  (signal : option AbortSignal) (w : World) :
  typed_failure (fst (call network e signal w))
  /\ (forall data,
         fst (call network e signal w) = Js.Return data ->
         live signal = true
         /\ exists response,
              network (endpoint_request e w) = Responds response
              /\ ok response = true /\ json_body response = Some data)
  /\ (live signal = false ->
      fst (call network e signal w) = Js.Throw (wrapped e (ForeignError AbortError))
      /\ snd (call network e signal w) = w)
  /\ (live signal = true ->
      requests (snd (call network e signal w))
      = (requests w ++ [endpoint_request e w])%list).
Proof.
  destruct (live signal) eqn:Hlive.
  - rewrite (@call_eval network e signal w Hlive). cbn [fst snd].
    repeat apply conj; [| |discriminate|].
    + unfold endpoint_outcome.
      destruct (network (endpoint_request e w)) as [r| |]; try exact I.
      destruct (status r =? 401)%nat; [exact I|].
      destruct (ok r); destruct (json_body r) as [[| | | | | |]|]; try exact I;
        unfold refused; destruct (ApiServiceError.construct _ _ _ _); exact I.
    + intros data. unfold endpoint_outcome.
      destruct (network (endpoint_request e w)) as [r| |]; try discriminate.
      destruct (status r =? 401)%nat; [discriminate|].
      destruct (ok r) eqn:Hok.
      * destruct (json_body r) as [data'|] eqn:Hjson; [|discriminate].
        intros H. injection H as <-. split; [reflexivity|]. exists r. auto.
      * destruct (json_body r) as [[| | | | | |]|]; discriminate.
    + intros _. unfold endpoint_world.
      destruct (network (endpoint_request e w)) as [r| |]; try reflexivity.
      destruct (status r =? 401)%nat; reflexivity.
  - rewrite (@call_aborted network e signal w Hlive). cbn [fst snd].
    repeat apply conj; [exact I | discriminate | auto | discriminate].
Qed.

(** X21.  When the answer to one of these nine calls is not 2xx: a 401 signs
    the user out and is thrown as HTTP_401; otherwise a body that is not
    [null] is thrown as [refused], a body that is not JSON as the service
    error with the default message and code of the endpoint, and a body that
    is JSON [null] as NETWORK_ERROR, the read of its [error] having thrown.
    What [refused] is: the service error whose code is the [code] of the body
    when that is truthy and the default code of the endpoint when it is not,
    and whose message is the string conversion of the [error] of the body, or
    of the default message when that is falsy (an [error] that is a string and
    not empty is kept as it is); when that conversion throws, the
    NETWORK_ERROR that wraps what it threw. *)
Theorem endpoint_refusals (network : Network) (e : Endpoint)
  (signal : option AbortSignal) (w : World) (response : Response) :
  live signal = true ->
  network (endpoint_request e w) = Responds response ->
  ok response = false ->
  (status response = 401%nat -> signed_out_by w (call network e signal w))
  /\ (status response <> 401%nat ->
      (forall errorData,
          json_body response = Some errorData -> ~ nullish errorData ->
          fst (call network e signal w) = Js.Throw (refused e response errorData))
      /\ (json_body response = None ->
          fst (call network e signal w)
          = Js.Throw (Service (ApiServiceError.new
                                 (Js.Str (default_message e response))
                                 (Some (Js.Str (default_code e))) None None)))
      /\ (forall errorData,
             json_body response = Some errorData -> nullish errorData ->
             fst (call network e signal w) = Js.Throw (wrapped e null_read))
      /\ snd (call network e signal w) = sent (endpoint_request e w) w)
  /\ (forall errorData error,
         ApiServiceError.construct
           (Js.or errorData.["error"] (Js.Str (default_message e response)))
           (Some (Js.or errorData.["code"] (Js.Str (default_code e))))
           None None = Js.Return error ->
         refused e response errorData = Service error
         /\ ApiServiceError.code error
            = Js.or errorData.["code"] (Js.Str (default_code e))
         /\ Js.ToString (Js.or errorData.["error"]
                           (Js.Str (default_message e response)))
            = Js.Return (ApiServiceError.message error))
  /\ (forall errorData cause,
         Js.ToString (Js.or errorData.["error"] (Js.Str (default_message e response)))
         = Js.Throw cause ->
         refused e response errorData = wrapped e (ForeignError cause))
  /\ (forall errorData s,
         errorData.["error"] = Js.Str s -> s <> "" ->
         exists error,
           refused e response errorData = Service error
           /\ ApiServiceError.message error = Js.Chars s).
Proof.
  intros Hlive Hnet Hok.
  rewrite (@call_eval network e signal w Hlive), Hnet.
  cbn [fst snd endpoint_outcome endpoint_world]. rewrite Hok. repeat apply conj.
  - intros H401. apply Nat.eqb_eq in H401. rewrite H401.
    unfold signed_out_by. cbn [fst snd]. repeat split.
    unfold signed_out. cbn [cookies]. apply lookup_removed.
  - intros H401. apply Nat.eqb_neq in H401. rewrite H401. repeat apply conj.
    + intros errorData -> Hnn.
      destruct errorData; try reflexivity; exfalso; apply Hnn; unfold nullish; auto.
    + intros ->. reflexivity.
    + intros errorData -> [-> | ->]; reflexivity.
    + reflexivity.
  - intros errorData error Hc. unfold refused. rewrite Hc. repeat apply conj.
    + reflexivity.
    + rewrite (@construct_returns _ _ _ _ _ Hc). reflexivity.
    + apply (@construct_message _ _ _ _ _ Hc).
      unfold Js.or. destruct (Js.truthy errorData.["error"]) eqn:Ht; [|discriminate].
      intros Hu. rewrite Hu in Ht. discriminate Ht.
  - intros errorData cause Hc. unfold refused, ApiServiceError.construct. rewrite Hc.
    destruct (Js.or errorData.["error"] (Js.Str (default_message e response)));
      try reflexivity. discriminate Hc.
  - intros errorData s Hs Hne. unfold refused. rewrite Hs.
    assert (Ht : Js.truthy (Js.Str s) = true).
    { destruct s; [contradiction | reflexivity]. }
    rewrite (@or_truthy _ _ Ht). eexists. split; reflexivity.
Qed.

Lemma endpoint_refusals_witness :
  fst (call (server throttled_response) (DeleteHistoryItem "42") None signed_in_world)
  = Js.Throw (refused (DeleteHistoryItem "42") throttled_response
                (Js.Obj [("error", Js.Str "slow down"); ("code", Js.Str "HTTP_429")])).
Proof.
  refine (proj1 (proj1 (proj2 (@endpoint_refusals (server throttled_response)
                                 (DeleteHistoryItem "42") None signed_in_world
                                 throttled_response eq_refl eq_refl eq_refl)) _)
            _ eq_refl _).
  - discriminate.
  - intros [H | H]; discriminate H.
Defined.

(** ** The route guard *)

Lemma startsWith_spec (s p : string) :
  JsText.startsWith s p = true <-> exists rest, s = p ++ rest.
Proof.
  revert s. induction p as [|c p IH]; intros s; simpl.
  - split; [intros _; now exists s | reflexivity].
  - destruct s as [|d s].
    + split; [discriminate | intros [rest H]; discriminate H].
    + rewrite andb_true_iff, IH. split.
      * intros [Hc [rest ->]]. apply Ascii.eqb_eq in Hc. subst d. now exists rest.
      * intros [rest H]. injection H as -> ->. split; [apply Ascii.eqb_refl | now exists rest].
Qed.

Lemma append_assoc (a b c : string) : (a ++ b) ++ c = a ++ (b ++ c).
Proof. induction a as [|x a IH]; simpl; [reflexivity | now rewrite IH]. Qed.

Lemma under_spec (route path : string) :
  (path =? route) || JsText.startsWith path (route ++ "/") = true
  <-> under route path.
Proof.
  unfold under. rewrite orb_true_iff, String.eqb_eq, startsWith_spec.
  split; (intros [H | [rest H]]; [now left | right; exists rest]).
  - now rewrite H, append_assoc.
  - now rewrite H, append_assoc.
Qed.

Lemma isProtectedRoute_spec (path : string) :
  existsb (fun route => (path =? route) || JsText.startsWith path (route ++ "/"))
    Middleware.protectedRoutes = true
  <-> protected path.
Proof.
  unfold protected. rewrite existsb_exists.
  split; intros [route [Hin H]]; exists route; (split; [exact Hin|]);
    now apply under_spec.
Qed.

Lemma entry_page_spec (path : string) :
  (path =? "/") || (path =? "/login") || (path =? "/register") = true
  <-> entry_page path.
Proof.
  unfold entry_page. rewrite !orb_true_iff, !String.eqb_eq. tauto.
Qed.

Lemma entry_page_not_protected (path : string) : entry_page path -> ~ protected path.
Proof.
  intros He Hp. apply isProtectedRoute_spec in Hp.
  destruct He as [-> | [-> | ->]]; discriminate Hp.
Qed.

(** X22.  The route guard answers by cases on the credential and the path only:
    it redirects to the entry point exactly when no credential is stored (or
    an empty one) and the path is a protected route or lies under one; it
    redirects to the image page exactly when a credential is stored and the
    path is one of the three entry pages; every other request passes. *)
Theorem middleware_guards_routes (request : Middleware.NextRequest) :
  (Middleware.middleware request = Middleware.redirect "/"
   <-> Middleware.has_token (Middleware.auth_token request) = false
       /\ protected (Middleware.pathname request))
  /\ (Middleware.middleware request = Middleware.redirect "/image"
      <-> Middleware.has_token (Middleware.auth_token request) = true
          /\ entry_page (Middleware.pathname request))
  /\ (Middleware.middleware request = Middleware.next
      <-> (Middleware.has_token (Middleware.auth_token request) = false
           /\ ~ protected (Middleware.pathname request))
          \/ (Middleware.has_token (Middleware.auth_token request) = true
              /\ ~ entry_page (Middleware.pathname request))).
Proof.
  unfold Middleware.middleware.
  rewrite <- (isProtectedRoute_spec (Middleware.pathname request)).
  rewrite <- (entry_page_spec (Middleware.pathname request)).
  destruct (Middleware.has_token (Middleware.auth_token request));
    destruct ((Middleware.pathname request =? "/")
              || (Middleware.pathname request =? "/login")
              || (Middleware.pathname request =? "/register"));
    destruct (existsb _ Middleware.protectedRoutes);
    cbn [negb andb]; intuition congruence.
Qed.

(** X23.  The route guard cannot loop: the request that follows its answer with
    the same cookie always passes, and a redirect always leads to a path
    other than the one asked for. *)
Theorem middleware_redirects_settle (request : Middleware.NextRequest) :
  Middleware.middleware (follow request (Middleware.middleware request))
  = Middleware.next
  /\ (Middleware.middleware request <> Middleware.next ->
      Middleware.pathname (follow request (Middleware.middleware request))
      <> Middleware.pathname request).
Proof.
  remember (Middleware.middleware request) as answer eqn:Ha.
  unfold Middleware.middleware in Ha.
  destruct (Middleware.has_token (Middleware.auth_token request)) eqn:Htok;
    cbn [negb andb] in Ha.
  - destruct ((Middleware.pathname request =? "/")
              || (Middleware.pathname request =? "/login")
              || (Middleware.pathname request =? "/register")) eqn:He; subst answer.
    + split.
      * unfold follow, Middleware.middleware.
        cbn [Middleware.auth_token Middleware.pathname]. rewrite Htok. reflexivity.
      * intros _. cbn [follow Middleware.pathname]. intros Heq. rewrite <- Heq in He.
        discriminate He.
    + split.
      * unfold follow, Middleware.middleware. rewrite Htok, He. reflexivity.
      * intros H. now contradiction H.
  - destruct (existsb _ Middleware.protectedRoutes) eqn:Hp; subst answer.
    + split.
      * unfold follow, Middleware.middleware.
        cbn [Middleware.auth_token Middleware.pathname]. rewrite Htok. reflexivity.
      * intros _. cbn [follow Middleware.pathname]. intros Heq. rewrite <- Heq in Hp.
        discriminate Hp.
    + split.
      * unfold follow, Middleware.middleware. rewrite Htok, Hp. reflexivity.
      * intros H. now contradiction H.
Qed.


(** ** The form of the image generation page *)

Section FormProperties.

Import ImageGenerationPage.

Lemma clear_error_about_selections (word : string) (s : State) :
  selections_valid s -> selections_valid (clear_error_about word s).
Proof.
  unfold clear_error_about. destruct (error s) as [e|]; [|auto].
  destruct (negb (e =? "") && JsText.includes e word); auto.
Qed.

Lemma clear_error_about_prompt (word : string) (s : State) :
  prompt (clear_error_about word s) = prompt s.
Proof.
  unfold clear_error_about. destruct (error s) as [e|]; [|auto].
  destruct (negb (e =? "") && JsText.includes e word); auto.
Qed.

Lemma handle_selections (s : State) (e : Event) :
  selections_valid s -> selections_valid (handle s e).
Proof.
  intros Hs. pose proof Hs as (H1 & H2 & H3 & H4 & H5 & H6 & H7 & H8).
  destruct e as [v|v|v|v|v|v|v|v|v| |v|v]; cbn [handle].
  - unfold onPromptChange. destruct (String.length v <=? 2000)%nat; [|exact Hs].
    apply clear_error_about_selections. exact Hs.
  - unfold setValidatedAspectRatio. destruct (Js.includes ASPECT_RATIOS v) eqn:E; [|exact Hs].
    apply clear_error_about_selections. apply includes_spec in E.
    unfold selections_valid; cbn; tauto.
  - unfold setValidatedResolution. destruct (Js.includes RESOLUTIONS v) eqn:E; [|exact Hs].
    apply clear_error_about_selections. apply includes_spec in E.
    unfold selections_valid; cbn; tauto.
  - unfold setValidatedStyle. destruct (Js.includes STYLES v) eqn:E; [|exact Hs].
    apply clear_error_about_selections. apply includes_spec in E.
    unfold selections_valid; cbn; tauto.
  - unfold setValidatedContentType.
    destruct (Js.includes CONTENT_TYPES v) eqn:E; [|exact Hs].
    apply clear_error_about_selections. apply includes_spec in E.
    unfold selections_valid; cbn; tauto.
  - unfold setValidatedColorTone. destruct (Js.includes COLOR_TONES v) eqn:E; [|exact Hs].
    apply clear_error_about_selections. apply includes_spec in E.
    unfold selections_valid; cbn; tauto.
  - unfold setValidatedLighting.
    destruct (Js.includes LIGHTING_OPTIONS v) eqn:E; [|exact Hs].
    apply clear_error_about_selections. apply includes_spec in E.
    unfold selections_valid; cbn; tauto.
  - unfold setValidatedComposition.
    destruct (Js.includes COMPOSITION_OPTIONS v) eqn:E; [|exact Hs].
    apply clear_error_about_selections. apply includes_spec in E.
    unfold selections_valid; cbn; tauto.
  - unfold setValidatedNumImages. cbv zeta.
    destruct (Js.includes_num NUM_IMAGES_OPTIONS (JsText.parseInt v)) eqn:E; [|exact Hs].
    apply clear_error_about_selections. apply includes_num_spec in E.
    destruct E as [z [Hin Hd]].
    unfold selections_valid; cbn. repeat (split; [assumption|]).
    exists (JsText.parseInt v), z. auto.
  - unfold handleClear, selections_valid; cbn. repeat (split; [tauto|]).
    exists (Js.of_Z 2), 2%Z. repeat split; cbn; auto.
  - exact Hs.
  - exact Hs.
Qed.

Lemma run_selections (events : list Event) (s : State) :
  selections_valid s -> selections_valid (fold_left handle events s).
Proof.
  revert s. induction events as [|e events IH]; intros s Hs; [exact Hs|].
  cbn [fold_left]. apply IH. now apply handle_selections.
Qed.

Lemma initial_selections : selections_valid initial.
Proof.
  unfold selections_valid; cbn. repeat (split; [tauto|]).
  exists (Js.of_Z 2), 2%Z. repeat split; cbn; auto.
Qed.

(** X24.  Whatever the user does with the form, the eight selections hold members
    of their sets: the setters of the selects ignore every value outside the
    set (the image count after [parseInt]), and [handleClear] resets to
    members. *)
Theorem selections_stay_valid (events : list Event) :
  selections_valid (after events).
Proof.
  unfold after. apply run_selections. exact initial_selections.
Qed.

(** White space at the ends of a string, and runs inside it. *)

Lemma replace_runs_length (b : bool) (s : string) :
  (String.length (JsText.replace_runs b s) <= String.length s)%nat.
Proof.
  revert b. induction s as [|c s IH]; intros b; simpl; [lia|].
  destruct (Js.is_whitespace c).
  - destruct b; simpl; specialize (IH true); lia.
  - simpl. specialize (IH false). lia.
Qed.

Lemma trimStart_head (s : string) (c : ascii) (t : string) :
  Js.trimStart s = String c t -> Js.is_whitespace c = false.
Proof.
  induction s as [|d s IH]; simpl; [discriminate|].
  destruct (Js.is_whitespace d) eqn:E; [exact IH|].
  intros H. injection H as <- _. exact E.
Qed.

Lemma trimEnd_head (s : string) (c : ascii) (t : string) :
  Js.trimEnd s = String c t -> exists s', s = String c s'.
Proof.
  destruct s as [|d s]; simpl; [discriminate|].
  destruct (Js.trimEnd s).
  - destruct (Js.is_whitespace d); [discriminate|].
    intros H. injection H as <- _. now exists s.
  - intros H. injection H as <- _. now exists s.
Qed.

Lemma trim_head (s : string) (c : ascii) (t : string) :
  Js.trim s = String c t -> Js.is_whitespace c = false.
Proof.
  unfold Js.trim. intros H. apply trimEnd_head in H. destruct H as [s' H].
  now apply trimStart_head in H.
Qed.

Lemma trim_of_headed (c : ascii) (t : string) :
  Js.is_whitespace c = false -> Js.trim (String c t) <> "".
Proof.
  intros Hc. unfold Js.trim. simpl Js.trimStart. rewrite Hc. simpl.
  destruct (Js.trimEnd t); [rewrite Hc|]; discriminate.
Qed.

Lemma formatted_prompt_not_blank (p : string) :
  Js.trim p <> "" -> Js.trim (JsText.normalize_whitespace (Js.trim p)) <> "".
Proof.
  intros Hne. destruct (Js.trim p) as [|c t] eqn:E; [contradiction|].
  apply trim_head in E. unfold JsText.normalize_whitespace. simpl. rewrite E.
  now apply trim_of_headed.
Qed.

Lemma length_zero_iff (s : string) : String.length s = 0%nat <-> s = "".
Proof. destruct s; simpl; split; intros H; try reflexivity; discriminate. Qed.

(** The options of the selects carry no white space at their ends. *)
Lemma trim_option (s : string) :
  In s (ASPECT_RATIOS ++ RESOLUTIONS ++ STYLES ++ CONTENT_TYPES ++ COLOR_TONES
        ++ LIGHTING_OPTIONS ++ COMPOSITION_OPTIONS)%list ->
  Js.trim s = s.
Proof.
  intros H. simpl in H.
  repeat (destruct H as [<- | H]; [reflexivity|]). contradiction.
Qed.

Lemma trim_selections (s : State) :
  selections_valid s ->
  Js.trim (aspectRatio s) = aspectRatio s
  /\ Js.trim (resolution s) = resolution s
  /\ Js.trim (style s) = style s
  /\ Js.trim (contentType s) = contentType s
  /\ Js.trim (colorTone s) = colorTone s
  /\ Js.trim (lighting s) = lighting s
  /\ Js.trim (composition s) = composition s.
Proof.
  intros (H1 & H2 & H3 & H4 & H5 & H6 & H7 & _).
  repeat split; apply trim_option; rewrite !in_app_iff; tauto.
Qed.

Lemma validateInputs_selected (s : State) :
  selections_valid s ->
  validateInputs s
  = let trimmedPrompt := Js.trim (prompt s) in
    if trimmedPrompt =? "" then Some "Please enter a prompt to generate images."
    else if (String.length trimmedPrompt <? 3)%nat
    then Some "Prompt must be at least 3 characters long."
    else if (2000 <? String.length trimmedPrompt)%nat
    then Some "Prompt must be less than 2000 characters."
    else None.
Proof.
  intros Hs. pose proof (trim_selections Hs) as (T1 & T2 & T3 & _).
  destruct Hs as (H1 & H2 & H3 & _).
  destruct no_empty_choice as (E1 & E2 & E3).
  unfold validateInputs. rewrite T1, T2, T3.
  rewrite (proj2 (includes_spec _ _) H1), (proj2 (includes_spec _ _) H2),
    (proj2 (includes_spec _ _) H3).
  assert (N1 : (aspectRatio s =? "") = false)
    by (apply String.eqb_neq; intros Heq; rewrite Heq in H1; contradiction).
  assert (N2 : (resolution s =? "") = false)
    by (apply String.eqb_neq; intros Heq; rewrite Heq in H2; contradiction).
  assert (N3 : (style s =? "") = false)
    by (apply String.eqb_neq; intros Heq; rewrite Heq in H3; contradiction).
  rewrite N1, N2, N3. reflexivity.
Qed.

Lemma validateInputs_messages (events : list Event) (message : string) :
  validateInputs (after events) = Some message -> In message prompt_messages.
Proof.
  pose proof (run_selections events initial_selections) as Hs.
  fold (after events) in Hs. rewrite (validateInputs_selected Hs). cbv zeta.
  destruct (Js.trim (prompt (after events)) =? "");
    [|destruct (String.length (Js.trim (prompt (after events))) <? 3)%nat;
      [|destruct (2000 <? String.length (Js.trim (prompt (after events))))%nat]];
    intros H; try discriminate H; injection H as <-; simpl; auto.
Qed.

(** X25.  In any state the form can reach, [validateInputs] accepts exactly when
    the trimmed prompt has 3 to 2000 characters, and the only messages it can
    return are the three about the prompt: its checks of ratio, resolution
    and style never fail. *)
Theorem form_fails_only_on_prompt (events : list Event) :
  (validateInputs (after events) = None
   <-> (3 <= String.length (Js.trim (prompt (after events))) <= 2000)%nat)
  /\ (forall message,
         validateInputs (after events) = Some message -> In message prompt_messages).
Proof.
  pose proof (run_selections events initial_selections) as Hs.
  fold (after events) in Hs. rewrite (validateInputs_selected Hs). cbv zeta.
  destruct (String.eqb_spec (Js.trim (prompt (after events))) "") as [E|E].
  - rewrite E. split.
    + split; [discriminate | simpl; lia].
    + intros m H. injection H as <-. simpl. auto.
  - destruct (Nat.ltb_spec (String.length (Js.trim (prompt (after events)))) 3).
    + split.
      * split; [discriminate | lia].
      * intros m H'. injection H' as <-. simpl. auto.
    + destruct (Nat.ltb_spec 2000 (String.length (Js.trim (prompt (after events))))).
      * split.
        -- split; [discriminate | lia].
        -- intros m H'. injection H' as <-. simpl. auto.
      * split.
        -- split; [lia | reflexivity].
        -- discriminate.
Qed.

Lemma filter_value_selected (allowed : list string) (c : string) :
  In c allowed -> absent_or (one_of allowed) (filter_value (Some c)).
Proof.
  intros Hin. unfold filter_value.
  destruct (negb (c =? "") && negb (c =? "none")); [right | left; reflexivity].
  now apply one_of_Str.
Qed.

(** X26.  In any state the form can reach, inputs accepted by [validateInputs]
    make [formatRequestPayload] return a request (it does not throw) that
    passes the request validator of the client; the request holds the prompt
    trimmed with every run of white space collapsed to one space, never
    longer than the trimmed prompt, and the selections as chosen. *)
Theorem accepted_form_builds_valid_request (events : list Event) :
  validateInputs (after events) = None ->
  exists request,
    formatRequestPayload (after events) = Js.Return request
    /\ validateImageGenerationRequest request = []
    /\ built_as request (formatted_prompt (after events))
         (aspectRatio (after events)) (resolution (after events))
         (style (after events)) (Some (contentType (after events)))
         (Some (colorTone (after events))) (Some (lighting (after events)))
         (Some (composition (after events))) (Some (numImages (after events)))
    /\ (String.length (formatted_prompt (after events))
        <= String.length (Js.trim (prompt (after events))))%nat.
Proof.
  intros Hv.
  pose proof (run_selections events initial_selections) as Hs.
  fold (after events) in Hs.
  set (s := after events) in *.
  rewrite (validateInputs_selected Hs) in Hv. cbv zeta in Hv.
  destruct (String.eqb_spec (Js.trim (prompt s)) "") as [E|E]; [discriminate|].
  destruct (Nat.ltb_spec (String.length (Js.trim (prompt s))) 3); [discriminate|].
  destruct (Nat.ltb_spec 2000 (String.length (Js.trim (prompt s)))); [discriminate|].
  pose proof (trim_selections Hs) as (T1 & T2 & T3 & T4 & T5 & T6 & T7).
  pose proof (replace_runs_length false (Js.trim (prompt s))) as Hlen.
  unfold formatRequestPayload. cbv zeta.
  rewrite T1, T2, T3, T4, T5, T6, T7.
  fold (formatted_prompt s).
  destruct (builder_outcome (formatted_prompt s) (aspectRatio s) (resolution s)
              (style s) (Some (contentType s)) (Some (colorTone s))
              (Some (lighting s)) (Some (composition s)) (Some (numImages s)))
    as [r [Hb Heq]].
  assert (Hok : validateImageGenerationRequest r = []).
  { apply accepted_by_checks.
    destruct Hs as (H1 & H2 & H3 & H4 & H5 & H6 & H7 & H8).
    unfold satisfies_constraints, other_fields_valid.
    destruct Hb as (-> & -> & -> & -> & -> & -> & -> & -> & ->).
    split.
    - exists (formatted_prompt s). split; [reflexivity|]. split.
      + rewrite length_zero_iff. now apply formatted_prompt_not_blank.
      + unfold formatted_prompt, JsText.normalize_whitespace. lia.
    - rewrite !one_of_Str.
      repeat split; try assumption; try (now apply filter_value_selected).
      right. exact H8. }
  rewrite Heq, Hok. cbn [List.length Nat.ltb Nat.leb].
  exists r. repeat split; try assumption; try apply Hb.
Qed.

Lemma accepted_form_builds_valid_request_witness :
  exists request,
    formatRequestPayload (after [PromptChanged "  a   red  tyre "; StylePicked "cartoon";
                                 NumImagesPicked "4"; ColorTonePicked "sepia"])
    = Js.Return request
    /\ validateImageGenerationRequest request = []
    /\ request.["prompt"] = Js.Str "a red tyre"
    /\ request.["style"] = Js.Str "cartoon"
    /\ request.["colorTone"] = Js.Undefined
    /\ request.["numImages"] = Js.Num (Js.of_Z 4).
Proof.
  destruct (@accepted_form_builds_valid_request
              [PromptChanged "  a   red  tyre "; StylePicked "cartoon";
               NumImagesPicked "4"; ColorTonePicked "sepia"] eq_refl)
    as [request (Hr & Hv & Hb & _)].
  exists request. split; [exact Hr|]. split; [exact Hv|].
  destruct Hb as (B1 & _ & _ & B4 & _ & B6 & _ & _ & B9).
  repeat split; [exact B1 | exact B4 | exact B6 | exact B9].
Defined.

(** X27.  When [validateInputs] has refused the form and its message is on the
    banner, typing into the prompt field (at most 2000 characters) stores the
    text, and clears the banner exactly when the message is the one about an
    empty prompt: the two about the length do not contain the word the
    handler looks for. *)
Theorem typing_clears_one_prompt_message (events : list Event) (message value : string) :
  validateInputs (after events) = Some message ->
  (String.length value <= 2000)%nat ->
  prompt (onPromptChange value (setError (Some message) (after events))) = value
  /\ (error (onPromptChange value (setError (Some message) (after events))) = None
      <-> message = "Please enter a prompt to generate images.").
Proof.
  intros Hm Hlen. apply validateInputs_messages in Hm.
  unfold onPromptChange. apply Nat.leb_le in Hlen. rewrite Hlen.
  split; [apply clear_error_about_prompt|].
  simpl in Hm. destruct Hm as [<- | [<- | [<- | []]]]; split; intros H;
    try reflexivity; discriminate H.
Qed.

Lemma typing_clears_one_prompt_message_witness :
  prompt (onPromptChange "a cat"
            (setError (Some "Prompt must be at least 3 characters long.")
               (after [PromptChanged "ab"]))) = "a cat"
  /\ (error (onPromptChange "a cat"
               (setError (Some "Prompt must be at least 3 characters long.")
                  (after [PromptChanged "ab"]))) = None
      <-> "Prompt must be at least 3 characters long."
          = "Please enter a prompt to generate images.").
Proof.
  apply (@typing_clears_one_prompt_message [PromptChanged "ab"]
           "Prompt must be at least 3 characters long." "a cat" eq_refl).
  simpl. lia.
Defined.

End FormProperties.

(** ** Combined signals *)

Section SignalProperties.

Import Dom.

Lemma update_length s f (h : Heap) : List.length (update s f h) = List.length h.
Proof.
  revert s. induction h as [|sg h IH]; intros [|s]; simpl; auto.
Qed.

Lemma nth_error_update s f (h : Heap) i :
  nth_error (update s f h) i
  = if (i =? s)%nat then option_map f (nth_error h i) else nth_error h i.
Proof.
  revert s i. induction h as [|sg h IH]; intros [|s] [|i]; simpl; auto.
  destruct (i =? s)%nat; reflexivity.
Qed.

Lemma is_aborted_update s f (h : Heap) i :
  (forall sg, aborted (f sg) = aborted sg) ->
  is_aborted (update s f h) i = is_aborted h i.
Proof.
  intros Hf. unfold is_aborted. rewrite nth_error_update.
  destruct (i =? s)%nat; [|reflexivity].
  destruct (nth_error h i); simpl; auto.
Qed.

Lemma is_aborted_remove s cb (h : Heap) i :
  is_aborted (removeEventListener s cb h) i = is_aborted h i.
Proof. apply is_aborted_update. reflexivity. Qed.

Lemma is_aborted_add s cb o (h : Heap) i :
  is_aborted (addEventListener s cb o h) i = is_aborted h i.
Proof.
  apply is_aborted_update. intros sg.
  destruct (existsb _ (listeners sg)); reflexivity.
Qed.

Lemma remove_all_length cb V (h : Heap) :
  List.length (fold_left (fun h s => removeEventListener s cb h) V h) = List.length h.
Proof.
  revert h. induction V as [|a V IH]; intros h; simpl; [reflexivity|].
  rewrite IH. apply update_length.
Qed.

Lemma is_aborted_remove_all cb V (h : Heap) i :
  is_aborted (fold_left (fun h s => removeEventListener s cb h) V h) i = is_aborted h i.
Proof.
  revert h. induction V as [|a V IH]; intros h; simpl; [reflexivity|].
  rewrite IH. apply is_aborted_remove.
Qed.

Lemma add_all_length cb o V (h : Heap) :
  List.length (fold_left (fun h s => addEventListener s cb o h) V h) = List.length h.
Proof.
  revert h. induction V as [|a V IH]; intros h; simpl; [reflexivity|].
  rewrite IH. apply update_length.
Qed.

Lemma is_aborted_add_all cb o V (h : Heap) i :
  is_aborted (fold_left (fun h s => addEventListener s cb o h) V h) i = is_aborted h i.
Proof.
  revert h. induction V as [|a V IH]; intros h; simpl; [reflexivity|].
  rewrite IH. apply is_aborted_add.
Qed.

Lemma flags_kept_refl (h : Heap) : flags_kept h h.
Proof. split; auto. Qed.

Lemma flags_kept_trans (h1 h2 h3 : Heap) :
  flags_kept h1 h2 -> flags_kept h2 h3 -> flags_kept h1 h3.
Proof. intros [L1 F1] [L2 F2]. split; [congruence | auto]. Qed.

Lemma flags_same_kept (h h' : Heap) :
  List.length h' = List.length h ->
  (forall i, is_aborted h' i = is_aborted h i) ->
  flags_kept h h'.
Proof. intros L F. split; [exact L|]. intros s. now rewrite F. Qed.

Lemma pending_cons sg (h : Heap) :
  pending (sg :: h) = ((if aborted sg then 0 else 1) + pending h)%nat.
Proof. unfold pending. simpl. destruct (aborted sg); reflexivity. Qed.

Lemma pending_mono (h h' : Heap) : flags_kept h h' -> (pending h' <= pending h)%nat.
Proof.
  revert h'. induction h as [|sg h IH]; intros [|sg' h'] [L F]; simpl in L;
    try discriminate; [unfold pending; simpl; lia|].
  rewrite !pending_cons.
  assert (Ht : (pending h' <= pending h)%nat).
  { apply IH. split; [now injection L|]. intros s. apply (F (S s)). }
  specialize (F 0%nat). unfold is_aborted in F. simpl in F.
  destruct (aborted sg); [rewrite F by reflexivity|]; destruct (aborted sg'); lia.
Qed.

Lemma pending_set s sg (h : Heap) :
  nth_error h s = Some sg -> aborted sg = false ->
  S (pending (update s (fun sg => mkSignal true (listeners sg)) h)) = pending h.
Proof.
  revert s. induction h as [|a h IH]; intros [|s]; simpl; try discriminate.
  - intros H Ha. injection H as ->. rewrite !pending_cons. simpl. now rewrite Ha.
  - intros H Ha. rewrite !pending_cons. rewrite <- (IH s H Ha). lia.
Qed.

(** Firing an event ends, and lowers no flag, when the aborts it makes do. *)
Lemma dispatch_settles (run : nat -> Heap -> option Heap) (bound : nat) (s : nat) :
  (forall c h, (pending h < bound)%nat ->
               exists h', run c h = Some h' /\ flags_kept h h') ->
  forall ls h, (pending h < bound)%nat ->
               exists h', dispatch run s ls h = Some h' /\ flags_kept h h'.
Proof.
  intros Hrun. induction ls as [|l ls IH]; intros h Hp; simpl.
  - exists h. split; [reflexivity | apply flags_kept_refl].
  - destruct (registered s (callback l) h); [|now apply IH].
    set (h1 := if once l then removeEventListener s (callback l) h else h).
    assert (K1 : flags_kept h h1).
    { subst h1. destruct (once l); [|apply flags_kept_refl].
      apply flags_same_kept; [apply update_length | apply is_aborted_remove]. }
    assert (P1 : (pending h1 < bound)%nat) by (apply pending_mono in K1; lia).
    destruct (callback l) as [controller | controller validSignals].
    + destruct (Hrun controller h1 P1) as [h2 [-> K2]].
      assert (P2 : (pending h2 < bound)%nat) by (apply pending_mono in K2; lia).
      destruct (IH h2 P2) as [h3 [-> K3]].
      exists h3. split; [reflexivity|]. eauto using flags_kept_trans.
    + match goal with
      | |- context [fold_left ?f validSignals h1] => set (h2 := fold_left f validSignals h1)
      end.
      assert (K2 : flags_kept h1 h2).
      { subst h2. apply flags_same_kept;
          [apply remove_all_length | apply is_aborted_remove_all]. }
      assert (P2 : (pending h2 < bound)%nat) by (apply pending_mono in K2; lia).
      destruct (IH h2 P2) as [h3 [-> K3]].
      exists h3. split; [reflexivity|]. eauto using flags_kept_trans.
Qed.

(** An abort ends as soon as the fuel exceeds the number of signals that are
    not aborted yet; it lowers no flag and raises the one of its signal. *)
Lemma abort_settles (fuel : nat) :
  forall c h, (pending h < fuel)%nat ->
              exists h', abort fuel c h = Some h'
                         /\ flags_kept h h'
                         /\ ((c < List.length h)%nat -> is_aborted h' c = true).
Proof.
  induction fuel as [|fuel IH]; intros c h Hp; [lia|].
  simpl. destruct (nth_error h c) as [sg|] eqn:Hc.
  - destruct (aborted sg) eqn:Ha.
    + exists h. split; [reflexivity|]. split; [apply flags_kept_refl|].
      intros _. unfold is_aborted. now rewrite Hc.
    + pose proof (@pending_set c sg h Hc Ha) as Hset.
      set (h1 := update c (fun sg => mkSignal true (listeners sg)) h) in *.
      assert (K1 : flags_kept h h1).
      { split; [apply update_length|]. intros i Hi. unfold is_aborted in *.
        subst h1. rewrite nth_error_update.
        destruct (i =? c)%nat; [|exact Hi].
        destruct (nth_error h i); [reflexivity | discriminate Hi]. }
      assert (A1 : is_aborted h1 c = true).
      { unfold is_aborted. subst h1. rewrite nth_error_update, Nat.eqb_refl, Hc.
        reflexivity. }
      destruct (@dispatch_settles (abort fuel) fuel c) with (ls := listeners sg) (h := h1)
        as [h2 [-> K2]].
      * intros c' h' Hp'. destruct (IH c' h' Hp') as [h'' [E [K _]]]. eauto.
      * lia.
      * exists h2. split; [reflexivity|]. split; [eauto using flags_kept_trans|].
        intros _. now apply K2.
  - exists h. split; [reflexivity|]. split; [apply flags_kept_refl|].
    intros Hlt. apply nth_error_None in Hc. lia.
Qed.

(** X28.  [safeAbort] ends, whatever listeners of combined signals the abort
    sets off, as soon as the fuel exceeds the number of signals not aborted
    yet; it lowers no flag; the signal of the controller it was given is
    aborted afterwards; without a controller it does nothing; and a second
    call changes nothing. *)
Theorem safeAbort_settles (fuel : nat) (controller : option nat) (h : Heap) :
  (pending h < fuel)%nat ->
  exists h',
    safeAbort fuel controller h = Some h'
    /\ flags_kept h h'
    /\ (forall c, controller = Some c -> (c < List.length h)%nat ->
                  is_aborted h' c = true)
    /\ (controller = None -> h' = h)
    /\ safeAbort fuel controller h' = Some h'.
Proof.
  intros Hp. destruct controller as [c|]; simpl.
  - destruct (is_aborted h c) eqn:Ha; simpl.
    + exists h. split; [reflexivity|]. split; [apply flags_kept_refl|].
      split; [intros c' H _; injection H as Heq; now subst c'|].
      split; [discriminate|]. now rewrite Ha.
    + destruct (@abort_settles fuel c h Hp) as [h' (E & K & A)].
      exists h'. split; [exact E|]. split; [exact K|].
      split; [intros c' H Hlt; injection H as Heq; subst c'; auto|].
      split; [discriminate|].
      destruct (is_aborted h' c) eqn:Ha'; simpl; [reflexivity|].
      destruct (Nat.lt_ge_cases c (List.length h)) as [Hlt|Hge].
      * discriminate (A Hlt).
      * destruct fuel; [lia|]. simpl.
        destruct K as [L _].
        assert (Hnone : nth_error h' c = None) by (apply nth_error_None; lia).
        now rewrite Hnone.
  - exists h. split; [reflexivity|]. split; [apply flags_kept_refl|].
    split; [discriminate|]. split; reflexivity.
Qed.

Lemma safeAbort_settles_witness :
  exists h',
    safeAbort 3 (Some 1%nat) two_signals = Some h'
    /\ flags_kept two_signals h'
    /\ (forall c, Some 1%nat = Some c -> (c < List.length two_signals)%nat ->
                  Dom.is_aborted h' c = true)
    /\ (Some 1%nat = None -> h' = two_signals)
    /\ safeAbort 3 (Some 1%nat) h' = Some h'.
Proof.
  apply (@safeAbort_settles 3 (Some 1%nat) two_signals). vm_compute. lia.
Defined.

(** *** What [combineAbortSignals] builds *)

Lemma is_aborted_new (h : Heap) s :
  is_aborted (h ++ [mkSignal false []])%list s = is_aborted h s.
Proof.
  unfold is_aborted.
  destruct (Nat.lt_ge_cases s (List.length h)) as [Hlt|Hge].
  - now rewrite nth_error_app1.
  - rewrite nth_error_app2 by exact Hge.
    rewrite (proj2 (nth_error_None h s) Hge).
    destruct (s - List.length h)%nat as [|[|n]]; reflexivity.
Qed.

Lemma existsb_same {A : Type} (f g : A -> bool) (l : list A) :
  (forall x, f x = g x) -> existsb f l = existsb g l.
Proof. intros H. induction l as [|x l IH]; simpl; [reflexivity | now rewrite H, IH]. Qed.

Lemma update_last (h : Heap) f sg :
  update (List.length h) f (h ++ [sg])%list = (h ++ [f sg])%list.
Proof. induction h as [|a h IH]; simpl; [reflexivity | now rewrite IH]. Qed.

Lemma nth_error_last (h : Heap) sg :
  nth_error (h ++ [sg])%list (List.length h) = Some sg.
Proof. rewrite nth_error_app2, Nat.sub_diag by lia. reflexivity. Qed.

(** X29.  [combineAbortSignals] returns the signal of a new controller and
    changes the flag of no other signal; the new signal is aborted on return
    exactly when one of the signals passed (the undefined ones left out) was
    aborted already, and in that case no listener has been registered
    anywhere. *)
Theorem combined_signal_at_call (fuel : nat) (signals : list (option nat)) (h : Heap) :
  exists h',
    combineAbortSignals (S fuel) signals h = Some (List.length h, h')
    /\ List.length h' = S (List.length h)
    /\ (forall s, is_aborted h s = true -> is_aborted h' s = true)
    /\ (forall s, (s < List.length h)%nat -> is_aborted h' s = is_aborted h s)
    /\ is_aborted h' (List.length h) = existsb (is_aborted h) (valid_signals signals)
    /\ (existsb (is_aborted h) (valid_signals signals) = true ->
        h' = (h ++ [mkSignal true []])%list).
Proof.
  unfold combineAbortSignals, new_AbortController. fold (valid_signals signals).
  rewrite (existsb_same _ (is_aborted h) (valid_signals signals) (is_aborted_new h)).
  destruct (existsb (is_aborted h) (valid_signals signals)) eqn:Hany.
  - cbn [abort]. rewrite nth_error_last. cbn [aborted listeners dispatch].
    rewrite update_last. cbn [listeners].
    exists (h ++ [mkSignal true []])%list.
    split; [reflexivity|]. split; [rewrite length_app; simpl; lia|].
    assert (Hold : forall s, (s < List.length h)%nat ->
                             is_aborted (h ++ [mkSignal true []])%list s = is_aborted h s)
      by (intros s Hs; unfold is_aborted; now rewrite nth_error_app1).
    split.
    { intros s Hs. rewrite Hold; [exact Hs|].
      unfold is_aborted in Hs. destruct (nth_error h s) eqn:E; [|discriminate Hs].
      apply nth_error_Some. congruence. }
    split; [exact Hold|].
    split; [|reflexivity].
    unfold is_aborted. now rewrite nth_error_last.
  - match goal with
    | |- context [addEventListener ?c ?cb ?o (fold_left ?f ?V ?h0)] =>
        exists (addEventListener c cb o (fold_left f V h0));
        assert (Hflag : forall s, is_aborted (addEventListener c cb o (fold_left f V h0)) s
                                  = is_aborted h s)
          by (intros s; rewrite is_aborted_add, is_aborted_add_all; apply is_aborted_new)
    end.
    split; [reflexivity|].
    split.
    { unfold addEventListener at 1. rewrite update_length, add_all_length, length_app.
      simpl. lia. }
    split; [intros s Hs; now rewrite Hflag|].
    split; [intros s _; apply Hflag|].
    split; [|discriminate].
    rewrite Hflag. unfold is_aborted.
    now rewrite (proj2 (nth_error_None h (List.length h)) (Nat.le_refl _)).
Qed.

(** *** An input aborts after the call *)

Lemma same_callback_refl cb : same_callback cb cb = true.
Proof. destruct cb; simpl; apply Nat.eqb_refl. Qed.

Lemma with_listener_twice cb o sg : with_listener cb o (with_listener cb o sg) = with_listener cb o sg.
Proof.
  unfold with_listener.
  destruct (existsb _ (listeners sg)) eqn:E; [now rewrite E|].
  cbn [listeners]. rewrite existsb_app. simpl.
  now rewrite same_callback_refl, orb_true_r.
Qed.

Lemma without_listener_twice cb sg : without_listener cb (without_listener cb sg) = without_listener cb sg.
Proof.
  unfold without_listener. cbn [listeners aborted]. f_equal.
  induction (listeners sg) as [|l ls IH]; simpl; [reflexivity|].
  destruct (negb (same_callback (callback l) cb)) eqn:E; simpl; [rewrite E, IH|];
    auto.
Qed.

Lemma nth_error_add_all cb o V (h : Heap) i :
  nth_error (fold_left (fun h s => addEventListener s cb o h) V h) i
  = if existsb (Nat.eqb i) V then option_map (with_listener cb o) (nth_error h i)
    else nth_error h i.
Proof.
  revert h. induction V as [|a V IH]; intros h; simpl; [reflexivity|].
  rewrite IH. unfold addEventListener. rewrite nth_error_update. fold (with_listener cb o).
  destruct (i =? a)%nat; simpl.
  - destruct (existsb (Nat.eqb i) V); [|reflexivity].
    destruct (nth_error h i); simpl; [now rewrite with_listener_twice | reflexivity].
  - reflexivity.
Qed.

Lemma nth_error_remove_all cb V (h : Heap) i :
  nth_error (fold_left (fun h s => removeEventListener s cb h) V h) i
  = if existsb (Nat.eqb i) V then option_map (without_listener cb) (nth_error h i)
    else nth_error h i.
Proof.
  revert h. induction V as [|a V IH]; intros h; simpl; [reflexivity|].
  rewrite IH. unfold removeEventListener. rewrite nth_error_update. fold (without_listener cb).
  destruct (i =? a)%nat; simpl.
  - destruct (existsb (Nat.eqb i) V); [|reflexivity].
    destruct (nth_error h i); simpl; [now rewrite without_listener_twice | reflexivity].
  - reflexivity.
Qed.

Lemma existsb_eqb_In i (V : list nat) : existsb (Nat.eqb i) V = true <-> In i V.
Proof.
  rewrite existsb_exists. split.
  - intros [x [Hin E]]. apply Nat.eqb_eq in E. now subst.
  - intros Hin. exists i. split; [exact Hin | apply Nat.eqb_refl].
Qed.

Lemma valid_signals_fresh (signals : list (option nat)) (h : Heap) :
  (forall s, In s (valid_signals signals) -> nth_error h s = Some fresh_signal) ->
  existsb (is_aborted h) (valid_signals signals) = false
  /\ forall s, In s (valid_signals signals) -> (s < List.length h)%nat.
Proof.
  intros Hfresh. split.
  - destruct (existsb (is_aborted h) (valid_signals signals)) eqn:E; [|reflexivity].
    apply existsb_exists in E. destruct E as [s [Hin Ha]].
    unfold is_aborted in Ha. rewrite (Hfresh s Hin) in Ha. discriminate Ha.
  - intros s Hin. apply nth_error_Some. rewrite (Hfresh s Hin). discriminate.
Qed.

(** The heap after the listeners are set up, read signal by signal. *)
Lemma combined_heap (signals : list (option nat)) (h : Heap) :
  (forall s, In s (valid_signals signals) -> nth_error h s = Some fresh_signal) ->
  let c := List.length h in
  let V := valid_signals signals in
  let h1 := addEventListener c (removeHandlers c V) true
              (fold_left (fun h s => addEventListener s (abortHandler c) true h) V
                 (h ++ [mkSignal false []])%list) in
  (forall i, In i V ->
             nth_error h1 i = Some (mkSignal false [mkListener (abortHandler c) true]))
  /\ nth_error h1 c = Some (mkSignal false [mkListener (removeHandlers c V) true])
  /\ (forall i, ~ In i V -> i <> c -> nth_error h1 i = nth_error h i).
Proof.
  intros Hfresh c V h1.
  destruct (valid_signals_fresh signals h Hfresh) as [_ Hlt]. fold V in Hlt.
  assert (Hc : existsb (Nat.eqb c) V = false).
  { destruct (existsb (Nat.eqb c) V) eqn:E; [|reflexivity].
    apply existsb_eqb_In, Hlt in E. subst c. lia. }
  subst h1. repeat split.
  - intros i Hi. pose proof (Hlt i Hi) as Hi'. unfold addEventListener at 1.
    rewrite nth_error_update, nth_error_add_all.
    replace (i =? c)%nat with false by (symmetry; apply Nat.eqb_neq; subst c; lia).
    rewrite (proj2 (existsb_eqb_In i V) Hi), nth_error_app1 by exact Hi'.
    rewrite (Hfresh i Hi). reflexivity.
  - unfold addEventListener at 1.
    rewrite nth_error_update, Nat.eqb_refl, nth_error_add_all, Hc.
    subst c. rewrite nth_error_last. reflexivity.
  - intros i Hi Hic. unfold addEventListener at 1.
    rewrite nth_error_update, nth_error_add_all.
    replace (i =? c)%nat with false by (symmetry; now apply Nat.eqb_neq).
    destruct (existsb (Nat.eqb i) V) eqn:E; [apply existsb_eqb_In in E; contradiction|].
    destruct (Nat.lt_ge_cases i (List.length h)) as [Hlt'|Hge].
    + now rewrite nth_error_app1.
    + rewrite (proj2 (nth_error_None h i) Hge). apply nth_error_None.
      rewrite length_app. simpl. subst c. lia.
Qed.

Lemma is_aborted_set s (h : Heap) i :
  is_aborted (update s (fun sg => mkSignal true (listeners sg)) h) i
  = if (i =? s)%nat
    then match nth_error h i with Some _ => true | None => false end
    else is_aborted h i.
Proof.
  unfold is_aborted. rewrite nth_error_update.
  destruct (i =? s)%nat; [|reflexivity]. now destruct (nth_error h i).
Qed.

(** X30.  When the signals passed are fresh (not aborted, no listeners), the
    combined signal is not aborted on return, and aborting any one of the
    inputs afterwards aborts the combined signal too, leaves the flags of all
    other signals as they were, and leaves no listener behind on any input or
    on the combined signal, also when a signal was passed twice. *)
Theorem combined_signal_follows_inputs (fuel fuel' : nat) (signals : list (option nat))
  (h : Heap) :
  (forall s, In s (valid_signals signals) -> nth_error h s = Some fresh_signal) ->
  exists h1,
    combineAbortSignals fuel signals h = Some (List.length h, h1)
    /\ is_aborted h1 (List.length h) = false
    /\ forall s, In s (valid_signals signals) ->
         exists h2,
           abort (S (S fuel')) s h1 = Some h2
           /\ is_aborted h2 (List.length h) = true
           /\ is_aborted h2 s = true
           /\ (forall i, i <> s -> (i < List.length h)%nat ->
                         is_aborted h2 i = is_aborted h i)
           /\ (forall i, In i (valid_signals signals) \/ i = List.length h ->
                         no_listeners h2 i).
Proof.
  intros Hfresh.
  destruct (valid_signals_fresh signals h Hfresh) as [Hnone Hlt].
  destruct (combined_heap signals h Hfresh) as (LV & Lc & Lo).
  unfold combineAbortSignals, new_AbortController. fold (valid_signals signals).
  rewrite (existsb_same _ (is_aborted h) (valid_signals signals) (is_aborted_new h)).
  rewrite Hnone.
  set (c := List.length h) in *. set (V := valid_signals signals) in *.
  match goal with
  | |- exists h1, Some (c, ?x) = _ /\ _ => set (h1 := x) in *
  end.
  exists h1. split; [reflexivity|]. clearbody h1.
  split; [unfold is_aborted; now rewrite Lc|].
  intros s Hs. pose proof (Hlt s Hs) as Hsc.
  assert (Hcs : (c =? s)%nat = false) by (apply Nat.eqb_neq; lia).
  assert (Hsc' : (s =? c)%nat = false) by (apply Nat.eqb_neq; lia).
  cbn [abort]. rewrite (LV s Hs). cbn [aborted listeners dispatch callback once].
  set (T := fun sg : Signal => mkSignal true (listeners sg)).
  set (ha := update s T h1).
  set (hb := removeEventListener s (abortHandler c) ha).
  assert (Ra : registered s (abortHandler c) ha = true).
  { unfold registered. subst ha. rewrite nth_error_update, Nat.eqb_refl, (LV s Hs).
    cbn. now rewrite Nat.eqb_refl. }
  assert (Nb : nth_error hb c
               = Some (mkSignal false [mkListener (removeHandlers c V) true])).
  { subst hb ha. unfold removeEventListener.
    rewrite !nth_error_update, Hcs. exact Lc. }
  rewrite Ra, Nb. cbn [aborted listeners dispatch callback once].
  set (hc := update c T hb).
  assert (Rc : registered c (removeHandlers c V) hc = true).
  { unfold registered. subst hc. rewrite nth_error_update, Nat.eqb_refl, Nb.
    cbn. now rewrite Nat.eqb_refl. }
  rewrite Rc.
  set (hd := removeEventListener c (removeHandlers c V) hc).
  match goal with
  | |- exists h2, Some ?x = _ /\ _ => set (he := x)
  end.
  exists he. split; [reflexivity|].
  assert (Flags : forall i, is_aborted he i
                            = if (i =? c)%nat then true
                              else if (i =? s)%nat then true else is_aborted h1 i).
  { intros i. subst he hd hc hb ha.
    rewrite is_aborted_remove_all, is_aborted_remove.
    unfold T in *. rewrite is_aborted_set.
    destruct (i =? c)%nat eqn:Eic.
    - apply Nat.eqb_eq in Eic. subst i. now rewrite Nb.
    - rewrite is_aborted_remove, is_aborted_set.
      destruct (i =? s)%nat eqn:Eis; [|reflexivity].
      apply Nat.eqb_eq in Eis. subst i. now rewrite (LV s Hs). }
  split; [now rewrite Flags, Nat.eqb_refl|].
  split; [now rewrite Flags, Hsc', Nat.eqb_refl|].
  split.
  { intros i His Hic. rewrite Flags.
    replace (i =? c)%nat with false by (symmetry; apply Nat.eqb_neq; lia).
    replace (i =? s)%nat with false by (symmetry; now apply Nat.eqb_neq).
    unfold is_aborted.
    destruct (in_dec Nat.eq_dec i V) as [Hin|Hout].
    - now rewrite (LV i Hin), (Hfresh i Hin).
    - rewrite Lo; [reflexivity | exact Hout | lia]. }
  intros i Hi sg Hsg.
  subst he. rewrite nth_error_remove_all in Hsg.
  subst hd hc hb ha. unfold removeEventListener in Hsg.
  rewrite !nth_error_update in Hsg.
  destruct Hi as [Hi | ->].
  - pose proof (Hlt i Hi) as Hic.
    rewrite (proj2 (existsb_eqb_In i V) Hi) in Hsg.
    replace (i =? c)%nat with false in Hsg by (symmetry; apply Nat.eqb_neq; lia).
    rewrite (LV i Hi) in Hsg.
    destruct (i =? s)%nat; unfold without_listener in Hsg; cbn in Hsg;
      rewrite ?Nat.eqb_refl in Hsg; cbn in Hsg; injection Hsg as <-; reflexivity.
  - rewrite Nat.eqb_refl, Hcs, Lc in Hsg.
    destruct (existsb (Nat.eqb c) V); unfold without_listener in Hsg; cbn in Hsg;
      rewrite ?Nat.eqb_refl in Hsg; cbn in Hsg; injection Hsg as <-; reflexivity.
Qed.

Lemma combined_signal_follows_inputs_witness :
  exists h1,
    combineAbortSignals 0 [Some 0%nat; None; Some 1%nat; Some 0%nat] two_signals
    = Some (List.length two_signals, h1)
    /\ Dom.is_aborted h1 (List.length two_signals) = false
    /\ forall s, In s (valid_signals [Some 0%nat; None; Some 1%nat; Some 0%nat]) ->
         exists h2,
           Dom.abort 2 s h1 = Some h2
           /\ Dom.is_aborted h2 (List.length two_signals) = true
           /\ Dom.is_aborted h2 s = true
           /\ (forall i, i <> s -> (i < List.length two_signals)%nat ->
                         Dom.is_aborted h2 i = Dom.is_aborted two_signals i)
           /\ (forall i, In i (valid_signals [Some 0%nat; None; Some 1%nat; Some 0%nat])
                         \/ i = List.length two_signals ->
                         no_listeners h2 i).
Proof.
  apply (@combined_signal_follows_inputs 0 0 [Some 0%nat; None; Some 1%nat; Some 0%nat]
           two_signals).
  intros s H. simpl in H.
  destruct H as [<- | [<- | [<- | []]]]; reflexivity.
Defined.

End SignalProperties.
